(** * sample3d_cityscape: the layout rules and the per-frame updates of [src/city.ts]

    A shallow embedding of the grid layout ([createBuildings], [createRoads],
    the registry entries the spawn loops push) and of the per-frame updates
    ([updateCars], [updatePedestrians], [updateTrafficLights],
    [updateDayNightCycle]).

    JavaScript numbers.  Every function is written once, over a number type
    [A] with the operations the source uses ([Number]), and is instantiated
    twice:
    - at [R], exact real arithmetic, over which the general statements are
      proved (rounding is idealised away);
    - at [float], the kernel's binary64, which is what a JavaScript engine
      computes, over which the concrete runs are evaluated.
    Numbers that are only counted and reduced with [%] (grid indices, the
    signal phase) are [Z], and [%] is [Z.rem]. *)

From Stdlib Require Import ZArith List Bool String Reals Lra Lia.
From Stdlib Require Import Floats Uint63.
Import ListNotations.

Set Implicit Arguments.
Set Warnings "-inexact-float".

(** ** Numbers *)

Class Number (A : Type) : Type := {
  ofZ : Z -> A;                 (* an integer literal or a loop counter *)
  num_add : A -> A -> A;
  num_sub : A -> A -> A;
  num_mul : A -> A -> A;
  num_div : A -> A -> A;
  num_neg : A -> A;
  num_gt : A -> A -> bool;
  num_lt : A -> A -> bool;
  Math_max : A -> A -> A;
  Math_floor : A -> Z;
  Math_PI : A
}.

Class Trig (A : Type) : Type := {
  Math_sin : A -> A;
  Math_cos : A -> A
}.

Declare Scope js_scope.
Delimit Scope js_scope with js.
Infix "+" := num_add : js_scope.
Infix "-" := num_sub : js_scope.
Infix "*" := num_mul : js_scope.
Infix "/" := num_div : js_scope.
Notation "- x" := (num_neg x) : js_scope.
Infix ">?" := num_gt (at level 70, no associativity) : js_scope.
Infix "<?" := num_lt (at level 70, no associativity) : js_scope.

(** A decimal literal [n/d] (0.01 is [dec 1 100]).  Both instances divide two
    exactly represented integers; in binary64 that is the correctly rounded
    quotient, which is the double the literal denotes. *)
Definition dec {A} `{Number A} (n d : Z) : A := (ofZ n / ofZ d)%js.

Definition Rgtb (a c : R) : bool := if Rgt_dec a c then true else false.
Definition Rltb (a c : R) : bool := if Rlt_dec a c then true else false.

#[export] Instance Number_R : Number R := {|
  ofZ := IZR;
  num_add := Rplus;
  num_sub := Rminus;
  num_mul := Rmult;
  num_div := Rdiv;
  num_neg := Ropp;
  num_gt := Rgtb;
  num_lt := Rltb;
  Math_max := Rmax;
  Math_floor := Int_part;
  Math_PI := PI
|}.

#[export] Instance Trig_R : Trig R := {|
  Math_sin := sin;
  Math_cos := cos
|}.

Definition float_ofZ (n : Z) : float :=
  match n with
  | Zneg p => PrimFloat.opp (PrimFloat.of_uint63 (Uint63.of_Z (Zpos p)))
  | _ => PrimFloat.of_uint63 (Uint63.of_Z n)
  end.

(** [Math.max]: NaN when an argument is NaN, and +0 above -0. *)
Definition float_max (a c : float) : float :=
  if PrimFloat.is_nan a || PrimFloat.is_nan c then PrimFloat.nan
  else if PrimFloat.ltb a c then c
  else if PrimFloat.ltb c a then a
  else if PrimFloat.eqb a PrimFloat.zero then PrimFloat.add a c
  else a.

(** [Math.floor] of a finite double, as an integer ((-1)^s * m * 2^e rounded
    down is an arithmetic shift of the signed mantissa).  On an infinity or
    NaN, where JavaScript answers the argument, this answers 0. *)
Definition float_floor (a : float) : Z :=
  match Prim2SF a with
  | S754_finite s m e => Z.shiftl (if s then Zneg m else Zpos m) e
  | _ => 0%Z
  end.

#[export] Instance Number_float : Number float := {|
  ofZ := float_ofZ;
  num_add := PrimFloat.add;
  num_sub := PrimFloat.sub;
  num_mul := PrimFloat.mul;
  num_div := PrimFloat.div;
  num_neg := PrimFloat.opp;
  num_gt := fun a c => PrimFloat.ltb c a;
  num_lt := PrimFloat.ltb;
  Math_max := float_max;
  Math_floor := float_floor;
  Math_PI := 0x1.921fb54442d18p+1%float
|}.

(** ** Scene objects *)

Record Vector3 (A : Type) : Type := mkVector3 { x : A; y : A; z : A }.

(** What the updates read and write of a [THREE.Object3D]: [position] and
    [rotation.y]. *)
Record Object3D (A : Type) : Type := mkObject3D {
  position : Vector3 A;
  rotation_y : A
}.

Definition set_position_x {A} (o : Object3D A) (v : A) : Object3D A :=
  {| position := {| x := v; y := y (position o); z := z (position o) |};
     rotation_y := rotation_y o |}.

Definition set_position_z {A} (o : Object3D A) (v : A) : Object3D A :=
  {| position := {| x := x (position o); y := y (position o); z := v |};
     rotation_y := rotation_y o |}.

Definition set_rotation_y {A} (o : Object3D A) (v : A) : Object3D A :=
  {| position := position o; rotation_y := v |}.

(** A new object: at the origin, not rotated. *)
Definition origin {A} `{Number A} : Object3D A :=
  {| position := {| x := ofZ 0; y := ofZ 0; z := ofZ 0 |};
     rotation_y := ofZ 0 |}.

(** [o.position.set(px, py, pz)]. *)
Definition position_set {A} (o : Object3D A) (px py pz : A) : Object3D A :=
  {| position := {| x := px; y := py; z := pz |}; rotation_y := rotation_y o |}.

(** ** Motion updater: [updateCars], [updatePedestrians] *)

(** An entry of the [cars] registry.  [headlights] is the emissive intensity of
    the one material the two headlight meshes of [createCar] share. *)
Record Car (A : Type) : Type := mkCar {
  car_mesh : Object3D A;
  headlights : A;
  car_speed : A;
  car_direction : A;
  car_road : string;
  car_roadIndex : Z
}.

Record Pedestrian (A : Type) : Type := mkPedestrian {
  ped_mesh : Object3D A;
  ped_speed : A;
  ped_direction : A;
  ped_road : string;
  ped_side : A;
  ped_roadIndex : Z
}.

Section Motion.
Context {A : Type} `{Number A}.
Local Open Scope js_scope.

Definition set_car_mesh (car : Car A) (m : Object3D A) : Car A :=
  {| car_mesh := m; headlights := headlights car; car_speed := car_speed car;
     car_direction := car_direction car; car_road := car_road car;
     car_roadIndex := car_roadIndex car |}.

Definition set_ped_mesh (p : Pedestrian A) (m : Object3D A) : Pedestrian A :=
  {| ped_mesh := m; ped_speed := ped_speed p; ped_direction := ped_direction p;
     ped_road := ped_road p; ped_side := ped_side p;
     ped_roadIndex := ped_roadIndex p |}.

(** The body of the [cars.forEach] callback. *)
Definition updateCar (gridSize : A) (car : Car A) : Car A :=
  let centerOffset := gridSize / ofZ 2 in
  if String.eqb (car_road car) "horizontal" then
    let px := x (position (car_mesh car)) + car_speed car * car_direction car in
    if (car_direction car >? ofZ 0) && (px >? centerOffset) then
      set_car_mesh car (set_position_x (car_mesh car) (- centerOffset))
    else if (car_direction car <? ofZ 0) && (px <? - centerOffset) then
      set_car_mesh car (set_position_x (car_mesh car) centerOffset)
    else set_car_mesh car (set_position_x (car_mesh car) px)
  else
    let pz := z (position (car_mesh car)) + car_speed car * car_direction car in
    if (car_direction car >? ofZ 0) && (pz >? centerOffset) then
      set_car_mesh car (set_position_z (car_mesh car) (- centerOffset))
    else if (car_direction car <? ofZ 0) && (pz <? - centerOffset) then
      set_car_mesh car (set_position_z (car_mesh car) centerOffset)
    else set_car_mesh car (set_position_z (car_mesh car) pz).

Definition updateCars (cars : list (Car A)) (gridSize : A) : list (Car A) :=
  map (updateCar gridSize) cars.

(** The body of the [pedestrians.forEach] callback: the move, the facing, and
    then the wrap. *)
Definition updatePedestrian (gridSize : A) (pedestrian : Pedestrian A)
  : Pedestrian A :=
  let centerOffset := gridSize / ofZ 2 in
  if String.eqb (ped_road pedestrian) "horizontal" then
    let px := x (position (ped_mesh pedestrian))
              + ped_speed pedestrian * ped_direction pedestrian in
    let m := set_rotation_y (ped_mesh pedestrian)
               (if ped_direction pedestrian >? ofZ 0
                then Math_PI / ofZ 2 else - Math_PI / ofZ 2) in
    if (ped_direction pedestrian >? ofZ 0) && (px >? centerOffset) then
      set_ped_mesh pedestrian (set_position_x m (- centerOffset))
    else if (ped_direction pedestrian <? ofZ 0) && (px <? - centerOffset) then
      set_ped_mesh pedestrian (set_position_x m centerOffset)
    else set_ped_mesh pedestrian (set_position_x m px)
  else
    let pz := z (position (ped_mesh pedestrian))
              + ped_speed pedestrian * ped_direction pedestrian in
    let m := set_rotation_y (ped_mesh pedestrian)
               (if ped_direction pedestrian >? ofZ 0
                then ofZ 0 else Math_PI) in
    if (ped_direction pedestrian >? ofZ 0) && (pz >? centerOffset) then
      set_ped_mesh pedestrian (set_position_z m (- centerOffset))
    else if (ped_direction pedestrian <? ofZ 0) && (pz <? - centerOffset) then
      set_ped_mesh pedestrian (set_position_z m centerOffset)
    else set_ped_mesh pedestrian (set_position_z m pz).

Definition updatePedestrians (pedestrians : list (Pedestrian A)) (gridSize : A)
  : list (Pedestrian A) :=
  map (updatePedestrian gridSize) pedestrians.

(** The coordinate an actor moves along: [x] on a horizontal road, [z] on any
    other. *)
Definition movingCoord (road : string) (o : Object3D A) : A :=
  if String.eqb road "horizontal" then x (position o) else z (position o).

End Motion.

(** ** Traffic signal controller: [updateTrafficLights] *)

(** The emissive intensities of [mesh.userData.lights.{red,yellow,green}];
    [createTrafficLight] gives every light a material of its own. *)
Record Lights (A : Type) : Type := mkLights { red : A; yellow : A; green : A }.

Record TrafficLight (A : Type) : Type := mkTrafficLight {
  tl_mesh : Object3D A;
  tl_lights : Lights A;
  state : Z;
  timer : A
}.

(** The phases, as the comments of the source number them. *)
Definition RED : Z := 0.
Definition YELLOW : Z := 1.
Definition GREEN : Z := 2.

Section Signals.
Context {A : Type} `{Number A}.
Local Open Scope js_scope.

Definition set_red (l : Lights A) (v : A) : Lights A :=
  {| red := v; yellow := yellow l; green := green l |}.
Definition set_yellow (l : Lights A) (v : A) : Lights A :=
  {| red := red l; yellow := v; green := green l |}.
Definition set_green (l : Lights A) (v : A) : Lights A :=
  {| red := red l; yellow := yellow l; green := v |}.

(** "Reset all lights", then "Activate current light": a [switch] with the
    cases 0, 1 and 2 and no default. *)
Definition setLights (st : Z) (lights : Lights A) : Lights A :=
  let lights := set_red lights (ofZ 0) in
  let lights := set_yellow lights (ofZ 0) in
  let lights := set_green lights (ofZ 0) in
  match st with
  | 0%Z => set_red lights (ofZ 1)
  | 1%Z => set_yellow lights (ofZ 1)
  | 2%Z => set_green lights (ofZ 1)
  | _ => lights
  end.

(** "Update timer" and "Change light state based on timer". *)
Definition tick (st : Z) (tm : A) : Z * A :=
  let tm := tm + dec 1 100 in
  if tm >? ofZ 5 then (Z.rem (st + 1) 3, ofZ 0) else (st, tm).

(** The body of the [trafficLights.forEach] callback. *)
Definition updateTrafficLight (trafficLight : TrafficLight A)
  : TrafficLight A :=
  let (st, tm) := tick (state trafficLight) (timer trafficLight) in
  {| tl_mesh := tl_mesh trafficLight;
     tl_lights := setLights st (tl_lights trafficLight);
     state := st;
     timer := tm |}.

(** [time] is a parameter of the source function too. *)
Definition updateTrafficLights (trafficLights : list (TrafficLight A))
  (time : A) : list (TrafficLight A) :=
  map updateTrafficLight trafficLights.

(** [n] successive frames of one signal, and the number of phase changes in
    them. *)
Fixpoint frames (n : nat) (tl : TrafficLight A) : TrafficLight A :=
  match n with
  | O => tl
  | S n' => frames n' (updateTrafficLight tl)
  end.

Fixpoint flips (n : nat) (tl : TrafficLight A) : nat :=
  match n with
  | O => O
  | S n' =>
      Nat.add (if timer tl + dec 1 100 >? ofZ 5 then 1%nat else 0%nat)
              (flips n' (updateTrafficLight tl))
  end.

End Signals.

(** ** Day/night cycle controller: [updateDayNightCycle] *)

(** A [THREE.Color]: three channels. *)
Record Color (A : Type) : Type := mkColor { r : A; g : A; b : A }.

Record DirectionalLight (A : Type) : Type := mkDirectionalLight {
  dl_position : Vector3 A;
  dl_intensity : A
}.

(** A lamppost group with the two objects of its [userData]: the point
    light's [intensity] and the bulb material's [emissiveIntensity]. *)
Record Lamppost (A : Type) : Type := mkLamppost {
  lamp_mesh : Object3D A;
  light_intensity : A;
  bulb_emissiveIntensity : A
}.

Inductive StreetElement (A : Type) : Type :=
| SE_lamppost (l : Lamppost A)
| SE_bench (m : Object3D A)
| SE_tree (m : Object3D A).

Definition streetElement_mesh {A} (e : StreetElement A) : Object3D A :=
  match e with
  | SE_lamppost l => lamp_mesh l
  | SE_bench m => m
  | SE_tree m => m
  end.

(** The scene and the registries.  A mesh is held once: the registry entry and
    the scene child are the same object in the source, so a write through
    either is a write to the one field here. *)
Record World (A : Type) : Type := mkWorld {
  background : Color A;
  sunLight : DirectionalLight A;
  ambientLight : A;                       (* ambientLight.intensity *)
  buildings : list (Object3D A);
  cars : list (Car A);
  trafficLights : list (TrafficLight A);
  pedestrians : list (Pedestrian A);
  streetElements : list (StreetElement A)
}.

(** The emissive colours the mesh factories give their materials. *)
Definition headlight_emissive : Z := 0xffffdd.      (* createCar *)
Definition bulb_emissive : Z := 0xffffee.           (* createLamppost *)
Definition red_emissive : Z := 0xff0000.            (* createTrafficLight *)
Definition yellow_emissive : Z := 0xffff00.
Definition green_emissive : Z := 0x00ff00.

Section DayNight.
Context {A : Type} `{Number A}.
Local Open Scope js_scope.

(** Modelled from the spec: three.js's [new THREE.Color(hex)], which is not
    under src/.  A colour has three channels; a hexadecimal colour gives each
    its byte over 255 (no transfer to a working colour space is applied). *)
Definition colorOfHex (hex : Z) : Color A :=
  {| r := ofZ (Z.land (Z.shiftr hex 16) 255) / ofZ 255;
     g := ofZ (Z.land (Z.shiftr hex 8) 255) / ofZ 255;
     b := ofZ (Z.land hex 255) / ofZ 255 |}.

(** Modelled from the spec: three.js's [Color.lerpColors], which is not under
    src/; "interpolation is per-channel linear blend in the color's native
    space". *)
Definition lerpColors (color1 color2 : Color A) (alpha : A) : Color A :=
  {| r := r color1 + (r color2 - r color1) * alpha;
     g := g color1 + (g color2 - g color1) * alpha;
     b := b color1 + (b color2 - b color1) * alpha |}.

Definition skyColors_day : Color A := colorOfHex 0x87ceeb.
Definition skyColors_sunset : Color A := colorOfHex 0xff7f50.
Definition skyColors_night : Color A := colorOfHex 0x000033.

(** "Update sky color based on time of day". *)
Definition skyColor (sunHeight : A) : Color A :=
  if sunHeight >? ofZ 80 then skyColors_day
  else if sunHeight >? ofZ 25 then
    let t := (sunHeight - ofZ 25) / ofZ 55 in
    lerpColors skyColors_sunset skyColors_day t
  else if sunHeight >? ofZ 0 then
    let t := sunHeight / ofZ 25 in
    lerpColors skyColors_night skyColors_sunset t
  else skyColors_night.

(** The value written to a lamppost's light and bulb. *)
Definition lampIntensity (sunHeight : A) : A :=
  if sunHeight <? ofZ 30 then Math_max (ofZ 0) (ofZ 1 - sunHeight / ofZ 30)
  else ofZ 0.

(** First traversal: objects whose [userData.light] is set, which only
    [createLamppost] does. *)
Definition updateStreetLight (sunHeight : A) (e : StreetElement A)
  : StreetElement A :=
  match e with
  | SE_lamppost l =>
      SE_lamppost {| lamp_mesh := lamp_mesh l;
                     light_intensity := lampIntensity sunHeight;
                     bulb_emissiveIntensity := lampIntensity sunHeight |}
  | _ => e
  end.

(** Second traversal, on one mesh of a group: a material whose emissive colour
    equals 0xffffdd gets intensity 1 below height 40 and 0 otherwise. *)
Definition updateHeadlight (sunHeight : A) (emissive : Z) (intensity : A) : A :=
  if (emissive =? 0xffffdd)%Z then
    if sunHeight <? ofZ 40 then ofZ 1 else ofZ 0
  else intensity.

Definition headlightsCar (sunHeight : A) (car : Car A) : Car A :=
  {| car_mesh := car_mesh car;
     headlights := updateHeadlight sunHeight headlight_emissive (headlights car);
     car_speed := car_speed car; car_direction := car_direction car;
     car_road := car_road car; car_roadIndex := car_roadIndex car |}.

Definition headlightsStreetElement (sunHeight : A) (e : StreetElement A)
  : StreetElement A :=
  match e with
  | SE_lamppost l =>
      SE_lamppost {| lamp_mesh := lamp_mesh l;
                     light_intensity := light_intensity l;
                     bulb_emissiveIntensity :=
                       updateHeadlight sunHeight bulb_emissive
                         (bulb_emissiveIntensity l) |}
  | _ => e
  end.

Definition headlightsTrafficLight (sunHeight : A) (t : TrafficLight A)
  : TrafficLight A :=
  {| tl_mesh := tl_mesh t;
     tl_lights :=
       {| red := updateHeadlight sunHeight red_emissive (red (tl_lights t));
          yellow :=
            updateHeadlight sunHeight yellow_emissive (yellow (tl_lights t));
          green :=
            updateHeadlight sunHeight green_emissive (green (tl_lights t)) |};
     state := state t;
     timer := timer t |}.

Context `{Trig A}.

Definition sunAngleOf (dayProgress : A) : A :=
  dayProgress * Math_PI * ofZ 2 - Math_PI / ofZ 2.

Definition sunHeightOf (dayProgress : A) : A :=
  Math_sin (sunAngleOf dayProgress) * ofZ 50 + ofZ 50.

(** [sunLight] and [ambientLight] are the lights of the scene [w]. *)
Definition updateDayNightCycle (dayProgress : A) (w : World A) : World A :=
  let sunAngle := sunAngleOf dayProgress in
  let sunRadius := ofZ 100 in
  let sunHeight := Math_sin sunAngle * ofZ 50 + ofZ 50 in
  let isDaytime := sunHeight >? ofZ 50 in
  let sunIntensity :=
    if isDaytime then ofZ 1 else Math_max (ofZ 0) (sunHeight / ofZ 50) in
  let ambientIntensity := if isDaytime then dec 3 10 else dec 1 10 in
  {| background := skyColor sunHeight;
     sunLight :=
       {| dl_position := {| x := Math_cos sunAngle * sunRadius;
                            y := sunHeight;
                            z := Math_sin sunAngle * sunRadius |};
          dl_intensity := sunIntensity |};
     ambientLight := ambientIntensity;
     buildings := buildings w;
     cars := map (headlightsCar sunHeight) (cars w);
     trafficLights := map (headlightsTrafficLight sunHeight) (trafficLights w);
     pedestrians := pedestrians w;
     streetElements :=
       map (headlightsStreetElement sunHeight)
         (map (updateStreetLight sunHeight) (streetElements w)) |}.

End DayNight.

(** ** Layout planner: [createBuildings], [createRoads], the spawn loops *)

(** The values of [i] in [for (let i = 0; i < n; i++)]. *)
Definition loop (n : Z) : list Z := map Z.of_nat (seq 0 (Z.to_nat n)).

(** The test the passes make on a grid index, [i % 3 === 1]. *)
Definition roadIndex (i : Z) : bool := (Z.rem i 3 =? 1)%Z.

(** The [continue] test of the building pass,
    [i % 3 === 1 || j % 3 === 1]: the cell is left to the roads. *)
Definition isRoad (i j : Z) : bool := roadIndex i || roadIndex j.

(** The role of a cell: the source does not store it, it repeats the test. *)
Inductive Role : Type := road | building_slot.

Definition role (i j gridDivisions : Z) : Role :=
  if isRoad i j then road else building_slot.

(** "Determine building type based on position": one assignment, then two
    conditional reassignments in this order. *)
Definition buildingTypeOf (i j : Z) : string :=
  let buildingType := "skyscraper"%string in
  let buildingType :=
    if (Z.rem (i + j) 5 =? 0)%Z then "apartment"%string else buildingType in
  let buildingType :=
    if (Z.rem (i + j) 7 =? 0)%Z then "shop"%string else buildingType in
  buildingType.

(** One [createBuildingByType (buildingType, x, z)] call of the building pass,
    with the cell it is made for.  (The factory draws the height and the
    colour at random; they are not part of this record.) *)
Record Building (A : Type) : Type := mkBuilding {
  cell_i : Z;
  cell_j : Z;
  buildingType : string;
  building_x : A;
  building_z : A
}.

(** A strip pushed on [roads]: its grid index, its orientation and the
    position of its mesh. *)
Record Road (A : Type) : Type := mkRoad {
  road_i : Z;
  horizontal : bool;
  road_position : Vector3 A
}.

Section Layout.
Context {A : Type} `{Number A}.
Local Open Scope js_scope.

Definition createBuildings (gridSize : A) (gridDivisions : Z)
  : list (Building A) :=
  let blockSize := gridSize / ofZ gridDivisions in
  let centerOffset := gridSize / ofZ 2 in
  flat_map (fun i =>
    flat_map (fun j =>
      if (Z.rem i 3 =? 1)%Z || (Z.rem j 3 =? 1)%Z then []
      else
        let x := ofZ i * blockSize - centerOffset + blockSize / ofZ 2 in
        let z := ofZ j * blockSize - centerOffset + blockSize / ofZ 2 in
        [ {| cell_i := i; cell_j := j; buildingType := buildingTypeOf i j;
             building_x := x; building_z := z |} ])
      (loop gridDivisions))
    (loop gridDivisions).

(** The [roads] array of [createRoads]: at every index that passes
    [if (i % 3 !== 1) continue], the horizontal strip and then the vertical
    strip. *)
Definition createRoads (gridSize : A) (gridDivisions : Z) : list (Road A) :=
  let blockSize := gridSize / ofZ gridDivisions in
  let centerOffset := gridSize / ofZ 2 in
  flat_map (fun i =>
    if negb (Z.rem i 3 =? 1)%Z then []
    else
      [ {| road_i := i; horizontal := true;
           road_position :=
             {| x := ofZ 0; y := dec 1 100;
                z := ofZ i * blockSize - centerOffset + blockSize / ofZ 2 |} |};
        {| road_i := i; horizontal := false;
           road_position :=
             {| x := ofZ i * blockSize - centerOffset + blockSize / ofZ 2;
                y := dec 1 100; z := ofZ 0 |} |} ])
    (loop gridDivisions).

(** The cells at which the same loop creates a traffic light. *)
Definition trafficLightCells (gridDivisions : Z) : list (Z * Z) :=
  flat_map (fun i =>
    if negb (Z.rem i 3 =? 1)%Z then []
    else
      flat_map (fun j => if negb (Z.rem j 3 =? 1)%Z then [] else [(i, j)])
        (loop gridDivisions))
    (loop gridDivisions).

(** [createLamppost]: the point light starts at 0.8 and the bulb at 0.5. *)
Definition createLamppost : Lamppost A :=
  {| lamp_mesh := origin; light_intensity := dec 8 10;
     bulb_emissiveIntensity := dec 1 2 |}.

Definition lamppostAt (px pz : A) : StreetElement A :=
  SE_lamppost
    {| lamp_mesh := position_set (lamp_mesh createLamppost) px (ofZ 0) pz;
       light_intensity := light_intensity createLamppost;
       bulb_emissiveIntensity := bulb_emissiveIntensity createLamppost |}.

(** [createStreetElements]: along every road index, on the cells that are not
    intersections, a lamppost when [j % 4 === 0], a bench when [j % 4 === 2]
    and a tree when [j % 2 === 0]; first along the horizontal road, then
    along the vertical one, where the bench is turned by pi/2. *)
Definition createStreetElements (gridSize : A) (gridDivisions : Z)
  : list (StreetElement A) :=
  let blockSize := gridSize / ofZ gridDivisions in
  let centerOffset := gridSize / ofZ 2 in
  flat_map (fun i =>
    if negb (Z.rem i 3 =? 1)%Z then []
    else
      let across := ofZ i * blockSize - centerOffset + blockSize / ofZ 2 in
      flat_map (fun j =>
        if (Z.rem j 3 =? 1)%Z then []
        else
          let along := ofZ j * blockSize - centerOffset + blockSize / ofZ 2 in
          (if (Z.rem j 4 =? 0)%Z
           then [lamppostAt along (across + ofZ 5)] else [])
          ++ (if (Z.rem j 4 =? 2)%Z
              then [SE_bench (position_set origin along (ofZ 0)
                                (across + ofZ 4))] else [])
          ++ (if (Z.rem j 2 =? 0)%Z
              then [SE_tree (position_set origin along (ofZ 0)
                               (across + ofZ 6))] else []))
        (loop gridDivisions)
      ++ flat_map (fun j =>
        if (Z.rem j 3 =? 1)%Z then []
        else
          let along := ofZ j * blockSize - centerOffset + blockSize / ofZ 2 in
          (if (Z.rem j 4 =? 0)%Z
           then [lamppostAt (across + ofZ 5) along] else [])
          ++ (if (Z.rem j 4 =? 2)%Z
              then [SE_bench (set_rotation_y
                                (position_set origin (across + ofZ 4) (ofZ 0)
                                   along)
                                (Math_PI / ofZ 2))] else [])
          ++ (if (Z.rem j 2 =? 0)%Z
              then [SE_tree (position_set origin (across + ofZ 6) (ofZ 0)
                               along)] else []))
        (loop gridDivisions))
    (loop gridDivisions).

(** The registry entries the spawn loops push, as functions of the values
    [Math.random] returned for them (the colours the mesh factories draw are
    not modelled).  [c] is the counter of the car loop. *)
Definition spawnCarHorizontal (gridSize : A) (gridDivisions i c : Z)
  (rndPosition rndSpeed : A) : Car A :=
  let blockSize := gridSize / ofZ gridDivisions in
  let centerOffset := gridSize / ofZ 2 in
  let lane := if (Z.rem c 2 =? 0)%Z then (-2)%Z else 2%Z in
  {| car_mesh :=
       {| position := {| x := rndPosition * gridSize - centerOffset;
                         y := dec 6 10;
                         z := ofZ i * blockSize - centerOffset + ofZ lane |};
          rotation_y := if (lane >? 0)%Z then Math_PI else ofZ 0 |};
     headlights := dec 1 2;
     car_speed := rndSpeed * dec 2 10 + dec 1 10;
     car_direction := if (lane >? 0)%Z then ofZ (-1) else ofZ 1;
     car_road := "horizontal";
     car_roadIndex := i |}.

Definition spawnCarVertical (gridSize : A) (gridDivisions i c : Z)
  (rndPosition rndSpeed : A) : Car A :=
  let blockSize := gridSize / ofZ gridDivisions in
  let centerOffset := gridSize / ofZ 2 in
  let lane := if (Z.rem c 2 =? 0)%Z then (-2)%Z else 2%Z in
  {| car_mesh :=
       {| position := {| x := ofZ i * blockSize - centerOffset + ofZ lane;
                         y := dec 6 10;
                         z := rndPosition * gridSize - centerOffset |};
          rotation_y := if (lane >? 0)%Z then - Math_PI / ofZ 2
                        else Math_PI / ofZ 2 |};
     headlights := dec 1 2;
     car_speed := rndSpeed * dec 2 10 + dec 1 10;
     car_direction := if (lane >? 0)%Z then ofZ (-1) else ofZ 1;
     car_road := "vertical";
     car_roadIndex := i |}.

Definition spawnPedestrianHorizontal (gridSize : A) (gridDivisions i : Z)
  (rndSide rndPosition rndSpeed rndDirection : A) : Pedestrian A :=
  let blockSize := gridSize / ofZ gridDivisions in
  let centerOffset := gridSize / ofZ 2 in
  let side := if rndSide >? dec 1 2 then ofZ 1 else ofZ (-1) in
  let sidewalkOffset := (blockSize / ofZ 2 + ofZ 1) * side in
  {| ped_mesh :=
       {| position := {| x := rndPosition * gridSize - centerOffset;
                         y := ofZ 0;
                         z := ofZ i * blockSize - centerOffset
                              + sidewalkOffset |};
          rotation_y := ofZ 0 |};
     ped_speed := rndSpeed * dec 5 100 + dec 2 100;
     ped_direction := if rndDirection >? dec 1 2 then ofZ 1 else ofZ (-1);
     ped_road := "horizontal";
     ped_side := side;
     ped_roadIndex := i |}.

Definition spawnPedestrianVertical (gridSize : A) (gridDivisions i : Z)
  (rndSide rndPosition rndSpeed rndDirection : A) : Pedestrian A :=
  let blockSize := gridSize / ofZ gridDivisions in
  let centerOffset := gridSize / ofZ 2 in
  let side := if rndSide >? dec 1 2 then ofZ 1 else ofZ (-1) in
  let sidewalkOffset := (blockSize / ofZ 2 + ofZ 1) * side in
  {| ped_mesh :=
       {| position := {| x := ofZ i * blockSize - centerOffset
                              + sidewalkOffset;
                         y := ofZ 0;
                         z := rndPosition * gridSize - centerOffset |};
          rotation_y := ofZ 0 |};
     ped_speed := rndSpeed * dec 5 100 + dec 2 100;
     ped_direction := if rndDirection >? dec 1 2 then ofZ 1 else ofZ (-1);
     ped_road := "vertical";
     ped_side := side;
     ped_roadIndex := i |}.

(** The lights of [createTrafficLight] start dark. *)
Definition spawnTrafficLight (gridSize : A) (gridDivisions i j : Z)
  (rndState rndTimer : A) : TrafficLight A :=
  let blockSize := gridSize / ofZ gridDivisions in
  let centerOffset := gridSize / ofZ 2 in
  {| tl_mesh :=
       {| position :=
            {| x := ofZ i * blockSize - centerOffset + blockSize / ofZ 2
                    + ofZ 3;
               y := ofZ 0;
               z := ofZ j * blockSize - centerOffset + blockSize / ofZ 2
                    + ofZ 3 |};
          rotation_y := ofZ 0 |};
     tl_lights := {| red := ofZ 0; yellow := ofZ 0; green := ofZ 0 |};
     state := Math_floor (rndState * ofZ 3);
     timer := rndTimer * ofZ 10 |}.

End Layout.

(** ** Statements read off the specification, and sample data *)

(** The wrap rule of the motion updater, on the moving coordinate before and
    after one update. *)
Definition WrapRule (gridSize speed direction before after : R) : Prop :=
  let moved := (before + speed * direction)%R in
  (direction > 0 -> moved > gridSize / 2 -> after = - (gridSize / 2))%R /\
  (direction < 0 -> moved < - (gridSize / 2) -> after = gridSize / 2)%R /\
  (~ (direction > 0 /\ moved > gridSize / 2) ->
   ~ (direction < 0 /\ moved < - (gridSize / 2)) -> after = moved)%R.

Definition inBounds (gridSize c : R) : Prop :=
  (- (gridSize / 2) <= c <= gridSize / 2)%R.

(** What one motion update does to an actor in bounds: the wrap rule, the
    bounds again, and the boundary case of the specification (direction 1,
    speed 0.2, 0.1 short of the positive edge). *)
Definition MotionStep (gridSize speed direction before after : R) : Prop :=
  WrapRule gridSize speed direction before after /\
  inBounds gridSize after /\
  (direction = 1 -> speed = 2 / 10 -> before = gridSize / 2 - 1 / 10 ->
   after = - (gridSize / 2))%R.

(** The actors the motion statements are about: a non-negative speed and a
    moving coordinate within the bounds. *)
Definition CarInBounds (gridSize : R) (car : Car R) : Prop :=
  (0 <= car_speed car)%R /\
  inBounds gridSize (movingCoord (car_road car) (car_mesh car)).

Definition PedestrianInBounds (gridSize : R) (p : Pedestrian R) : Prop :=
  (0 <= ped_speed p)%R /\
  inBounds gridSize (movingCoord (ped_road p) (ped_mesh p)).

(** Exactly one light of a signal is lit, and it is the light of its phase. *)
Definition LitMatchesPhase (tl : TrafficLight R) : Prop :=
  (state tl = 0%Z /\ red (tl_lights tl) <> 0%R /\
   yellow (tl_lights tl) = 0%R /\ green (tl_lights tl) = 0%R) \/
  (state tl = 1%Z /\ red (tl_lights tl) = 0%R /\
   yellow (tl_lights tl) <> 0%R /\ green (tl_lights tl) = 0%R) \/
  (state tl = 2%Z /\ red (tl_lights tl) = 0%R /\
   yellow (tl_lights tl) = 0%R /\ green (tl_lights tl) <> 0%R).

(** The largest channel-wise distance between two colours. *)
Definition colorDist (c1 c2 : Color R) : R :=
  Rmax (Rabs (r c1 - r c2)) (Rmax (Rabs (g c1 - g c2)) (Rabs (b c1 - b c2))).

(** Every position the scene holds: the meshes of the registries, and with
    them the sun light's. *)
Definition actorPositions {A} (w : World A) : list (Vector3 A) :=
  map (@position A) (buildings w)
  ++ map (fun c => position (car_mesh c)) (cars w)
  ++ map (fun p => position (ped_mesh p)) (pedestrians w)
  ++ map (fun e => position (streetElement_mesh e)) (streetElements w)
  ++ map (fun t => position (tl_mesh t)) (trafficLights w).

Definition allPositions {A} (w : World A) : list (Vector3 A) :=
  dl_position (sunLight w) :: actorPositions w.

Section Samples.
Context {A : Type} `{Number A}.
Local Open Scope js_scope.

(** A car on a horizontal road of a world of size 100, 0.1 short of the
    positive edge, driving at 0.2 in the positive direction. *)
Definition edgeCar : Car A :=
  {| car_mesh := set_position_x origin (ofZ 100 / ofZ 2 - dec 1 10);
     headlights := dec 1 2;
     car_speed := dec 2 10; car_direction := ofZ 1;
     car_road := "horizontal"; car_roadIndex := 1 |}.

Definition edgePedestrian : Pedestrian A :=
  {| ped_mesh := set_position_z origin (ofZ 100 / ofZ 2 - dec 1 10);
     ped_speed := dec 2 10; ped_direction := ofZ 1;
     ped_road := "vertical"; ped_side := ofZ 1; ped_roadIndex := 4 |}.

(** A signal with dark lights, in a given phase and with a given timer. *)
Definition signal (st : Z) (tm : A) : TrafficLight A :=
  {| tl_mesh := origin;
     tl_lights := {| red := ofZ 0; yellow := ofZ 0; green := ofZ 0 |};
     state := st; timer := tm |}.

(** The lights and the background as [initCity] sets them up, the street
    furniture of its 10 by 10 grid, and a few actors in the other
    registries. *)
Definition world0 : World A :=
  {| background := colorOfHex 0x87ceeb;
     sunLight := {| dl_position := {| x := ofZ 50; y := ofZ 100; z := ofZ 30 |};
                    dl_intensity := ofZ 1 |};
     ambientLight := dec 3 10;
     buildings := [origin];
     cars := [edgeCar];
     trafficLights := [signal 0 (ofZ 0)];
     pedestrians := [edgePedestrian];
     streetElements := createStreetElements (ofZ 100) 10 |}.

End Samples.

(** ** The mesh factories, the registries and the frame of [initCity] *)

(** A window plane that [addWindows] adds to a building: its position
    relative to the building, its rotation about the vertical axis, the side
    of its square and its colour. *)
Record Window (A : Type) : Type := mkWindow {
  win_position : Vector3 A;
  win_rotation_y : A;
  win_size : A;
  win_color : Z
}.

(** A building as [createBuildingByType] returns it.  [bm_box] holds the
    width, height and depth of its [BoxGeometry]; the fallback of the
    [default] case is an empty group: it has no box and no material
    ([bm_color] is 0 then). *)
Record BuildingMesh (A : Type) : Type := mkBuildingMesh {
  bm_position : Vector3 A;
  bm_box : option (A * A * A);
  bm_color : Z;
  bm_windows : list (Window A)
}.

(** The arrays [createRoads] fills, with the number of [Math.random] calls
    made so far. *)
Record Registries (A : Type) : Type := mkRegistries {
  calls : nat;
  reg_cars : list (Car A);
  reg_lights : list (TrafficLight A)
}.

(** The remainder operator [%] on numbers. *)
Class Remainder (A : Type) : Type := { num_rem : A -> A -> A }.

(** The quotient truncated towards 0. *)
Definition Rtrunc (v : R) : Z :=
  if Rle_dec 0 v then Int_part v else (- Int_part (- v))%Z.

#[export] Instance Remainder_R : Remainder R := {|
  num_rem := fun a c => (a - c * IZR (Rtrunc (a / c)))%R
|}.

Section Factories.
Context {A : Type} `{Number A}.
Local Open Scope js_scope.

(** In this section [random k] is the value the [k]-th call of [Math.random]
    returns (counting from 0), and a function that calls it takes the number
    of calls made before it and returns the number made after it. *)
Variable random : nat -> A.

(** The body colour [createCar] draws: one call, and a second one when the
    first value is not above 0.5. *)
Definition createCar (n : nat) : Z * nat :=
  if random n >? dec 1 2 then (0xff4444%Z, S n)
  else if random (S n) >? dec 1 2 then (0x4444ff%Z, S (S n))
  else (0x44ff44%Z, S (S n)).

(** The body colour [createPedestrian] draws. *)
Definition createPedestrian (n : nat) : Z * nat :=
  if random n >? dec 1 2 then (0x2244ff%Z, S n)
  else if random (S n) >? dec 1 2 then (0xff4422%Z, S (S n))
  else (0x22ff44%Z, S (S n)).

(** The [switch] of [addWindows]: the size, the spacing and the colour of
    the windows of a building type; none for any other type. *)
Definition windowParams (type : string) : option (A * A * Z) :=
  if String.eqb type "skyscraper" then Some (dec 8 10, ofZ 3, 0xffffcc%Z)
  else if String.eqb type "apartment" then Some (dec 12 10, dec 25 10, 0xffffaa%Z)
  else if String.eqb type "shop" then Some (ofZ 2, ofZ 3, 0xffff88%Z)
  else None.

(** The loops of [addWindows]: on each of the four sides, one window for
    every floor and every column. *)
Definition placeWindows (width height depth windowSize windowSpacing : A)
  (windowColor : Z) : list (Window A) :=
  let windowsPerFloor := Math_floor (width / windowSpacing) in
  let floors := Math_floor (height / windowSpacing) in
  let sides :=
    [ (true, width / ofZ 2, Math_PI / ofZ 2);
      (true, - width / ofZ 2, - Math_PI / ofZ 2);
      (false, depth / ofZ 2, ofZ 0);
      (false, - depth / ofZ 2, Math_PI) ] in
  flat_map (fun side : bool * A * A =>
    flat_map (fun floor =>
      map (fun w =>
        let xOffset :=
          (ofZ w - ofZ windowsPerFloor / ofZ 2 + dec 5 10) * windowSpacing in
        let yOffset :=
          (ofZ floor - ofZ floors / ofZ 2 + dec 5 10) * windowSpacing
          + height / ofZ 2 in
        {| win_position :=
             if fst (fst side)
             then {| x := snd (fst side) + dec 1 100; y := yOffset;
                     z := xOffset |}
             else {| x := xOffset; y := yOffset;
                     z := snd (fst side) + dec 1 100 |};
           win_rotation_y := snd side;
           win_size := windowSize;
           win_color := windowColor |})
        (loop windowsPerFloor))
      (loop floors))
    sides.

(** [addWindows]: nothing for an object that is not a mesh or a type that is
    none of the three. *)
Definition addWindows (box : option (A * A * A)) (type : string)
  : list (Window A) :=
  match box with
  | None => []
  | Some (width, height, depth) =>
      match windowParams type with
      | None => []
      | Some (windowSize, windowSpacing, windowColor) =>
          placeWindows width height depth windowSize windowSpacing windowColor
      end
  end.

(** [createBuildingByType]: the height is drawn first, and for a skyscraper
    the colour after it. *)
Definition createBuildingByType (type : string) (px pz : A) (n : nat)
  : BuildingMesh A * nat :=
  if String.eqb type "skyscraper" then
    let height := random n * ofZ 30 + ofZ 20 in
    let color := if random (S n) >? dec 1 2 then 0x4476ff%Z else 0x44aaff%Z in
    let box := Some (ofZ 8, height, ofZ 8) in
    ({| bm_position := {| x := px; y := height / ofZ 2; z := pz |};
        bm_box := box; bm_color := color;
        bm_windows := addWindows box type |}, S (S n))
  else if String.eqb type "apartment" then
    let height := random n * ofZ 10 + ofZ 10 in
    let box := Some (ofZ 10, height, ofZ 10) in
    ({| bm_position := {| x := px; y := height / ofZ 2; z := pz |};
        bm_box := box; bm_color := 0xbbbbbb%Z;
        bm_windows := addWindows box type |}, S n)
  else if String.eqb type "shop" then
    let height := random n * ofZ 3 + ofZ 3 in
    let box := Some (ofZ 8, height, ofZ 8) in
    ({| bm_position := {| x := px; y := height / ofZ 2; z := pz |};
        bm_box := box; bm_color := 0xffaa44%Z;
        bm_windows := addWindows box type |}, S n)
  else
    ({| bm_position := {| x := ofZ 0; y := ofZ 0; z := ofZ 0 |};
        bm_box := None; bm_color := 0%Z;
        bm_windows := addWindows None type |}, n).

(** The [buildings] array of [createBuildings]: the mesh of every requested
    building, in the order of the requests. *)
Definition createBuildingMeshes (gridSize : A) (gridDivisions : Z) (n : nat)
  : list (BuildingMesh A) * nat :=
  fold_left (fun (s : list (BuildingMesh A) * nat) (bd : Building A) =>
               let (m, n') :=
                 createBuildingByType (buildingType bd) (building_x bd)
                   (building_z bd) (snd s) in
               (fst s ++ [m], n'))
    (createBuildings gridSize gridDivisions) ([], n).

(** The three inner loops of [createRoads], one step each. *)
Definition pushCarHorizontal (gridSize : A) (gridDivisions i : Z)
  (s : Registries A) (c : Z) : Registries A :=
  let (_, n) := createCar (calls s) in
  {| calls := S (S n);
     reg_cars := reg_cars s
                 ++ [spawnCarHorizontal gridSize gridDivisions i c
                       (random n) (random (S n))];
     reg_lights := reg_lights s |}.

Definition pushCarVertical (gridSize : A) (gridDivisions i : Z)
  (s : Registries A) (c : Z) : Registries A :=
  let (_, n) := createCar (calls s) in
  {| calls := S (S n);
     reg_cars := reg_cars s
                 ++ [spawnCarVertical gridSize gridDivisions i c
                       (random n) (random (S n))];
     reg_lights := reg_lights s |}.

Definition pushTrafficLight (gridSize : A) (gridDivisions i : Z)
  (s : Registries A) (j : Z) : Registries A :=
  if negb (Z.rem j 3 =? 1)%Z then s
  else
    {| calls := S (S (calls s));
       reg_cars := reg_cars s;
       reg_lights := reg_lights s
                     ++ [spawnTrafficLight gridSize gridDivisions i j
                           (random (calls s)) (random (S (calls s)))] |}.

(** The [cars] and [trafficLights] arrays of [createRoads]. *)
Definition createRoadRegistries (gridSize : A) (gridDivisions : Z) (n : nat)
  : Registries A :=
  fold_left (fun s i =>
               if negb (Z.rem i 3 =? 1)%Z then s
               else
                 let s := fold_left
                            (pushCarHorizontal gridSize gridDivisions i)
                            (loop 3) s in
                 let s := fold_left
                            (pushCarVertical gridSize gridDivisions i)
                            (loop 3) s in
                 fold_left (pushTrafficLight gridSize gridDivisions i)
                   (loop gridDivisions) s)
    (loop gridDivisions)
    {| calls := n; reg_cars := []; reg_lights := [] |}.

Definition pushPedestrianHorizontal (gridSize : A) (gridDivisions i : Z)
  (s : list (Pedestrian A) * nat) (p : Z) : list (Pedestrian A) * nat :=
  let (_, n) := createPedestrian (snd s) in
  (fst s ++ [spawnPedestrianHorizontal gridSize gridDivisions i
               (random n) (random (S n)) (random (S (S n)))
               (random (S (S (S n))))],
   S (S (S (S n)))).

Definition pushPedestrianVertical (gridSize : A) (gridDivisions i : Z)
  (s : list (Pedestrian A) * nat) (p : Z) : list (Pedestrian A) * nat :=
  let (_, n) := createPedestrian (snd s) in
  (fst s ++ [spawnPedestrianVertical gridSize gridDivisions i
               (random n) (random (S n)) (random (S (S n)))
               (random (S (S (S n))))],
   S (S (S (S n)))).

(** [createPedestrians]: six along the horizontal road and six along the
    vertical road of every road index. *)
Definition createPedestrians (gridSize : A) (gridDivisions : Z) (n : nat)
  : list (Pedestrian A) * nat :=
  fold_left (fun s i =>
               if negb (Z.rem i 3 =? 1)%Z then s
               else
                 let s := fold_left
                            (pushPedestrianHorizontal gridSize gridDivisions i)
                            (loop 6) s in
                 fold_left (pushPedestrianVertical gridSize gridDivisions i)
                   (loop 6) s)
    (loop gridDivisions) ([], n).

(** The scene [initCity] builds before the first frame, for a grid of any
    size; the factories run in the order buildings, roads, pedestrians,
    street elements. *)
Definition cityWorld (gridSize : A) (gridDivisions : Z) : World A :=
  let (meshes, n1) := createBuildingMeshes gridSize gridDivisions 0 in
  let regs := createRoadRegistries gridSize gridDivisions n1 in
  let (peds, n2) := createPedestrians gridSize gridDivisions (calls regs) in
  {| background := colorOfHex 0x87ceeb;
     sunLight := {| dl_position := {| x := ofZ 50; y := ofZ 100; z := ofZ 30 |};
                    dl_intensity := ofZ 1 |};
     ambientLight := dec 3 10;
     buildings := map (fun m => {| position := bm_position m;
                                   rotation_y := ofZ 0 |}) meshes;
     cars := reg_cars regs;
     trafficLights := reg_lights regs;
     pedestrians := peds;
     streetElements := createStreetElements gridSize gridDivisions |}.

End Factories.

Section Frame.
Context {A : Type} `{Number A} `{Trig A} `{Remainder A}.
Local Open Scope js_scope.

(** The three registry updates of a frame, in the order of [animate]. *)
Definition moveActors (gridSize time : A) (w : World A) : World A :=
  {| background := background w;
     sunLight := sunLight w;
     ambientLight := ambientLight w;
     buildings := buildings w;
     cars := updateCars (cars w) gridSize;
     trafficLights := updateTrafficLights (trafficLights w) time;
     pedestrians := updatePedestrians (pedestrians w) gridSize;
     streetElements := streetElements w |}.

(** One call of [animate] on the clock and the scene ([gridSize] and
    [dayDuration] are the constants of [initCity], 100 and 120). *)
Definition animate (gridSize dayDuration : A) (s : A * World A)
  : A * World A :=
  let time := fst s + dec 1 100 in
  let dayProgress := num_rem time dayDuration / dayDuration in
  let w := updateDayNightCycle dayProgress (snd s) in
  (time, moveActors gridSize time w).

End Frame.

(** The elements [createStreetElements] places at cell [j] of the horizontal
    and of the vertical road of index [i]. *)
Definition furnitureHorizontal {A} `{Number A} (gridSize : A)
  (gridDivisions i j : Z) : list (StreetElement A) :=
  (let blockSize := gridSize / ofZ gridDivisions in
   let centerOffset := gridSize / ofZ 2 in
   let across := ofZ i * blockSize - centerOffset + blockSize / ofZ 2 in
   let along := ofZ j * blockSize - centerOffset + blockSize / ofZ 2 in
   (if (Z.rem j 4 =? 0)%Z then [lamppostAt along (across + ofZ 5)] else [])
   ++ (if (Z.rem j 4 =? 2)%Z
       then [SE_bench (position_set origin along (ofZ 0) (across + ofZ 4))]
       else [])
   ++ (if (Z.rem j 2 =? 0)%Z
       then [SE_tree (position_set origin along (ofZ 0) (across + ofZ 6))]
       else []))%js.

Definition furnitureVertical {A} `{Number A} (gridSize : A)
  (gridDivisions i j : Z) : list (StreetElement A) :=
  (let blockSize := gridSize / ofZ gridDivisions in
   let centerOffset := gridSize / ofZ 2 in
   let across := ofZ i * blockSize - centerOffset + blockSize / ofZ 2 in
   let along := ofZ j * blockSize - centerOffset + blockSize / ofZ 2 in
   (if (Z.rem j 4 =? 0)%Z then [lamppostAt (across + ofZ 5) along] else [])
   ++ (if (Z.rem j 4 =? 2)%Z
       then [SE_bench (set_rotation_y
                         (position_set origin (across + ofZ 4) (ofZ 0) along)
                         (Math_PI / ofZ 2))]
       else [])
   ++ (if (Z.rem j 2 =? 0)%Z
       then [SE_tree (position_set origin (across + ofZ 6) (ofZ 0) along)]
       else []))%js.

(** The window of the first side, the lowest floor and the first column that
    the loops of [addWindows] place. *)
Definition firstWindow (width height size spacing : R) (color : Z)
  : Window R :=
  {| win_position :=
       {| x := (width / 2 + 1 / 100)%R;
          y := ((0 - IZR (Int_part (height / spacing)) / 2 + 5 / 10) * spacing
                + height / 2)%R;
          z := ((0 - IZR (Int_part (width / spacing)) / 2 + 5 / 10)
                * spacing)%R |};
     win_rotation_y := (PI / 2)%R;
     win_size := size;
     win_color := color |}.

(** The coordinate of an object across a road of the given orientation, and
    the one of the centre line of a strip of [createRoads]. *)
Definition lateralCoord {A} (road : string) (o : Object3D A) : A :=
  if String.eqb road "horizontal" then z (position o) else x (position o).

Definition roadCentre {A} (r : Road A) : A :=
  if horizontal r then z (road_position r) else x (road_position r).

(** The coordinates of a point along and across a strip. *)
Definition alongRoad {A} (r : Road A) (v : Vector3 A) : A :=
  if horizontal r then x v else z v.

Definition acrossRoad {A} (r : Road A) (v : Vector3 A) : A :=
  if horizontal r then z v else x v.

(** A tree of the street furniture standing [d] further from the road than
    the point [v], at the same place along the road. *)
Definition TreeBehind (gridSize : R) (gridDivisions : Z) (r : Road R)
  (v : Vector3 R) (d : R) : Prop :=
  exists t : Object3D R,
    In (SE_tree t) (createStreetElements gridSize gridDivisions) /\
    alongRoad r (position t) = alongRoad r v /\
    acrossRoad r (position t) = (acrossRoad r v + d)%R.

(** The strip an actor's [road] and [roadIndex] fields name. *)
Definition IsRoadOf (gridSize : R) (gridDivisions : Z) (road : string)
  (index : Z) (r : Road R) : Prop :=
  In r (createRoads gridSize gridDivisions) /\
  road_i r = index /\
  horizontal r = String.eqb road "horizontal".

(** [CarOffset car d]: the car is at the signed distance [d] across the road
    from the centre line of its road's strip; likewise for a pedestrian. *)
Definition CarOffset (gridSize : R) (gridDivisions : Z) (car : Car R) (d : R)
  : Prop :=
  exists r : Road R,
    IsRoadOf gridSize gridDivisions (car_road car) (car_roadIndex car) r /\
    (lateralCoord (car_road car) (car_mesh car) - roadCentre r = d)%R.

Definition PedestrianOffset (gridSize : R) (gridDivisions : Z)
  (p : Pedestrian R) (d : R) : Prop :=
  exists r : Road R,
    IsRoadOf gridSize gridDivisions (ped_road p) (ped_roadIndex p) r /\
    (lateralCoord (ped_road p) (ped_mesh p) - roadCentre r = d)%R.

(** Where the lanes and the sidewalks are, measured from the centre line of
    the strip, whose width is [blockSize]. *)
Definition CarLane (gridSize : R) (gridDivisions : Z) (car : Car R) : Prop :=
  let blockSize := (gridSize / IZR gridDivisions)%R in
  (car_direction car = 1%R /\
   CarOffset gridSize gridDivisions car (- 2 - blockSize / 2)%R) \/
  (car_direction car = (-1)%R /\
   CarOffset gridSize gridDivisions car (2 - blockSize / 2)%R).

Definition PedestrianSidewalk (gridSize : R) (gridDivisions : Z)
  (p : Pedestrian R) : Prop :=
  let blockSize := (gridSize / IZR gridDivisions)%R in
  (ped_side p = 1%R /\ PedestrianOffset gridSize gridDivisions p 1%R) \/
  (ped_side p = (-1)%R /\
   PedestrianOffset gridSize gridDivisions p (- blockSize - 1)%R).

(** A signal standing on the ground 3 units from the centre lines of a
    horizontal and of a vertical strip, on their positive sides. *)
Definition SignalAtCrossing (gridSize : R) (gridDivisions : Z)
  (tl : TrafficLight R) : Prop :=
  exists rh rv : Road R,
    In rh (createRoads gridSize gridDivisions) /\
    In rv (createRoads gridSize gridDivisions) /\
    horizontal rh = true /\ horizontal rv = false /\
    y (position (tl_mesh tl)) = 0%R /\
    (acrossRoad rh (position (tl_mesh tl)) - roadCentre rh = 3)%R /\
    (acrossRoad rv (position (tl_mesh tl)) - roadCentre rv = 3)%R.

(** What the statements about a whole scene ask of it: the moving actors
    within the bounds and the signals in one of the three phases. *)
Definition WorldInBounds (gridSize : R) (w : World R) : Prop :=
  Forall (CarInBounds gridSize) (cars w) /\
  Forall (PedestrianInBounds gridSize) (pedestrians w) /\
  Forall (fun tl => (0 <= state tl < 3)%Z) (trafficLights w).

(** A car and a pedestrian as the spawn loops make them: within the bounds,
    with a direction of 1 or -1 and a speed in the range drawn. *)
Definition CarAsSpawned (gridSize : R) (car : Car R) : Prop :=
  CarInBounds gridSize car /\
  (car_direction car = 1 \/ car_direction car = -1)%R /\
  (1 / 10 <= car_speed car < 3 / 10)%R.

Definition PedestrianAsSpawned (gridSize : R) (p : Pedestrian R) : Prop :=
  PedestrianInBounds gridSize p /\
  (ped_direction p = 1 \/ ped_direction p = -1)%R /\
  (2 / 100 <= ped_speed p < 7 / 100)%R.

(** A traffic light as [createRoads] makes it: one of the three phases, and
    a timer drawn from [0, 10). *)
Definition LightAsSpawned (tl : TrafficLight R) : Prop :=
  (0 <= state tl < 3)%Z /\ (0 <= timer tl < 10)%R.

Definition RegistriesAsSpawned (gridSize : R) (s : Registries R) : Prop :=
  Forall (CarAsSpawned gridSize) (reg_cars s) /\
  Forall LightAsSpawned (reg_lights s).


(** * Theorems *)

Local Open Scope R_scope.

(** ** Real comparisons *)

Lemma Rgtb_true (a c : R) : Rgtb a c = true <-> a > c.
Proof. unfold Rgtb. destruct (Rgt_dec a c); split; intros; try easy; lra. Qed.

Lemma Rgtb_false (a c : R) : Rgtb a c = false <-> a <= c.
Proof. unfold Rgtb. destruct (Rgt_dec a c); split; intros; try easy; lra. Qed.

Lemma Rltb_true (a c : R) : Rltb a c = true <-> a < c.
Proof. unfold Rltb. destruct (Rlt_dec a c); split; intros; try easy; lra. Qed.

Lemma Rltb_false (a c : R) : Rltb a c = false <-> c <= a.
Proof. unfold Rltb. destruct (Rlt_dec a c); split; intros; try easy; lra. Qed.

(** Unfold the number operations at [R] and decide every comparison. *)
Ltac js_unfold :=
  unfold dec in *;
  cbn [ofZ num_add num_sub num_mul num_div num_neg num_gt num_lt Math_max
       Math_PI Math_sin Math_cos Number_R Trig_R] in *.

Ltac js_cases :=
  repeat match goal with
  | |- context [Rgtb ?a ?c] =>
      let E := fresh "E" in
      destruct (Rgtb a c) eqn:E;
      [apply Rgtb_true in E | apply Rgtb_false in E]
  | |- context [Rltb ?a ?c] =>
      let E := fresh "E" in
      destruct (Rltb a c) eqn:E;
      [apply Rltb_true in E | apply Rltb_false in E]
  end.

(** ** Motion updater *)

(** The wrap as a function of the moving coordinate, as [updateCar] and
    [updatePedestrian] both compute it. *)
Lemma wrap_rule_bounds (gridSize speed direction c c' : R) :
  c' = (if Rgtb direction 0 && Rgtb (c + speed * direction) (gridSize / 2)
        then - (gridSize / 2)
        else if Rltb direction 0
                && Rltb (c + speed * direction) (- (gridSize / 2))
        then gridSize / 2 else c + speed * direction) ->
  WrapRule gridSize speed direction c c' /\
  (0 <= speed -> inBounds gridSize c -> inBounds gridSize c').
Proof.
  intros ->. unfold WrapRule, inBounds. js_cases; cbn [andb].
  all: repeat split; intros; try lra; try nra.
  all: try (exfalso; tauto).
Qed.

Lemma updateCar_moving (gridSize : R) (car : Car R) :
  let c := movingCoord (car_road car) (car_mesh car) in
  let moved := c + car_speed car * car_direction car in
  movingCoord (car_road (updateCar gridSize car))
    (car_mesh (updateCar gridSize car))
  = (if Rgtb (car_direction car) 0 && Rgtb moved (gridSize / 2)
     then - (gridSize / 2)
     else if Rltb (car_direction car) 0 && Rltb moved (- (gridSize / 2))
     then gridSize / 2 else moved).
Proof.
  unfold updateCar, movingCoord. js_unfold.
  destruct (String.eqb (car_road car) "horizontal") eqn:Hr; cbn zeta;
    repeat match goal with |- context [if (?a && ?c)%bool then _ else _] =>
      destruct (a && c)%bool
    end;
    cbn [car_road car_mesh set_car_mesh set_position_x set_position_z
         position x z]; rewrite Hr; reflexivity.
Qed.

Lemma updatePedestrian_moving (gridSize : R) (p : Pedestrian R) :
  let c := movingCoord (ped_road p) (ped_mesh p) in
  let moved := c + ped_speed p * ped_direction p in
  movingCoord (ped_road (updatePedestrian gridSize p))
    (ped_mesh (updatePedestrian gridSize p))
  = (if Rgtb (ped_direction p) 0 && Rgtb moved (gridSize / 2)
     then - (gridSize / 2)
     else if Rltb (ped_direction p) 0 && Rltb moved (- (gridSize / 2))
     then gridSize / 2 else moved).
Proof.
  unfold updatePedestrian, movingCoord. js_unfold.
  destruct (String.eqb (ped_road p) "horizontal") eqn:Hr; cbn zeta;
    repeat match goal with |- context [if (?a && ?c)%bool then _ else _] =>
      destruct (a && c)%bool
    end;
    cbn [ped_road ped_mesh set_ped_mesh set_position_x set_position_z
         set_rotation_y position x z]; rewrite Hr; reflexivity.
Qed.

Lemma updateCar_frame (gridSize : R) (car : Car R) :
  car_road (updateCar gridSize car) = car_road car /\
  car_speed (updateCar gridSize car) = car_speed car /\
  car_direction (updateCar gridSize car) = car_direction car.
Proof.
  unfold updateCar.
  repeat match goal with |- context [if ?c then _ else _] => destruct c end;
    repeat split; reflexivity.
Qed.

Lemma updatePedestrian_frame (gridSize : R) (p : Pedestrian R) :
  ped_road (updatePedestrian gridSize p) = ped_road p /\
  ped_speed (updatePedestrian gridSize p) = ped_speed p /\
  ped_direction (updatePedestrian gridSize p) = ped_direction p.
Proof.
  unfold updatePedestrian. cbn zeta.
  destruct (String.eqb (ped_road p) "horizontal");
    repeat match goal with |- context [if (?a && ?c)%bool then _ else _] =>
      destruct (a && c)%bool
    end; repeat split; reflexivity.
Qed.

Lemma motion_step (gridSize speed direction c c' : R) :
  c' = (if Rgtb direction 0 && Rgtb (c + speed * direction) (gridSize / 2)
        then - (gridSize / 2)
        else if Rltb direction 0
                && Rltb (c + speed * direction) (- (gridSize / 2))
        then gridSize / 2 else c + speed * direction) ->
  0 <= speed -> inBounds gridSize c ->
  MotionStep gridSize speed direction c c'.
Proof.
  intros Hc Hs Hb. destruct (@wrap_rule_bounds _ _ _ _ _ Hc) as [Hw Hin].
  split; [exact Hw|]. split; [auto|].
  intros -> -> ->. destruct Hw as [Hw _]. apply Hw; lra.
Qed.

Lemma Forall2_map_same {X : Type} (P : X -> Prop) (Q : X -> X -> Prop)
  (f : X -> X) (l : list X) :
  (forall a, P a -> Q a (f a)) -> Forall P l -> Forall2 Q l (map f l).
Proof.
  intros HPQ HP. induction HP; cbn [map]; constructor; auto.
Qed.

Lemma updateCar_keeps_bounds (gridSize : R) (car : Car R) :
  CarInBounds gridSize car -> CarInBounds gridSize (updateCar gridSize car).
Proof.
  intros [Hs Hb]. unfold CarInBounds.
  destruct (updateCar_frame gridSize car) as (Hr & Hsp & _).
  rewrite Hsp. split; [exact Hs|].
  pose proof (updateCar_moving gridSize car) as Hm. cbn zeta in Hm.
  apply (@motion_step _ _ _ _ _ Hm Hs Hb).
Qed.

Lemma updatePedestrian_keeps_bounds (gridSize : R) (p : Pedestrian R) :
  PedestrianInBounds gridSize p ->
  PedestrianInBounds gridSize (updatePedestrian gridSize p).
Proof.
  intros [Hs Hb]. unfold PedestrianInBounds.
  destruct (updatePedestrian_frame gridSize p) as (Hr & Hsp & _).
  rewrite Hsp. split; [exact Hs|].
  pose proof (updatePedestrian_moving gridSize p) as Hm. cbn zeta in Hm.
  apply (@motion_step _ _ _ _ _ Hm Hs Hb).
Qed.


(** The actors the spawn loops create are of that kind, whatever values in
    [0, 1) [Math.random] returns. *)
Lemma spawned_cars_in_bounds (gridSize : R) (gridDivisions i c : Z)
  (rndPosition rndSpeed : R) :
  0 <= gridSize -> 0 <= rndPosition < 1 -> 0 <= rndSpeed < 1 ->
  CarInBounds gridSize
    (spawnCarHorizontal gridSize gridDivisions i c rndPosition rndSpeed) /\
  CarInBounds gridSize
    (spawnCarVertical gridSize gridDivisions i c rndPosition rndSpeed).
Proof.
  intros Hg Hp Hs. unfold CarInBounds, inBounds.
  split; cbn; (split; [lra | nra]).
Qed.

Lemma spawned_pedestrians_in_bounds (gridSize : R) (gridDivisions i : Z)
  (rndSide rndPosition rndSpeed rndDirection : R) :
  0 <= gridSize -> 0 <= rndPosition < 1 -> 0 <= rndSpeed < 1 ->
  PedestrianInBounds gridSize
    (spawnPedestrianHorizontal gridSize gridDivisions i
       rndSide rndPosition rndSpeed rndDirection) /\
  PedestrianInBounds gridSize
    (spawnPedestrianVertical gridSize gridDivisions i
       rndSide rndPosition rndSpeed rndDirection).
Proof.
  intros Hg Hp Hs. unfold PedestrianInBounds, inBounds.
  split; cbn; (split; [lra | nra]).
Qed.



(** The boundary case in binary64: 49.9 + 0.2 * 1 rounds to 50.1, above 50,
    and the coordinate is -50 after the same call. *)
Example edge_actors_binary64 :
  x (position (car_mesh (edgeCar (A := float)))) = 49.9%float /\
  map (fun c => x (position (car_mesh c))) (updateCars [edgeCar] (ofZ 100))
  = [(-50)%float] /\
  map (fun p => z (position (ped_mesh p)))
    (updatePedestrians [edgePedestrian] (ofZ 100))
  = [(-50)%float].
Proof. vm_compute. repeat split; reflexivity. Qed.

(** ** Traffic signal controller *)

Lemma tick_R (st : Z) (tm : R) :
  tick st tm
  = if Rgtb (tm + 1 / 100) 5 then (Z.rem (st + 1) 3, 0) else (st, tm + 1 / 100).
Proof. reflexivity. Qed.

Lemma updateTrafficLight_fields {A} `{Number A} (tl : TrafficLight A) :
  state (updateTrafficLight tl) = fst (tick (state tl) (timer tl)) /\
  timer (updateTrafficLight tl) = snd (tick (state tl) (timer tl)) /\
  tl_lights (updateTrafficLight tl)
  = setLights (state (updateTrafficLight tl)) (tl_lights tl) /\
  tl_mesh (updateTrafficLight tl) = tl_mesh tl.
Proof.
  unfold updateTrafficLight.
  destruct (tick (state tl) (timer tl)); repeat split; reflexivity.
Qed.

Lemma update_flip (tl : TrafficLight R) :
  timer tl + 1 / 100 > 5 ->
  state (updateTrafficLight tl) = Z.rem (state tl + 1) 3 /\
  timer (updateTrafficLight tl) = 0.
Proof.
  intros Hgt. destruct (updateTrafficLight_fields tl) as (-> & -> & _).
  rewrite tick_R. apply Rgtb_true in Hgt. rewrite Hgt. split; reflexivity.
Qed.

Lemma update_no_flip (tl : TrafficLight R) :
  timer tl + 1 / 100 <= 5 ->
  state (updateTrafficLight tl) = state tl /\
  timer (updateTrafficLight tl) = timer tl + 1 / 100.
Proof.
  intros Hle. destruct (updateTrafficLight_fields tl) as (-> & -> & _).
  rewrite tick_R. apply Rgtb_false in Hle. rewrite Hle. split; reflexivity.
Qed.

Lemma frames_add {A} `{Number A} (a c : nat) (tl : TrafficLight A) :
  frames (a + c) tl = frames c (frames a tl).
Proof.
  revert tl. induction a as [|a IH]; intros tl; cbn [frames Nat.add];
    [reflexivity | apply IH].
Qed.

Lemma flips_add {A} `{Number A} (a c : nat) (tl : TrafficLight A) :
  flips (a + c) tl = (flips a tl + flips c (frames a tl))%nat.
Proof.
  revert tl. induction a as [|a IH]; intros tl; cbn [flips frames Nat.add].
  - reflexivity.
  - rewrite IH. lia.
Qed.

Lemma flips_S (n : nat) (tl : TrafficLight R) :
  flips (S n) tl
  = ((if Rgtb (timer tl + 1 / 100) 5 then 1 else 0)
     + flips n (updateTrafficLight tl))%nat.
Proof. reflexivity. Qed.

(** While the timer stays at or below the threshold nothing flips. *)
Lemma no_flip_run (k : nat) (tl : TrafficLight R) :
  timer tl + INR k / 100 <= 5 ->
  state (frames k tl) = state tl /\
  timer (frames k tl) = timer tl + INR k / 100 /\
  flips k tl = 0%nat.
Proof.
  revert tl. induction k as [|k IH]; intros tl Hle.
  - cbn [frames flips INR]. repeat split; try reflexivity. lra.
  - rewrite S_INR in *. pose proof (pos_INR k) as Hk.
    assert (Hstep : timer tl + 1 / 100 <= 5) by lra.
    destruct (update_no_flip tl Hstep) as [Hs Ht].
    cbn [frames]. rewrite flips_S.
    destruct (IH (updateTrafficLight tl)) as (IHs & IHt & IHf);
      [rewrite Ht; lra|].
    rewrite IHs, IHt, IHf, Hs, Ht.
    apply Rgtb_false in Hstep. rewrite Hstep.
    repeat split; try reflexivity. lra.
Qed.

(** From a timer at 0, the 501st frame is the first to flip. *)
Lemma period_501 (tl : TrafficLight R) :
  timer tl = 0 ->
  state (frames 501 tl) = Z.rem (state tl + 1) 3 /\
  timer (frames 501 tl) = 0 /\
  flips 501 tl = 1%nat.
Proof.
  intros Ht0.
  assert (H500 : INR 500 = 500) by (rewrite INR_IZR_INZ; reflexivity).
  destruct (no_flip_run 500 tl) as (Hs & Ht & Hf);
    [rewrite Ht0, H500; lra|].
  rewrite Ht0, H500 in Ht.
  change 501%nat with (500 + 1)%nat.
  rewrite frames_add, flips_add, Hf.
  remember (frames 500 tl) as tl500 eqn:E500. clear E500.
  change (frames 1 tl500) with (updateTrafficLight tl500).
  assert (Hgt : timer tl500 + 1 / 100 > 5) by (rewrite Ht; lra).
  destruct (update_flip tl500 Hgt) as [Hs' Ht'].
  rewrite Hs', Ht', Hs. repeat split; try reflexivity.
  rewrite flips_S. change (flips 0 (updateTrafficLight tl500)) with 0%nat.
  apply Rgtb_true in Hgt. rewrite Hgt. reflexivity.
Qed.





(** The same run in binary64: 4.99 + 0.01 rounds to exactly 5, which does not
    exceed 5; the flips fall on frames 2, 503 and 1004. *)
Example red_499_run_binary64 :
  let tl : TrafficLight float := signal RED (dec 499 100) in
  timer tl = 4.99%float /\
  (state (frames 1 tl), timer (frames 1 tl)) = (RED, 5%float) /\
  (state (frames 2 tl), timer (frames 2 tl)) = (YELLOW, 0%float) /\
  (state (frames 502 tl), flips 502 tl) = (YELLOW, 1%nat) /\
  (state (frames 503 tl), flips 503 tl) = (GREEN, 2%nat) /\
  (state (frames 1003 tl), flips 1003 tl) = (GREEN, 2%nat) /\
  (state (frames 1004 tl), flips 1004 tl) = (RED, 3%nat).
Proof. vm_compute. repeat split; reflexivity. Qed.

Lemma setLights_overwrites {A} `{Number A} (st : Z) (l l' : Lights A) :
  setLights st l = setLights st l'.
Proof.
  unfold setLights, set_red, set_yellow, set_green.
  destruct st as [|[[|[]|]|[]|]|]; reflexivity.
Qed.

Lemma updateTrafficLight_phase (tl : TrafficLight R) :
  (0 <= state tl < 3)%Z -> (0 <= state (updateTrafficLight tl) < 3)%Z.
Proof.
  intros Hst. destruct (Rgt_dec (timer tl + 1 / 100) 5) as [Hgt|Hle].
  - destruct (update_flip tl Hgt) as [-> _].
    rewrite Z.rem_mod_nonneg by lia. apply Z.mod_pos_bound. lia.
  - destruct (update_no_flip tl) as [-> _]; [lra | exact Hst].
Qed.

Lemma updateTrafficLight_lit (tl : TrafficLight R) :
  (0 <= state tl < 3)%Z -> LitMatchesPhase (updateTrafficLight tl).
Proof.
  intros Hst. apply updateTrafficLight_phase in Hst.
  destruct (updateTrafficLight_fields tl) as (_ & _ & Hl & _).
  unfold LitMatchesPhase. rewrite Hl.
  assert (Hcases : state (updateTrafficLight tl) = 0%Z
                   \/ state (updateTrafficLight tl) = 1%Z
                   \/ state (updateTrafficLight tl) = 2%Z) by lia.
  destruct Hcases as [E|[E|E]]; rewrite E; cbn;
    [left | right; left | right; right]; repeat split; lra.
Qed.

(** The phase [createRoads] gives a new signal is one of 0, 1, 2, whatever
    value in [0, 1) [Math.random] returns. *)
Lemma spawned_signal_phase (gridSize : R) (gridDivisions i j : Z)
  (rndState rndTimer : R) :
  0 <= rndState < 1 ->
  (0 <= state (spawnTrafficLight gridSize gridDivisions i j rndState rndTimer)
   < 3)%Z.
Proof.
  intros Hr. cbn [spawnTrafficLight state Math_floor Number_R num_mul ofZ].
  destruct (base_Int_part (rndState * 3)) as [Hlo Hhi].
  split.
  - assert (Hk : (-1 < Int_part (rndState * 3))%Z) by (apply lt_IZR; lra).
    lia.
  - apply lt_IZR. lra.
Qed.

(** C6.  When every signal of the registry is in one of the phases 0, 1, 2,
    then after [updateTrafficLights] every signal is again in one of them and
    exactly one of its three lights has a nonzero emissive intensity, the light
    of its phase (0 red, 1 yellow, 2 green), the other two being 0; the lights
    are those the light-setting step gives for the new phase, a step that
    overwrites all three intensities and is idempotent. *)
Theorem one_light_matches_phase (trafficLights : list (TrafficLight R))
  (time : R) :
  Forall (fun tl => (0 <= state tl < 3)%Z) trafficLights ->
  Forall (fun tl' => (0 <= state tl' < 3)%Z /\ LitMatchesPhase tl')
    (updateTrafficLights trafficLights time) /\
  Forall2 (fun tl tl' =>
             tl_lights tl' = setLights (state tl') (tl_lights tl))
    trafficLights (updateTrafficLights trafficLights time) /\
  (forall (st : Z) (l : Lights R),
     setLights st (setLights st l) = setLights st l).
Proof.
  intros Hall. split; [|split].
  - unfold updateTrafficLights. rewrite Forall_map.
    revert Hall. apply Forall_impl. intros tl Hst. split.
    + apply updateTrafficLight_phase, Hst.
    + apply updateTrafficLight_lit, Hst.
  - unfold updateTrafficLights.
    apply Forall2_map_same with (P := fun _ => True).
    + intros tl _. apply (updateTrafficLight_fields tl).
    + rewrite Forall_forall. auto.
  - intros st l. apply setLights_overwrites.
Qed.

Lemma one_light_matches_phase_witness :
  Forall (fun tl : TrafficLight R => (0 <= state tl < 3)%Z)
    [signal GREEN (5 : R)] /\
  Forall (fun tl' => state tl' = RED /\ red (tl_lights tl') <> 0 /\
                     yellow (tl_lights tl') = 0 /\ green (tl_lights tl') = 0)
    (updateTrafficLights [signal GREEN (5 : R)] 0).
Proof.
  assert (Hin : Forall (fun tl : TrafficLight R => (0 <= state tl < 3)%Z)
                  [signal GREEN (5 : R)]).
  { constructor; [cbn; unfold GREEN; lia | constructor]. }
  split; [exact Hin|].
  destruct (@one_light_matches_phase [signal GREEN (5 : R)] 0 Hin)
    as (Hlit & _ & _).
  inversion Hlit as [|tl' rest [_ Hone] _ Heq]; subst.
  constructor; [|constructor].
  assert (Hst : state (updateTrafficLight (signal GREEN (5 : R))) = RED).
  { destruct (update_flip (signal GREEN (5 : R))) as [Hs _]; [cbn; lra|].
    rewrite Hs. reflexivity. }
  unfold RED in *.
  destruct Hone as [H0|[(H1 & _)|(H2 & _)]]; [exact H0 | lia | lia].
Defined.

(** C10.  [updateTrafficLights] does not read its [time] argument: for any two
    clock values the resulting registries are equal; each resulting signal is
    the update of the signal at the same index, and its phase, timer and light
    intensities are determined by the phase and timer it had. *)
Theorem traffic_lights_ignore_time {A : Type} {N : Number A}
  (trafficLights : list (TrafficLight A)) (time1 time2 : A) :
  updateTrafficLights trafficLights time1
  = updateTrafficLights trafficLights time2 /\
  (forall k : nat,
     nth_error (updateTrafficLights trafficLights time1) k
     = option_map updateTrafficLight (nth_error trafficLights k)) /\
  (forall tl1 tl2 : TrafficLight A,
     state tl1 = state tl2 -> timer tl1 = timer tl2 ->
     state (updateTrafficLight tl1) = state (updateTrafficLight tl2) /\
     timer (updateTrafficLight tl1) = timer (updateTrafficLight tl2) /\
     tl_lights (updateTrafficLight tl1) = tl_lights (updateTrafficLight tl2)).
Proof.
  split; [reflexivity|]. split.
  - intros k. unfold updateTrafficLights. apply nth_error_map.
  - intros tl1 tl2 Hs Ht.
    destruct (updateTrafficLight_fields tl1) as (Hs1 & Ht1 & Hl1 & _).
    destruct (updateTrafficLight_fields tl2) as (Hs2 & Ht2 & Hl2 & _).
    assert (E : state (updateTrafficLight tl1) = state (updateTrafficLight tl2))
      by (rewrite Hs1, Hs2, Hs, Ht; reflexivity).
    repeat split.
    + exact E.
    + rewrite Ht1, Ht2, Hs, Ht. reflexivity.
    + rewrite Hl1, Hl2, E. apply setLights_overwrites.
Qed.

Lemma traffic_lights_ignore_time_witness :
  updateTrafficLights [signal GREEN (5 : R)] 0
  = updateTrafficLights [signal GREEN (5 : R)] 30 /\
  tl_lights (updateTrafficLight (signal GREEN (5 : R)))
  = tl_lights (updateTrafficLight
                 {| tl_mesh := origin;
                    tl_lights := {| red := 1; yellow := 1; green := 1 |};
                    state := GREEN; timer := 5 |}).
Proof.
  destruct (@traffic_lights_ignore_time R _ [signal GREEN (5 : R)] 0 30)
    as (Htime & _ & Hdep).
  split; [exact Htime|]. apply Hdep; reflexivity.
Defined.


(** ** Day/night cycle controller *)

Lemma skyColors_R :
  skyColors_day = mkColor (135 / 255) (206 / 255) (235 / 255) /\
  skyColors_sunset = mkColor (255 / 255) (127 / 255) (80 / 255) /\
  skyColors_night = mkColor (0 / 255) (0 / 255) (51 / 255).
Proof. repeat split; reflexivity. Qed.

Lemma skyColor_R (h : R) :
  skyColor h
  = if Rgtb h 80 then skyColors_day
    else if Rgtb h 25 then
      lerpColors skyColors_sunset skyColors_day ((h - 25) / 55)
    else if Rgtb h 0 then lerpColors skyColors_night skyColors_sunset (h / 25)
    else skyColors_night.
Proof. reflexivity. Qed.

Lemma skyColor_day (h : R) : h > 80 -> skyColor h = skyColors_day.
Proof.
  intros Hh. rewrite skyColor_R. apply Rgtb_true in Hh. rewrite Hh.
  reflexivity.
Qed.

Lemma skyColor_sunset_to_day (h : R) :
  25 < h <= 80 ->
  skyColor h = lerpColors skyColors_sunset skyColors_day ((h - 25) / 55).
Proof.
  intros [Hlo Hhi]. rewrite skyColor_R.
  apply Rgtb_false in Hhi. apply Rgtb_true in Hlo. rewrite Hhi, Hlo.
  reflexivity.
Qed.

Lemma skyColor_night_to_sunset (h : R) :
  0 < h <= 25 ->
  skyColor h = lerpColors skyColors_night skyColors_sunset (h / 25).
Proof.
  intros [Hlo Hhi]. rewrite skyColor_R.
  assert (H80 : h <= 80) by lra.
  apply Rgtb_false in Hhi. apply Rgtb_false in H80. apply Rgtb_true in Hlo.
  rewrite H80, Hhi, Hlo. reflexivity.
Qed.

Lemma Color_eq (c1 c2 : Color R) :
  r c1 = r c2 -> g c1 = g c2 -> b c1 = b c2 -> c1 = c2.
Proof. destruct c1, c2; cbn [r g b]; intros -> -> ->; reflexivity. Qed.

Lemma lerpColors_0 (c1 c2 : Color R) : lerpColors c1 c2 0 = c1.
Proof.
  apply Color_eq; unfold lerpColors; js_unfold; cbn [r g b]; lra.
Qed.

Lemma lerpColors_1 (c1 c2 : Color R) : lerpColors c1 c2 1 = c2.
Proof.
  apply Color_eq; unfold lerpColors; js_unfold; cbn [r g b]; lra.
Qed.

Lemma sunAngleOf_R (dayProgress : R) :
  sunAngleOf dayProgress = dayProgress * PI * 2 - PI / 2.
Proof. reflexivity. Qed.

Lemma sunHeightOf_R (dayProgress : R) :
  sunHeightOf dayProgress = sin (sunAngleOf dayProgress) * 50 + 50.
Proof. reflexivity. Qed.

Lemma sun_at_quarter : sunAngleOf (1 / 4) = 0 /\ sunHeightOf (1 / 4) = 50.
Proof.
  assert (Ha : sunAngleOf (1 / 4) = 0) by (rewrite sunAngleOf_R; lra).
  split; [exact Ha|]. rewrite sunHeightOf_R, Ha, sin_0. lra.
Qed.

Lemma sun_at_half : sunAngleOf (1 / 2) = PI / 2 /\ sunHeightOf (1 / 2) = 100.
Proof.
  assert (Ha : sunAngleOf (1 / 2) = PI / 2) by (rewrite sunAngleOf_R; lra).
  split; [exact Ha|]. rewrite sunHeightOf_R, Ha, sin_PI2. lra.
Qed.

Lemma sun_at_sixth :
  sunAngleOf (1 / 6) = - (PI / 6) /\ sunHeightOf (1 / 6) = 25.
Proof.
  assert (Ha : sunAngleOf (1 / 6) = - (PI / 6)) by (rewrite sunAngleOf_R; lra).
  split; [exact Ha|]. rewrite sunHeightOf_R, Ha, sin_neg, sin_PI6. lra.
Qed.

Lemma updateDayNightCycle_background (dayProgress : R) (w : World R) :
  background (updateDayNightCycle dayProgress w)
  = skyColor (sunHeightOf dayProgress).
Proof. reflexivity. Qed.

Lemma quarter_day_blend_is_not_day :
  lerpColors skyColors_sunset skyColors_day (25 / 55) <> skyColors_day.
Proof.
  destruct skyColors_R as (-> & -> & _). intros Heq.
  apply (f_equal (@r R)) in Heq. unfold lerpColors in Heq. js_unfold.
  cbn [r g b] in Heq. lra.
Qed.

(** At dayProgress = 0.25 the sun height is 50, not 100, and the sky colour
    that [updateDayNightCycle] writes is not the day colour. *)
Lemma quarter_day_is_not_pure_day :
  sunHeightOf (1 / 4 : R) <> 100 /\
  skyColor (sunHeightOf (1 / 4 : R)) <> skyColors_day /\
  background (updateDayNightCycle (1 / 4) world0) <> skyColors_day.
Proof.
  destruct sun_at_quarter as [_ Hh].
  assert (Hsky : skyColor (sunHeightOf (1 / 4 : R)) <> skyColors_day).
  { rewrite Hh, skyColor_sunset_to_day by lra.
    replace ((50 - 25) / 55) with (25 / 55) by lra.
    exact quarter_day_blend_is_not_day. }
  split; [rewrite Hh; lra|]. split; [exact Hsky|].
  rewrite updateDayNightCycle_background. exact Hsky.
Qed.

(** C3, as amended.  At dayProgress = 0.25 the sun angle is 0 and the sun
    height is 50, so the sky colour is the blend from sunset to day at
    t = 25/55.  The sun height 100 and the pure day colour (the branch
    h > 80) are those of dayProgress = 0.5, where the angle is pi/2. *)
Theorem quarter_day_sky :
  sunAngleOf (1 / 4 : R) = 0 /\
  sunHeightOf (1 / 4 : R) = 50 /\
  (forall w : World R,
     background (updateDayNightCycle (1 / 4) w)
     = lerpColors skyColors_sunset skyColors_day (25 / 55)) /\
  sunAngleOf (1 / 2 : R) = PI / 2 /\
  sunHeightOf (1 / 2 : R) = 100 /\
  (forall w : World R,
     background (updateDayNightCycle (1 / 2) w) = skyColors_day) /\
  (forall h : R, h > 80 -> skyColor h = skyColors_day).
Proof.
  destruct sun_at_quarter as [Ha4 Hh4]. destruct sun_at_half as [Ha2 Hh2].
  repeat split; try assumption.
  - intros w. rewrite updateDayNightCycle_background, Hh4.
    rewrite skyColor_sunset_to_day by lra. f_equal. lra.
  - intros w. rewrite updateDayNightCycle_background, Hh2.
    apply skyColor_day. lra.
  - apply skyColor_day.
Qed.

Lemma quarter_day_sky_witness :
  skyColor (100 : R) = skyColors_day.
Proof.
  destruct quarter_day_sky as (_ & _ & _ & _ & _ & _ & Hday).
  apply Hday. lra.
Defined.

(** The sky colour stays within |h - 25| / 25 of the sunset colour on both
    interpolation bands. *)
Lemma skyColor_near_sunset (h : R) :
  0 < h <= 80 -> colorDist (skyColor h) skyColors_sunset <= Rabs (h - 25) / 25.
Proof.
  intros [Hlo Hhi]. unfold colorDist.
  destruct (Rle_dec h 25) as [Hle|Hgt].
  - rewrite skyColor_night_to_sunset by lra.
    destruct skyColors_R as (_ & -> & ->).
    unfold lerpColors. js_unfold. cbn [r g b].
    rewrite (Rabs_left1 (h - 25)) by lra.
    repeat apply Rmax_lub; apply Rabs_le; lra.
  - rewrite skyColor_sunset_to_day by lra.
    destruct skyColors_R as (-> & -> & _).
    unfold lerpColors. js_unfold. cbn [r g b].
    rewrite (Rabs_right (h - 25)) by lra.
    repeat apply Rmax_lub; apply Rabs_le; lra.
Qed.

(** C8.  At sun height 25 the sky colour is the sunset colour: the band
    0 < h <= 25 applies, with t = 25/25 = 1, and the blend from night to
    sunset at 1 is the sunset colour, which is also the blend from sunset to
    day at t = (25-25)/55 = 0.  On both bands the colour is within
    |h - 25| / 25 of the sunset colour in every channel, so the bands meet at
    25 without a jump.  The height 25 is that of dayProgress = 1/6. *)
Theorem sky_bands_meet_at_sunset :
  skyColor (25 : R) = skyColors_sunset /\
  skyColor (25 : R) = lerpColors skyColors_night skyColors_sunset (25 / 25) /\
  lerpColors skyColors_night skyColors_sunset (25 / 25)
  = lerpColors skyColors_sunset skyColors_day ((25 - 25) / 55) /\
  (forall h : R, 0 < h <= 25 ->
     skyColor h = lerpColors skyColors_night skyColors_sunset (h / 25)) /\
  (forall h : R, 25 < h <= 80 ->
     skyColor h = lerpColors skyColors_sunset skyColors_day ((h - 25) / 55)) /\
  (forall h : R, 0 < h <= 80 ->
     colorDist (skyColor h) skyColors_sunset <= Rabs (h - 25) / 25) /\
  sunHeightOf (1 / 6 : R) = 25 /\
  (forall w : World R,
     background (updateDayNightCycle (1 / 6) w) = skyColors_sunset).
Proof.
  assert (H1 : (25 / 25 : R) = 1) by lra.
  assert (H0 : ((25 - 25) / 55 : R) = 0) by lra.
  assert (Hband : skyColor (25 : R)
                  = lerpColors skyColors_night skyColors_sunset (25 / 25))
    by (apply skyColor_night_to_sunset; lra).
  assert (H25 : skyColor (25 : R) = skyColors_sunset)
    by (rewrite Hband, H1; apply lerpColors_1).
  destruct sun_at_sixth as [_ Hh6].
  repeat split; try assumption.
  - rewrite H1, H0, lerpColors_1, lerpColors_0. reflexivity.
  - apply skyColor_night_to_sunset.
  - apply skyColor_sunset_to_day.
  - apply skyColor_near_sunset.
  - intros w. rewrite updateDayNightCycle_background, Hh6. exact H25.
Qed.

Lemma sky_bands_meet_at_sunset_witness :
  skyColor (80 : R) = lerpColors skyColors_sunset skyColors_day 1 /\
  colorDist (skyColor (30 : R)) skyColors_sunset <= 1 / 5.
Proof.
  destruct sky_bands_meet_at_sunset as (_ & _ & _ & _ & Hup & Hlip & _).
  split.
  - rewrite Hup by lra. f_equal. lra.
  - eapply Rle_trans; [apply Hlip; lra|].
    rewrite Rabs_right by lra. lra.
Defined.

Lemma lampIntensity_R (h : R) :
  lampIntensity h = if Rltb h 30 then Rmax 0 (1 - h / 30) else 0.
Proof. reflexivity. Qed.

Lemma lampIntensity_low (h : R) :
  h < 30 -> lampIntensity h = Rmax 0 (1 - h / 30).
Proof.
  intros Hh. rewrite lampIntensity_R. apply Rltb_true in Hh. rewrite Hh.
  reflexivity.
Qed.

Lemma lampIntensity_high (h : R) : 30 <= h -> lampIntensity h = 0.
Proof.
  intros Hh. rewrite lampIntensity_R. apply Rltb_false in Hh. rewrite Hh.
  reflexivity.
Qed.

Lemma lampIntensity_antitone (h1 h2 : R) :
  h1 <= h2 -> lampIntensity h2 <= lampIntensity h1.
Proof.
  intros Hle. destruct (Rlt_dec h2 30) as [H2|H2].
  - rewrite !lampIntensity_low by lra.
    unfold Rmax. repeat destruct (Rle_dec _ _); lra.
  - rewrite (@lampIntensity_high h2) by lra.
    destruct (Rlt_dec h1 30) as [H1|H1].
    + rewrite lampIntensity_low by lra. apply Rmax_l.
    + rewrite lampIntensity_high by lra. lra.
Qed.

(** The two traversals on one street element: a lamppost gets the lamp
    intensity on its light and its bulb (the bulb's emissive colour 0xffffee
    is not the headlight colour), a bench or a tree is left as it is. *)
Lemma streetElement_after (h : R) (e : StreetElement R) :
  headlightsStreetElement h (updateStreetLight h e)
  = match e with
    | SE_lamppost l =>
        SE_lamppost {| lamp_mesh := lamp_mesh l;
                       light_intensity := lampIntensity h;
                       bulb_emissiveIntensity := lampIntensity h |}
    | _ => e
    end.
Proof. destruct e; reflexivity. Qed.

Lemma updateDayNightCycle_streetElements (dayProgress : R) (w : World R) :
  streetElements (updateDayNightCycle dayProgress w)
  = map (fun e => headlightsStreetElement (sunHeightOf dayProgress)
                    (updateStreetLight (sunHeightOf dayProgress) e))
      (streetElements w).
Proof.
  unfold updateDayNightCycle. cbn [streetElements]. rewrite map_map.
  reflexivity.
Qed.

(** C7.  [updateDayNightCycle] turns every lamppost of the scene into the same
    lamppost with its light intensity and its bulb emissive intensity both at
    the lamp intensity of the sun height h, and leaves benches and trees as
    they are; the lamp intensity is max(0, 1 - h/30) for h < 30 and 0 for
    h >= 30, and it does not increase when h increases. *)
Theorem street_lamps_follow_sun_height (dayProgress : R) (w : World R) :
  streetElements (updateDayNightCycle dayProgress w)
  = map (fun e =>
           match e with
           | SE_lamppost l =>
               SE_lamppost
                 {| lamp_mesh := lamp_mesh l;
                    light_intensity := lampIntensity (sunHeightOf dayProgress);
                    bulb_emissiveIntensity :=
                      lampIntensity (sunHeightOf dayProgress) |}
           | _ => e
           end)
      (streetElements w) /\
  (forall l' : Lamppost R,
     In (SE_lamppost l') (streetElements (updateDayNightCycle dayProgress w)) ->
     light_intensity l' = lampIntensity (sunHeightOf dayProgress) /\
     bulb_emissiveIntensity l' = lampIntensity (sunHeightOf dayProgress)) /\
  (forall h : R, h < 30 -> lampIntensity h = Rmax 0 (1 - h / 30)) /\
  (forall h : R, 30 <= h -> lampIntensity h = 0) /\
  (forall h1 h2 : R, h1 <= h2 -> lampIntensity h2 <= lampIntensity h1).
Proof.
  assert (Hmap : streetElements (updateDayNightCycle dayProgress w)
    = map (fun e =>
           match e with
           | SE_lamppost l =>
               SE_lamppost
                 {| lamp_mesh := lamp_mesh l;
                    light_intensity := lampIntensity (sunHeightOf dayProgress);
                    bulb_emissiveIntensity :=
                      lampIntensity (sunHeightOf dayProgress) |}
           | _ => e
           end)
      (streetElements w)).
  { rewrite updateDayNightCycle_streetElements. apply map_ext.
    intros e. apply streetElement_after. }
  split; [exact Hmap|]. split; [|split; [|split]].
  - intros l' Hin. rewrite Hmap in Hin. apply in_map_iff in Hin.
    destruct Hin as (e & He & _).
    destruct e; inversion He; subst; cbn; split; reflexivity.
  - apply lampIntensity_low.
  - apply lampIntensity_high.
  - apply lampIntensity_antitone.
Qed.

Lemma street_lamps_follow_sun_height_witness :
  Forall (fun e : StreetElement R =>
            match e with
            | SE_lamppost l =>
                light_intensity l = 1 / 6 /\ bulb_emissiveIntensity l = 1 / 6
            | _ => True
            end)
    (streetElements (updateDayNightCycle (1 / 6) (world0 (A := R)))) /\
  lampIntensity (20 : R) <= lampIntensity (10 : R).
Proof.
  destruct (street_lamps_follow_sun_height (1 / 6) (world0 (A := R)))
    as (_ & Hin & Hlow & _ & Hanti).
  split.
  - apply Forall_forall. intros [l| |] He; [|exact I|exact I].
    destruct (Hin l He) as [-> ->].
    destruct sun_at_sixth as [_ ->]. rewrite Hlow by lra.
    assert (E : Rmax 0 (1 - 25 / 30) = 1 / 6)
      by (unfold Rmax; destruct (Rle_dec _ _); lra).
    rewrite E. split; reflexivity.
  - apply Hanti. lra.
Defined.

(** The lamp intensity and the sunset boundary in binary64. *)
Example lamp_and_sunset_binary64 :
  lampIntensity (ofZ 15 : float) = 0.5%float /\
  lampIntensity (ofZ 30 : float) = 0%float /\
  lampIntensity (ofZ 100 : float) = 0%float /\
  skyColor (ofZ 25 : float) = skyColors_sunset /\
  lerpColors skyColors_sunset skyColors_day (ofZ 0 : float) = skyColors_sunset.
Proof. vm_compute. repeat split; reflexivity. Qed.

Lemma headlightsTrafficLight_id (h : R) (t : TrafficLight R) :
  headlightsTrafficLight h t = t.
Proof. destruct t as [m [lr ly lg] st tm]. reflexivity. Qed.

Lemma updateDayNightCycle_sun (dayProgress : R) (w : World R) :
  dl_position (sunLight (updateDayNightCycle dayProgress w))
  = {| x := cos (sunAngleOf dayProgress) * 100;
       y := sunHeightOf dayProgress;
       z := sin (sunAngleOf dayProgress) * 100 |}.
Proof. reflexivity. Qed.

(** One call at dayProgress = 0.25 on the scene as [initCity] sets it up moves
    the sun light from (50, 100, 30) to (100, 50, 0). *)
Lemma day_night_moves_the_sun :
  dl_position (sunLight (world0 (A := R))) = mkVector3 50 100 30 /\
  dl_position (sunLight (updateDayNightCycle (1 / 4) (world0 (A := R))))
  = mkVector3 100 50 0 /\
  allPositions (updateDayNightCycle (1 / 4) (world0 (A := R)))
  <> allPositions (world0 (A := R)).
Proof.
  assert (Hsun : dl_position
                   (sunLight (updateDayNightCycle (1 / 4) (world0 (A := R))))
                 = mkVector3 100 50 0).
  { rewrite updateDayNightCycle_sun. destruct sun_at_quarter as [-> ->].
    rewrite cos_0, sin_0. f_equal; lra. }
  split; [reflexivity|]. split; [exact Hsun|].
  unfold allPositions. rewrite Hsun. intros Heq.
  injection Heq as Hx Hy Hz. lra.
Qed.

(** C9, as amended.  One call of [updateDayNightCycle] leaves the position of
    every building, vehicle, pedestrian, street-furniture and traffic-signal
    mesh as it was (the buildings, the pedestrians, the signals and every
    mesh are untouched, and so are the motion fields of the cars); the one
    position it writes is the sun light's, set to
    (cos(angle) * 100, h, sin(angle) * 100). *)
Theorem day_night_moves_only_the_sun (dayProgress : R) (w : World R) :
  actorPositions (updateDayNightCycle dayProgress w) = actorPositions w /\
  buildings (updateDayNightCycle dayProgress w) = buildings w /\
  pedestrians (updateDayNightCycle dayProgress w) = pedestrians w /\
  trafficLights (updateDayNightCycle dayProgress w) = trafficLights w /\
  map (fun c => (car_mesh c, car_speed c, car_direction c, car_road c))
    (cars (updateDayNightCycle dayProgress w))
  = map (fun c => (car_mesh c, car_speed c, car_direction c, car_road c))
      (cars w) /\
  map (@streetElement_mesh R) (streetElements (updateDayNightCycle dayProgress w))
  = map (@streetElement_mesh R) (streetElements w) /\
  dl_position (sunLight (updateDayNightCycle dayProgress w))
  = {| x := cos (sunAngleOf dayProgress) * 100;
       y := sunHeightOf dayProgress;
       z := sin (sunAngleOf dayProgress) * 100 |}.
Proof.
  assert (Htl : trafficLights (updateDayNightCycle dayProgress w)
                = trafficLights w).
  { unfold updateDayNightCycle. cbn [trafficLights].
    rewrite <- (map_id (trafficLights w)) at 2. apply map_ext.
    intros t. apply headlightsTrafficLight_id. }
  assert (Hse : forall f : Object3D R -> Vector3 R,
            map (fun e => f (streetElement_mesh e))
              (streetElements (updateDayNightCycle dayProgress w))
            = map (fun e => f (streetElement_mesh e)) (streetElements w)).
  { intros f. rewrite updateDayNightCycle_streetElements, map_map.
    apply map_ext. intros e. rewrite streetElement_after.
    destruct e; reflexivity. }
  assert (Hcars : forall (X : Type) (f : Car R -> X),
            (forall h c, f (headlightsCar h c) = f c) ->
            map f (cars (updateDayNightCycle dayProgress w)) = map f (cars w)).
  { intros X f Hf. unfold updateDayNightCycle. cbn [cars]. rewrite map_map.
    apply map_ext. intros c. apply Hf. }
  repeat split.
  - unfold actorPositions. rewrite Htl, Hse, Hcars by reflexivity.
    reflexivity.
  - exact Htl.
  - apply Hcars. reflexivity.
  - rewrite updateDayNightCycle_streetElements, map_map.
    apply map_ext. intros e. rewrite streetElement_after.
    destruct e; reflexivity.
Qed.

(** ** Layout planner *)

Lemma In_loop (n i : Z) : In i (loop n) <-> (0 <= i < n)%Z.
Proof.
  unfold loop. rewrite in_map_iff. split.
  - intros (k & <- & Hk). apply in_seq in Hk. lia.
  - intros Hi. exists (Z.to_nat i). split; [lia|]. apply in_seq. lia.
Qed.

Section NestedLoops.
Variables (X : Type) (skip : Z -> Z -> bool) (mk : Z -> Z -> X).

(** Two nested loops whose body skips some index pairs and pushes one element
    for every other pair. *)
Lemma nested_loops_map (C : Type) (f : X -> C) (cell : Z -> Z -> C)
  (l1 l2 : list Z) :
  (forall i j, f (mk i j) = cell i j) ->
  map f (flat_map (fun i =>
           flat_map (fun j => if skip i j then [] else [mk i j]) l2) l1)
  = map (fun c => cell (fst c) (snd c))
      (filter (fun c => negb (skip (fst c) (snd c))) (list_prod l1 l2)).
Proof.
  intros Hf. induction l1 as [|i l1 IH]; [reflexivity|].
  cbn [flat_map list_prod]. rewrite map_app, filter_app, map_app, IH.
  f_equal. clear IH.
  induction l2 as [|j l2 IH2]; [reflexivity|].
  cbn [flat_map map filter fst snd].
  destruct (skip i j); cbn [negb app map fst snd]; rewrite IH2;
    [reflexivity | rewrite Hf; reflexivity].
Qed.

Lemma nested_loops_In (e : X) (l1 l2 : list Z) :
  In e (flat_map (fun i =>
          flat_map (fun j => if skip i j then [] else [mk i j]) l2) l1)
  <-> exists i j, In i l1 /\ In j l2 /\ skip i j = false /\ e = mk i j.
Proof.
  rewrite in_flat_map. split.
  - intros (i & Hi & Hin). apply in_flat_map in Hin.
    destruct Hin as (j & Hj & Hin). exists i, j.
    destruct (skip i j); [destruct Hin|].
    destruct Hin as [<-|[]]. auto.
  - intros (i & j & Hi & Hj & Hs & ->). exists i. split; [exact Hi|].
    apply in_flat_map. exists j. split; [exact Hj|].
    rewrite Hs. left. reflexivity.
Qed.

End NestedLoops.

Lemma createBuildings_In (gridSize : R) (gridDivisions : Z) (bd : Building R) :
  In bd (createBuildings gridSize gridDivisions) <->
  exists i j,
    (0 <= i < gridDivisions)%Z /\ (0 <= j < gridDivisions)%Z /\
    isRoad i j = false /\
    bd = {| cell_i := i; cell_j := j; buildingType := buildingTypeOf i j;
            building_x := IZR i * (gridSize / IZR gridDivisions)
                          - gridSize / 2 + gridSize / IZR gridDivisions / 2;
            building_z := IZR j * (gridSize / IZR gridDivisions)
                          - gridSize / 2 + gridSize / IZR gridDivisions / 2 |}.
Proof.
  unfold createBuildings. cbn zeta.
  rewrite (nested_loops_In (fun i j => (Z.rem i 3 =? 1)%Z || (Z.rem j 3 =? 1)%Z)).
  split; intros (i & j & Hi & Hj & Hs & ->); exists i, j.
  - apply In_loop in Hi. apply In_loop in Hj. auto.
  - rewrite !In_loop. auto.
Qed.

Lemma createRoads_pairs (gridSize : R) (gridDivisions : Z) :
  map (fun rd => (road_i rd, horizontal rd))
    (createRoads gridSize gridDivisions)
  = flat_map (fun i => [(i, true); (i, false)])
      (filter roadIndex (loop gridDivisions)).
Proof.
  unfold createRoads. cbn zeta.
  induction (loop gridDivisions) as [|i l IH]; [reflexivity|].
  cbn [flat_map filter]. rewrite map_app, IH. unfold roadIndex at 2.
  destruct (Z.rem i 3 =? 1)%Z; reflexivity.
Qed.

Lemma roadIndex_mod (i : Z) :
  (0 <= i)%Z -> roadIndex i = true <-> (i mod 3 = 1)%Z.
Proof.
  intros Hi. unfold roadIndex. rewrite Z.rem_mod_nonneg by lia.
  apply Z.eqb_eq.
Qed.

Lemma isRoad_mod (i j : Z) :
  (0 <= i)%Z -> (0 <= j)%Z ->
  isRoad i j = true <-> (i mod 3 = 1 \/ j mod 3 = 1)%Z.
Proof.
  intros Hi Hj. unfold isRoad.
  rewrite orb_true_iff, !roadIndex_mod by assumption. reflexivity.
Qed.




(** C5.  For a cell (i, j) of the grid, the role is road exactly when
    i mod 3 = 1 or j mod 3 = 1 and building slot otherwise; it is a function
    of its arguments; the building pass builds on exactly the building slots
    (each once, in loop order), and the road pass lays its two strips at
    exactly the indices with i mod 3 = 1. *)
Theorem grid_roles (gridSize : R) (gridDivisions i j : Z) :
  (0 <= i < gridDivisions)%Z -> (0 <= j < gridDivisions)%Z ->
  (role i j gridDivisions = road <-> (i mod 3 = 1 \/ j mod 3 = 1)%Z) /\
  (role i j gridDivisions = building_slot <->
   ~ (i mod 3 = 1 \/ j mod 3 = 1)%Z) /\
  (forall r1 r2 : Role,
     r1 = role i j gridDivisions -> r2 = role i j gridDivisions -> r1 = r2) /\
  ((exists bd, In bd (createBuildings gridSize gridDivisions) /\
               cell_i bd = i /\ cell_j bd = j)
   <-> role i j gridDivisions = building_slot) /\
  ((exists rd, In rd (createRoads gridSize gridDivisions) /\ road_i rd = i)
   <-> (i mod 3 = 1)%Z) /\
  map (fun bd => (cell_i bd, cell_j bd))
    (createBuildings gridSize gridDivisions)
  = filter (fun c => negb (isRoad (fst c) (snd c)))
      (list_prod (loop gridDivisions) (loop gridDivisions)) /\
  map (fun rd => (road_i rd, horizontal rd))
    (createRoads gridSize gridDivisions)
  = flat_map (fun k => [(k, true); (k, false)])
      (filter roadIndex (loop gridDivisions)).
Proof.
  intros Hi Hj.
  assert (Hroad : isRoad i j = true <-> (i mod 3 = 1 \/ j mod 3 = 1)%Z)
    by (apply isRoad_mod; lia).
  assert (Hrole : role i j gridDivisions = road
                  <-> (i mod 3 = 1 \/ j mod 3 = 1)%Z).
  { unfold role. rewrite <- Hroad.
    destruct (isRoad i j); split; intros; try reflexivity; discriminate. }
  assert (Hslot : role i j gridDivisions = building_slot
                  <-> ~ (i mod 3 = 1 \/ j mod 3 = 1)%Z).
  { rewrite <- Hrole.
    destruct (role i j gridDivisions); split; intros; try reflexivity;
      try discriminate; try congruence. }
  split; [exact Hrole|]. split; [exact Hslot|].
  split; [intros r1 r2 -> ->; reflexivity|].
  split; [|split; [|split]].
  - rewrite Hslot, <- Hroad. split.
    + intros (bd & Hin & <- & <-). apply createBuildings_In in Hin.
      destruct Hin as (i' & j' & _ & _ & Hs & ->). cbn [cell_i cell_j].
      rewrite Hs. discriminate.
    + intros Hs.
      eexists. split.
      * apply createBuildings_In. exists i, j.
        repeat split; try lia.
        destruct (isRoad i j); [exfalso; apply Hs|]; reflexivity.
      * split; reflexivity.
  - rewrite <- roadIndex_mod by lia.
    assert (Hpairs := createRoads_pairs gridSize gridDivisions).
    split.
    + intros (rd & Hin & <-).
      apply (in_map (fun rd => (road_i rd, horizontal rd))) in Hin.
      rewrite Hpairs in Hin. apply in_flat_map in Hin.
      destruct Hin as (k & Hk & Hin). apply filter_In in Hk.
      destruct Hin as [E|[E|[]]]; inversion E; subst; apply Hk.
    + intros Hri.
      assert (Hin : In (i, true)
                (map (fun rd : Road R => (road_i rd, horizontal rd))
                   (createRoads gridSize gridDivisions))).
      { rewrite Hpairs. apply in_flat_map. exists i. split.
        - apply filter_In. split; [apply In_loop; lia | exact Hri].
        - left. reflexivity. }
      apply in_map_iff in Hin. destruct Hin as (rd & E & Hin).
      exists rd. split; [exact Hin|]. inversion E. reflexivity.
  - unfold createBuildings. cbn zeta.
    rewrite (nested_loops_map
               (fun a c => (Z.rem a 3 =? 1)%Z || (Z.rem c 3 =? 1)%Z) _
               (fun bd : Building R => (cell_i bd, cell_j bd)) pair)
      by reflexivity.
    unfold isRoad, roadIndex.
    rewrite <- (map_id (filter _ _)) at 2. apply map_ext.
    intros [a c]. reflexivity.
  - apply createRoads_pairs.
Qed.

Lemma grid_roles_witness :
  role 1 0 10 = road /\ role 0 0 10 = building_slot /\
  role 4 7 10 = road /\
  (exists rd : Road R, In rd (createRoads 100 10) /\ road_i rd = 4%Z).
Proof.
  assert (H0 : (0 <= 0 < 10)%Z) by lia.
  assert (H1 : (0 <= 1 < 10)%Z) by lia.
  assert (H4 : (0 <= 4 < 10)%Z) by lia.
  assert (H7 : (0 <= 7 < 10)%Z) by lia.
  destruct (@grid_roles 100 10 1 0 H1 H0) as (Hr10 & _).
  destruct (@grid_roles 100 10 0 0 H0 H0) as (_ & Hr00 & _).
  destruct (@grid_roles 100 10 4 7 H4 H7) as (Hr47 & _ & _ & _ & Hrd & _).
  split; [apply Hr10; left; reflexivity|].
  split; [apply Hr00; intros [E|E]; discriminate E|].
  split; [apply Hr47; left; reflexivity|].
  apply Hrd. reflexivity.
Defined.

(** The 10 by 10 grid of [initCity], evaluated in binary64: 49 buildings, the
    first on cell (0, 0) at (-45, -45) and a shop; 6 road strips, at the
    indices 1, 4 and 7. *)
Example layout_10_binary64 :
  List.length (createBuildings (ofZ 100 : float) 10) = 49%nat /\
  hd_error (createBuildings (ofZ 100 : float) 10)
  = Some {| cell_i := 0; cell_j := 0; buildingType := "shop";
            building_x := (-45)%float; building_z := (-45)%float |} /\
  map (fun rd => (road_i rd, horizontal rd)) (createRoads (ofZ 100 : float) 10)
  = [(1, true); (1, false); (4, true); (4, false); (7, true); (7, false)]%Z.
Proof. vm_compute. repeat split; reflexivity. Qed.

(** The spawn loops in binary64: nine signal cells on the 10 by 10 grid; a
    draw just below 1 gives phase 2, and the car of lane -2 starts inside the
    world driving in the positive direction. *)
Example spawn_binary64 :
  trafficLightCells 10
  = [(1, 1); (1, 4); (1, 7); (4, 1); (4, 4); (4, 7); (7, 1); (7, 4); (7, 7)]%Z /\
  state (spawnTrafficLight (ofZ 100 : float) 10 1 1 (dec 999 1000) (dec 1 2))
  = GREEN /\
  timer (spawnTrafficLight (ofZ 100 : float) 10 1 1 (dec 999 1000) (dec 1 2))
  = 5%float /\
  (let car := spawnCarHorizontal (ofZ 100 : float) 10 1 0 (dec 1 4) (dec 1 2) in
   (x (position (car_mesh car)), z (position (car_mesh car)),
    car_speed car, car_direction car)
   = ((-25)%float, (-42)%float, 0.2%float, 1%float)).
Proof. vm_compute. repeat split; reflexivity. Qed.

(** The street furniture of the 10 by 10 grid in binary64: 48 elements, 12 of
    them lampposts, and after the day/night update at sun height 15 (set
    directly, the sine not being computed in binary64) every lamppost has its
    light and its bulb at 0.5. *)
Example street_furniture_binary64 :
  let elements := createStreetElements (ofZ 100 : float) 10 in
  let isLamp (e : StreetElement float) :=
    match e with SE_lamppost _ => true | _ => false end in
  let after :=
    map (fun e => headlightsStreetElement (ofZ 15)
                    (updateStreetLight (ofZ 15) e)) elements in
  List.length elements = 48%nat /\
  List.length (filter isLamp elements) = 12%nat /\
  forallb (fun e => match e with
                    | SE_lamppost l =>
                        PrimFloat.eqb (light_intensity l) 0.5
                        && PrimFloat.eqb (bulb_emissiveIntensity l) 0.5
                    | _ => true
                    end) after = true.
Proof. vm_compute. repeat split; reflexivity. Qed.

(** * Further properties of the code *)

Set Warnings "-abstract-large-number".

(** ** Motion updater, continued *)

Lemma updatePedestrian_mesh (gridSize : R) (p : Pedestrian R) :
  let p' := updatePedestrian gridSize p in
  rotation_y (ped_mesh p')
  = (if String.eqb (ped_road p) "horizontal"
     then if Rgtb (ped_direction p) 0 then PI / 2 else - PI / 2
     else if Rgtb (ped_direction p) 0 then 0 else PI) /\
  y (position (ped_mesh p')) = y (position (ped_mesh p)) /\
  (if String.eqb (ped_road p) "horizontal"
   then z (position (ped_mesh p')) = z (position (ped_mesh p))
   else x (position (ped_mesh p')) = x (position (ped_mesh p))) /\
  ped_side p' = ped_side p /\ ped_roadIndex p' = ped_roadIndex p.
Proof.
  unfold updatePedestrian. js_unfold. cbn zeta.
  destruct (String.eqb (ped_road p) "horizontal");
    repeat match goal with |- context [if (?a && ?c)%bool then _ else _] =>
      destruct (a && c)%bool
    end; repeat split; reflexivity.
Qed.

(** X1.  [updatePedestrians] keeps the length and the order of the registry
    and turns every pedestrian to face the way it walks: on a horizontal road
    pi/2 when the direction is positive and -pi/2 otherwise, on any other
    road 0 when the direction is positive and pi otherwise.  It writes no
    other field but the moving coordinate: the height, the coordinate across
    the road, the side and the road index are as before. *)
Theorem pedestrians_face_their_direction (gridSize : R)
  (pedestrians : list (Pedestrian R)) :
  List.length (updatePedestrians pedestrians gridSize)
  = List.length pedestrians /\
  Forall2 (fun p p' =>
             (ped_road p = "horizontal"%string -> ped_direction p > 0 ->
              rotation_y (ped_mesh p') = PI / 2) /\
             (ped_road p = "horizontal"%string -> ped_direction p <= 0 ->
              rotation_y (ped_mesh p') = - (PI / 2)) /\
             (ped_road p <> "horizontal"%string -> ped_direction p > 0 ->
              rotation_y (ped_mesh p') = 0) /\
             (ped_road p <> "horizontal"%string -> ped_direction p <= 0 ->
              rotation_y (ped_mesh p') = PI) /\
             y (position (ped_mesh p')) = y (position (ped_mesh p)) /\
             (ped_road p = "horizontal"%string ->
              z (position (ped_mesh p')) = z (position (ped_mesh p))) /\
             (ped_road p <> "horizontal"%string ->
              x (position (ped_mesh p')) = x (position (ped_mesh p))) /\
             ped_side p' = ped_side p /\ ped_roadIndex p' = ped_roadIndex p)
    pedestrians (updatePedestrians pedestrians gridSize).
Proof.
  split; [apply length_map|].
  unfold updatePedestrians.
  apply Forall2_map_same with (P := fun _ => True);
    [|apply Forall_forall; auto].
  intros p _.
  destruct (updatePedestrian_mesh gridSize p) as (Hrot & Hy & Hcross & Hs & Hi).
  cbn zeta in *.
  destruct (String.eqb_spec (ped_road p) "horizontal") as [Hr|Hr].
  - repeat split; try assumption; try (intros; contradiction).
    + intros _ Hd. apply Rgtb_true in Hd. rewrite Hd in Hrot. exact Hrot.
    + intros _ Hd. apply Rgtb_false in Hd. rewrite Hd in Hrot.
      rewrite Hrot. lra.
    + intros _. exact Hcross.
  - repeat split; try assumption; try (intros; contradiction).
    + intros _ Hd. apply Rgtb_true in Hd. rewrite Hd in Hrot. exact Hrot.
    + intros _ Hd. apply Rgtb_false in Hd. rewrite Hd in Hrot. exact Hrot.
    + intros _. exact Hcross.
Qed.

Lemma pedestrians_face_their_direction_witness :
  rotation_y (ped_mesh (updatePedestrian (100 : R) edgePedestrian)) = 0.
Proof.
  destruct (pedestrians_face_their_direction 100 [edgePedestrian (A := R)])
    as [_ Hall].
  inversion Hall as [|p p' l l' (_ & _ & Hrot & _) Hrest Ep El]; subst.
  apply Hrot; cbn; [discriminate | lra].
Defined.

Lemma updateCar_mesh (gridSize : R) (car : Car R) :
  let car' := updateCar gridSize car in
  rotation_y (car_mesh car') = rotation_y (car_mesh car) /\
  y (position (car_mesh car')) = y (position (car_mesh car)) /\
  (if String.eqb (car_road car) "horizontal"
   then z (position (car_mesh car')) = z (position (car_mesh car))
   else x (position (car_mesh car')) = x (position (car_mesh car))) /\
  headlights car' = headlights car /\ car_roadIndex car' = car_roadIndex car.
Proof.
  unfold updateCar. cbn zeta.
  destruct (String.eqb (car_road car) "horizontal");
    repeat match goal with |- context [if (?a && ?c)%bool then _ else _] =>
      destruct (a && c)%bool
    end; repeat split; reflexivity.
Qed.






(** X3.  [updateCars] keeps the length and the order of the registry and, of
    a car, writes the moving coordinate only: the heading, the height, the
    coordinate across the road (the lane), the headlights and the road index
    are as before. *)
Theorem cars_keep_their_lane (gridSize : R) (cars : list (Car R)) :
  List.length (updateCars cars gridSize) = List.length cars /\
  Forall2 (fun car car' =>
             rotation_y (car_mesh car') = rotation_y (car_mesh car) /\
             y (position (car_mesh car')) = y (position (car_mesh car)) /\
             (car_road car = "horizontal"%string ->
              z (position (car_mesh car')) = z (position (car_mesh car))) /\
             (car_road car <> "horizontal"%string ->
              x (position (car_mesh car')) = x (position (car_mesh car))) /\
             headlights car' = headlights car /\
             car_roadIndex car' = car_roadIndex car)
    cars (updateCars cars gridSize).
Proof.
  split; [apply length_map|].
  unfold updateCars.
  apply Forall2_map_same with (P := fun _ => True);
    [|apply Forall_forall; auto].
  intros car _.
  destruct (updateCar_mesh gridSize car) as (Hrot & Hy & Hcross & Hh & Hi).
  cbn zeta in *.
  destruct (String.eqb_spec (car_road car) "horizontal") as [Hr|Hr];
    repeat split; try assumption; intros; try contradiction; assumption.
Qed.

(** ** Traffic signal controller, continued *)


Lemma frames_S_outer {A} `{Number A} (n : nat) (tl : TrafficLight A) :
  frames (S n) tl = updateTrafficLight (frames n tl).
Proof.
  replace (S n) with (n + 1)%nat by lia. rewrite frames_add. reflexivity.
Qed.



Lemma frames_mesh {A} `{Number A} (n : nat) (tl : TrafficLight A) :
  tl_mesh (frames n tl) = tl_mesh tl.
Proof.
  revert tl. induction n as [|n IH]; intros tl; cbn [frames]; [reflexivity|].
  rewrite IH. apply (updateTrafficLight_fields tl).
Qed.

Lemma TrafficLight_eq {A} (t1 t2 : TrafficLight A) :
  tl_mesh t1 = tl_mesh t2 -> tl_lights t1 = tl_lights t2 ->
  state t1 = state t2 -> timer t1 = timer t2 -> t1 = t2.
Proof.
  destruct t1, t2. cbn. intros -> -> -> ->. reflexivity.
Qed.

(** X5.  A signal in one of the phases 0, 1, 2 whose timer is 0 keeps its
    phase for 500 frames, changes it on the 501st, and after 1503 frames has
    gone through the three phases and is in the phase it started in with its
    timer at 0 again; if its lights showed that phase, it is then exactly the
    signal it was. *)
Theorem signal_cycle_is_1503_frames (tl : TrafficLight R) :
  (0 <= state tl < 3)%Z -> timer tl = 0 ->
  (forall k : nat, (k <= 500)%nat -> state (frames k tl) = state tl) /\
  state (frames 501 tl) = ((state tl + 1) mod 3)%Z /\
  state (frames 1002 tl) = ((state tl + 2) mod 3)%Z /\
  state (frames 1503 tl) = state tl /\
  timer (frames 1503 tl) = 0 /\
  flips 1503 tl = 3%nat /\
  (tl_lights tl = setLights (state tl) (tl_lights tl) -> frames 1503 tl = tl).
Proof.
  intros Hst Ht.
  assert (Hmod : forall s : Z, (0 <= s < 3)%Z ->
            Z.rem (s + 1) 3 = ((s + 1) mod 3)%Z /\ (0 <= (s + 1) mod 3 < 3)%Z).
  { intros s Hs. split; [apply Z.rem_mod_nonneg; lia|].
    apply Z.mod_pos_bound. lia. }
  assert (E2 : frames 1002 tl = frames 501 (frames 501 tl)).
  { change 1002%nat with (501 + 501)%nat. apply frames_add. }
  assert (E3 : frames 1503 tl = frames 501 (frames 1002 tl)).
  { change 1503%nat with (1002 + 501)%nat. apply frames_add. }
  assert (F3 : flips 1503 tl
               = (flips 501 tl + flips 501 (frames 501 tl)
                  + flips 501 (frames 1002 tl))%nat).
  { change 1503%nat with (1002 + 501)%nat. rewrite flips_add. f_equal.
    change 1002%nat with (501 + 501)%nat. apply flips_add. }
  destruct (period_501 tl Ht) as (Hs1 & Ht1 & Hf1).
  remember (frames 501 tl) as t1 eqn:D1.
  destruct (period_501 t1 Ht1) as (Hs2 & Ht2 & Hf2).
  rewrite <- E2 in Hs2, Ht2.
  remember (frames 1002 tl) as t2 eqn:D2.
  destruct (period_501 t2 Ht2) as (Hs3 & Ht3 & Hf3).
  rewrite <- E3 in Hs3, Ht3.
  destruct (Hmod (state tl) Hst) as [E1 B1]. rewrite E1 in Hs1.
  rewrite Hs1 in Hs2. destruct (Hmod _ B1) as [E2' B2]. rewrite E2' in Hs2.
  rewrite Zplus_mod_idemp_l in Hs2.
  rewrite Hs2 in Hs3. destruct (Hmod ((state tl + 1 + 1) mod 3)%Z) as [E3' _].
  { apply Z.mod_pos_bound. lia. }
  rewrite E3', Zplus_mod_idemp_l in Hs3.
  assert (Hback : state (frames 1503 tl) = state tl).
  { rewrite Hs3. replace (state tl + 1 + 1 + 1)%Z with (state tl + 1 * 3)%Z
      by lia. rewrite Z.mod_add by lia. apply Z.mod_small. exact Hst. }
  split; [|split; [|split; [|split; [|split; [|split]]]]].
  - intros k Hk. apply no_flip_run. rewrite Ht.
    assert (Hk' : INR k <= 500).
    { replace 500 with (INR 500) by (rewrite INR_IZR_INZ; reflexivity).
      apply le_INR. exact Hk. }
    lra.
  - exact Hs1.
  - rewrite Hs2. f_equal. lia.
  - exact Hback.
  - exact Ht3.
  - rewrite F3, Hf1, Hf2, Hf3. reflexivity.
  - intros Hlights. apply TrafficLight_eq.
    + apply frames_mesh.
    + rewrite E3. subst t2.
      assert (Hl : forall t : TrafficLight R,
                tl_lights (frames 501 t)
                = setLights (state (frames 501 t)) (tl_lights tl)).
      { intros t. change 501%nat with (S 500). rewrite frames_S_outer.
        destruct (updateTrafficLight_fields (frames 500 t))
          as (_ & _ & Hl & _).
        rewrite Hl. apply setLights_overwrites. }
      rewrite Hl, <- E3, Hback. symmetry. exact Hlights.
    + exact Hback.
    + rewrite Ht3, Ht. reflexivity.
Qed.

Lemma signal_cycle_is_1503_frames_witness :
  state (frames 501 (signal RED (0 : R))) = YELLOW /\
  state (frames 1002 (signal RED (0 : R))) = GREEN /\
  state (frames 1503 (signal RED (0 : R))) = RED.
Proof.
  assert (Hst : (0 <= state (signal RED (0 : R)) < 3)%Z)
    by (cbn; unfold RED; lia).
  destruct (@signal_cycle_is_1503_frames (signal RED 0) Hst eq_refl)
    as (_ & H1 & H2 & H3 & _).
  repeat split; assumption.
Defined.

(** ** Day/night cycle controller, continued *)







Lemma updateDayNightCycle_cars (dayProgress : R) (w : World R) :
  cars (updateDayNightCycle dayProgress w)
  = map (headlightsCar (sunHeightOf dayProgress)) (cars w).
Proof. reflexivity. Qed.

Lemma headlightsCar_value (h : R) (car : Car R) :
  headlights (headlightsCar h car) = if Rltb h 40 then 1 else 0.
Proof. reflexivity. Qed.

Lemma lampIntensity_positive (h : R) : 0 < lampIntensity h <-> h < 30.
Proof.
  destruct (Rlt_dec h 30) as [Hlt|Hge].
  - rewrite lampIntensity_low by exact Hlt. split; [auto|]. intros _.
    unfold Rmax. destruct (Rle_dec _ _); lra.
  - rewrite lampIntensity_high by lra. split; lra.
Qed.

(** X8.  After [updateDayNightCycle] the headlights of every car of the
    registry are at 1 when the sun height is below 40 and at 0 otherwise,
    whatever they were; the street lamps are lit (their intensity is
    positive) exactly when the height is below 30, so whenever a lamppost is
    lit all headlights are on. *)
Theorem headlights_follow_sun_height (dayProgress : R) (w : World R) :
  let h := sunHeightOf dayProgress in
  let w' := updateDayNightCycle dayProgress w in
  List.length (cars w') = List.length (cars w) /\
  (h < 40 -> Forall (fun car => headlights car = 1) (cars w')) /\
  (40 <= h -> Forall (fun car => headlights car = 0) (cars w')) /\
  (forall l : Lamppost R,
     In (SE_lamppost l) (streetElements w') ->
     (0 < light_intensity l <-> h < 30) /\
     (0 < light_intensity l ->
      Forall (fun car => headlights car = 1) (cars w'))).
Proof.
  cbn zeta. rewrite updateDayNightCycle_cars.
  assert (Hon : sunHeightOf dayProgress < 40 ->
                Forall (fun car : Car R => headlights car = 1)
                  (map (headlightsCar (sunHeightOf dayProgress)) (cars w))).
  { intros Hh. rewrite Forall_map. apply Forall_forall. intros car _.
    rewrite headlightsCar_value. apply Rltb_true in Hh. rewrite Hh.
    reflexivity. }
  split; [apply length_map|]. split; [exact Hon|]. split.
  - intros Hh. rewrite Forall_map. apply Forall_forall. intros car _.
    rewrite headlightsCar_value. apply Rltb_false in Hh. rewrite Hh.
    reflexivity.
  - intros l Hin.
    rewrite updateDayNightCycle_streetElements in Hin.
    apply in_map_iff in Hin. destruct Hin as (e & He & _).
    rewrite streetElement_after in He.
    destruct e; inversion He; subst; cbn [light_intensity].
    split; [apply lampIntensity_positive|].
    intros Hpos. apply Hon.
    pose proof (proj1 (lampIntensity_positive _) Hpos) as Hlow.
    rewrite sunHeightOf_R, sunAngleOf_R. lra.
Qed.

Lemma headlights_follow_sun_height_witness :
  Forall (fun car : Car R => headlights car = 1)
    (cars (updateDayNightCycle (1 / 6) world0)) /\
  Forall (fun car : Car R => headlights car = 0)
    (cars (updateDayNightCycle (1 / 2) world0)).
Proof.
  destruct (headlights_follow_sun_height (1 / 6) (world0 (A := R)))
    as (_ & Hon & _).
  destruct (headlights_follow_sun_height (1 / 2) (world0 (A := R)))
    as (_ & _ & Hoff & _).
  cbn zeta in *. destruct sun_at_half as [_ Eh]. destruct sun_at_sixth as [_ Es].
  rewrite Es in Hon. rewrite Eh in Hoff.
  split; [apply Hon | apply Hoff]; lra.
Defined.

(** X9.  [updateDayNightCycle] keeps no memory of earlier calls, for every
    number type: calling it with one day progress and then with another
    leaves the scene as the second call alone would; in particular calling
    it twice with the same progress is calling it once. *)
Theorem day_night_update_overwrites {A : Type} {N : Number A} {T : Trig A}
  (dayProgress1 dayProgress2 : A) (w : World A) :
  updateDayNightCycle dayProgress2 (updateDayNightCycle dayProgress1 w)
  = updateDayNightCycle dayProgress2 w /\
  updateDayNightCycle dayProgress1 (updateDayNightCycle dayProgress1 w)
  = updateDayNightCycle dayProgress1 w.
Proof.
  assert (Hgen : forall d1 d2 : A,
            updateDayNightCycle d2 (updateDayNightCycle d1 w)
            = updateDayNightCycle d2 w).
  { intros d1 d2. unfold updateDayNightCycle.
    cbn [buildings cars trafficLights pedestrians streetElements].
    f_equal.
    - rewrite map_map. apply map_ext. intros c. reflexivity.
    - rewrite map_map. apply map_ext. intros t. reflexivity.
    - rewrite !map_map. apply map_ext. intros e.
      destruct e; reflexivity. }
  split; apply Hgen.
Qed.

Lemma skyColor_channels (h : R) :
  r (skyColor h)
  = (if Rgtb h 80 then 135 / 255
     else if Rgtb h 25
          then 255 / 255 + (135 / 255 - 255 / 255) * ((h - 25) / 55)
          else if Rgtb h 0 then 0 / 255 + (255 / 255 - 0 / 255) * (h / 25)
               else 0 / 255) /\
  g (skyColor h)
  = (if Rgtb h 80 then 206 / 255
     else if Rgtb h 25
          then 127 / 255 + (206 / 255 - 127 / 255) * ((h - 25) / 55)
          else if Rgtb h 0 then 0 / 255 + (127 / 255 - 0 / 255) * (h / 25)
               else 0 / 255) /\
  b (skyColor h)
  = (if Rgtb h 80 then 235 / 255
     else if Rgtb h 25
          then 80 / 255 + (235 / 255 - 80 / 255) * ((h - 25) / 55)
          else if Rgtb h 0 then 51 / 255 + (80 / 255 - 51 / 255) * (h / 25)
               else 51 / 255).
Proof.
  rewrite skyColor_R. destruct skyColors_R as (-> & -> & ->).
  destruct (Rgtb h 80), (Rgtb h 25), (Rgtb h 0); repeat split; reflexivity.
Qed.

Ltac sky_split h c :=
  let E := fresh "E" in
  destruct (Rgtb h c) eqn:E;
  [apply Rgtb_true in E | apply Rgtb_false in E].

Ltac sky_cases h :=
  destruct (skyColor_channels h) as (-> & -> & ->);
  sky_split h 80; sky_split h 25; sky_split h 0; try lra.

(** X10.  The sky colour [updateDayNightCycle] writes is a valid colour and a
    continuous function of the sun height: every channel lies in [0, 1], and
    for any two sun heights the channels differ by at most a 25th of the
    difference of the heights, so there is no jump at 0, 25 or 80 either. *)
Theorem sky_colour_has_no_jump (h1 h2 : R) :
  colorDist (skyColor h1) (skyColor h2) <= Rabs (h1 - h2) / 25 /\
  (0 <= r (skyColor h1) <= 1 /\ 0 <= g (skyColor h1) <= 1 /\
   0 <= b (skyColor h1) <= 1).
Proof.
  split.
  - unfold colorDist.
    assert (Habs : Rabs (h1 - h2) = Rmax (h1 - h2) (h2 - h1)).
    { unfold Rabs, Rmax. destruct (Rcase_abs _), (Rle_dec _ _); lra. }
    assert (Hl := Rmax_l (h1 - h2) (h2 - h1)).
    assert (Hr := Rmax_r (h1 - h2) (h2 - h1)).
    rewrite Habs. set (d := Rmax (h1 - h2) (h2 - h1)) in *.
    sky_cases h1; sky_cases h2;
      (apply Rmax_lub; [|apply Rmax_lub]); apply Rabs_le; lra.
  - sky_cases h1.
Qed.

(** ** Layout planner, continued *)

Lemma loop_S (n : nat) :
  loop (Z.of_nat (S n)) = loop (Z.of_nat n) ++ [Z.of_nat n].
Proof.
  unfold loop. rewrite !Nat2Z.id, seq_S, map_app. reflexivity.
Qed.

Lemma length_loop (n : Z) : List.length (loop n) = Z.to_nat n.
Proof. unfold loop. rewrite length_map, length_seq. reflexivity. Qed.

(** The number of road indices below [n] is the integer part of (n+1)/3. *)
Lemma count_roadIndex (n : nat) :
  List.length (filter roadIndex (loop (Z.of_nat n)))
  = Z.to_nat ((Z.of_nat n + 1) / 3).
Proof.
  induction n as [|n IH]; [reflexivity|].
  rewrite loop_S, filter_app, length_app, IH. cbn [filter].
  unfold roadIndex. rewrite Z.rem_mod_nonneg by lia.
  assert (H0 : (0 <= (Z.of_nat n + 1) / 3)%Z) by (apply Z.div_pos; lia).
  destruct (Z.eqb_spec (Z.of_nat n mod 3) 1) as [E|E]; cbn [List.length].
  - assert (Hdiv : ((Z.of_nat (S n) + 1) / 3 = (Z.of_nat n + 1) / 3 + 1)%Z)
      by (rewrite Nat2Z.inj_succ; Z.to_euclidean_division_equations; lia).
    rewrite Hdiv. lia.
  - assert (Hdiv : ((Z.of_nat (S n) + 1) / 3 = (Z.of_nat n + 1) / 3)%Z)
      by (rewrite Nat2Z.inj_succ; Z.to_euclidean_division_equations; lia).
    rewrite Hdiv. lia.
Qed.

Lemma filter_negb_length {X : Type} (f : X -> bool) (l : list X) :
  (List.length (filter (fun a => negb (f a)) l)
   = List.length l - List.length (filter f l))%nat.
Proof.
  induction l as [|a l IH]; [reflexivity|].
  cbn [filter]. pose proof (filter_length_le f l) as Hle.
  destruct (f a); cbn [negb List.length]; lia.
Qed.

Lemma filter_prod_length {X Y : Type} (p : X -> bool) (q : Y -> bool)
  (l1 : list X) (l2 : list Y) :
  List.length (filter (fun c => p (fst c) && q (snd c)) (list_prod l1 l2))
  = (List.length (filter p l1) * List.length (filter q l2))%nat.
Proof.
  induction l1 as [|a l1 IH]; [reflexivity|].
  cbn [list_prod filter]. rewrite filter_app, length_app, IH.
  assert (Hrow : List.length
                   (filter (fun c => p (fst c) && q (snd c))
                      (map (fun b => (a, b)) l2))
                 = if p a then List.length (filter q l2) else 0%nat).
  { clear IH. induction l2 as [|b l2 IH2]; [destruct (p a); reflexivity|].
    cbn [map filter fst snd].
    destruct (p a), (q b); cbn [andb List.length] in *; rewrite ?IH2;
      reflexivity. }
  rewrite Hrow. destruct (p a); cbn [List.length]; lia.
Qed.

Lemma road_pairs (l1 l2 : list Z) :
  flat_map (fun i =>
    if negb (Z.rem i 3 =? 1)%Z then []
    else flat_map (fun j => if negb (Z.rem j 3 =? 1)%Z then [] else [(i, j)])
           l2) l1
  = list_prod (filter roadIndex l1) (filter roadIndex l2).
Proof.
  induction l1 as [|i l1 IH]; [reflexivity|].
  cbn [flat_map filter]. rewrite IH.
  change (roadIndex i) with (Z.rem i 3 =? 1)%Z.
  destruct (Z.rem i 3 =? 1)%Z; cbn [negb list_prod app]; [|reflexivity].
  f_equal. clear. induction l2 as [|j l2 IH]; [reflexivity|].
  cbn [flat_map filter]. change (roadIndex j) with (Z.rem j 3 =? 1)%Z.
  destruct (Z.rem j 3 =? 1)%Z; cbn [negb map app]; rewrite IH; reflexivity.
Qed.

Lemma trafficLightCells_prod (gridDivisions : Z) :
  trafficLightCells gridDivisions
  = list_prod (filter roadIndex (loop gridDivisions))
      (filter roadIndex (loop gridDivisions)).
Proof. apply road_pairs. Qed.

Lemma road_index_count (gridDivisions : Z) :
  (0 <= gridDivisions)%Z ->
  List.length (filter roadIndex (loop gridDivisions))
  = Z.to_nat ((gridDivisions + 1) / 3) /\
  (0 <= (gridDivisions + 1) / 3 <= gridDivisions)%Z.
Proof.
  intros HN. split.
  - rewrite <- (Z2Nat.id gridDivisions) at 1 by exact HN.
    rewrite count_roadIndex, Z2Nat.id by exact HN. reflexivity.
  - split; [apply Z.div_pos; lia|].
    destruct (Z.eq_dec gridDivisions 0) as [->|Hne]; [reflexivity|].
    apply Z.div_le_upper_bound; lia.
Qed.

Lemma createBuildings_count (gridSize : R) (gridDivisions : Z) :
  (0 <= gridDivisions)%Z ->
  Z.of_nat (List.length (createBuildings gridSize gridDivisions))
  = ((gridDivisions - (gridDivisions + 1) / 3)
     * (gridDivisions - (gridDivisions + 1) / 3))%Z.
Proof.
  intros HN. destruct (road_index_count HN) as [Hk Hk0].
  rewrite <- (length_map (fun bd : Building R => (cell_i bd, cell_j bd))).
  unfold createBuildings. cbn zeta.
  rewrite (nested_loops_map
             (fun a c => (Z.rem a 3 =? 1)%Z || (Z.rem c 3 =? 1)%Z) _
             (fun bd : Building R => (cell_i bd, cell_j bd)) pair)
    by reflexivity.
  rewrite length_map.
  rewrite (filter_ext _ (fun c : Z * Z => negb (roadIndex (fst c))
                                        && negb (roadIndex (snd c))))
    by (intros [a c]; apply negb_orb).
  rewrite (filter_prod_length (fun a => negb (roadIndex a))
             (fun a => negb (roadIndex a))).
  rewrite filter_negb_length, Hk, length_loop.
  rewrite Nat2Z.inj_mul, Nat2Z.inj_sub, !Z2Nat.id by lia. reflexivity.
Qed.

(** X11.  On a grid of [gridDivisions] >= 0 cells a side there are
    k = (gridDivisions + 1) / 3 (rounded down) road indices; [createRoads]
    lays 2k strips and creates its traffic lights on the k^2 pairs of road
    indices, and [createBuildings] requests (gridDivisions - k)^2 buildings.
    For the 10 by 10 grid of [initCity] that is 6 strips, 9 signals and 49
    buildings. *)
Theorem layout_counts (gridSize : R) (gridDivisions : Z) :
  (0 <= gridDivisions)%Z ->
  let k := ((gridDivisions + 1) / 3)%Z in
  Z.of_nat (List.length (createRoads gridSize gridDivisions)) = (2 * k)%Z /\
  Z.of_nat (List.length (trafficLightCells gridDivisions)) = (k * k)%Z /\
  Z.of_nat (List.length (createBuildings gridSize gridDivisions))
  = ((gridDivisions - k) * (gridDivisions - k))%Z /\
  (forall i j, In (i, j) (trafficLightCells gridDivisions) <->
     (0 <= i < gridDivisions /\ 0 <= j < gridDivisions /\
      i mod 3 = 1 /\ j mod 3 = 1)%Z).
Proof.
  intros HN. cbn zeta. destruct (road_index_count HN) as [Hk Hk0].
  split; [|split; [|split]].
  - rewrite <- (length_map (fun rd : Road R => (road_i rd, horizontal rd))).
    rewrite createRoads_pairs.
    assert (Hfm : forall l : list Z,
              List.length (flat_map (fun i => [(i, true); (i, false)]) l)
              = (2 * List.length l)%nat).
    { induction l as [|a l IH]; [reflexivity|].
      cbn [flat_map app List.length]. rewrite IH. lia. }
    rewrite Hfm, Hk. lia.
  - rewrite trafficLightCells_prod, length_prod, Hk.
    rewrite Nat2Z.inj_mul, !Z2Nat.id by lia. reflexivity.
  - apply createBuildings_count, HN.
  - intros i j. rewrite trafficLightCells_prod, in_prod_iff, !filter_In,
      !In_loop.
    split.
    + intros [[Hi Hri] [Hj Hrj]].
      apply roadIndex_mod in Hri; [|lia]. apply roadIndex_mod in Hrj; [|lia].
      auto.
    + intros (Hi & Hj & Hri & Hrj).
      repeat split; try lia; apply roadIndex_mod; lia || assumption.
Qed.

Lemma layout_counts_witness :
  List.length (createRoads (100 : R) 10) = 6%nat /\
  List.length (trafficLightCells 10) = 9%nat /\
  List.length (createBuildings (100 : R) 10) = 49%nat.
Proof.
  assert (HN : (0 <= 10)%Z) by lia.
  destruct (@layout_counts 100 10 HN) as (Hr & Ht & Hb & _).
  cbn zeta in *. change ((10 + 1) / 3)%Z with 3%Z in *.
  repeat split; lia.
Defined.

(** ** The registries of [initCity] *)

Lemma fold_left_inv {S X : Type} (I : S -> Prop) (f : S -> X -> S)
  (l : list X) (s : S) :
  (forall s' a, I s' -> I (f s' a)) -> I s -> I (fold_left f l s).
Proof.
  intros Hf. revert s. induction l as [|a l IH]; intros s Hs; cbn [fold_left];
    [exact Hs | apply IH, Hf, Hs].
Qed.

Lemma fold_left_count {S X : Type} (m : S -> nat) (f : S -> X -> S)
  (c : X -> nat) (l : list X) (s : S) :
  (forall s' a, m (f s' a) = (m s' + c a)%nat) ->
  m (fold_left f l s) = (m s + list_sum (map c l))%nat.
Proof.
  intros Hf. revert s. induction l as [|a l IH]; intros s; simpl; [lia|].
  rewrite IH, Hf. lia.
Qed.

Lemma list_sum_filter {X : Type} (p : X -> bool) (k : nat) (l : list X) :
  list_sum (map (fun a => if p a then k else 0%nat) l)
  = (k * List.length (filter p l))%nat.
Proof.
  induction l as [|a l IH]; simpl; [lia|].
  change (fold_right Nat.add 0%nat
            (map (fun a0 => if p a0 then k else 0%nat) l))
    with (list_sum (map (fun a0 => if p a0 then k else 0%nat) l)).
  rewrite IH. destruct (p a); simpl; lia.
Qed.

Lemma list_sum_const {X : Type} (k : nat) (l : list X) :
  list_sum (map (fun _ => k) l) = (k * List.length l)%nat.
Proof.
  induction l as [|a l IH]; simpl; [lia|].
  change (fold_right Nat.add 0%nat (map (fun _ : X => k) l))
    with (list_sum (map (fun _ : X => k) l)).
  rewrite IH. lia.
Qed.

Section Spawned.
Variable random : nat -> R.
Hypothesis random_range : forall k : nat, 0 <= random k < 1.
Variable gridSize : R.
Hypothesis gridSize_nonneg : 0 <= gridSize.
Variable gridDivisions : Z.

Lemma spawned_car_horizontal (i c : Z) (n1 n2 : nat) :
  CarAsSpawned gridSize
    (spawnCarHorizontal gridSize gridDivisions i c (random n1) (random n2)).
Proof.
  pose proof (random_range n1) as H1. pose proof (random_range n2) as H2.
  unfold CarAsSpawned, CarInBounds, inBounds. cbn.
  repeat split; try lra; try nra.
  destruct (Z.rem c 2 =? 0)%Z; cbn; [left | right]; lra.
Qed.

Lemma spawned_car_vertical (i c : Z) (n1 n2 : nat) :
  CarAsSpawned gridSize
    (spawnCarVertical gridSize gridDivisions i c (random n1) (random n2)).
Proof.
  pose proof (random_range n1) as H1. pose proof (random_range n2) as H2.
  unfold CarAsSpawned, CarInBounds, inBounds. cbn.
  repeat split; try lra; try nra.
  destruct (Z.rem c 2 =? 0)%Z; cbn; [left | right]; lra.
Qed.

Lemma spawned_pedestrian_horizontal (i : Z) (n1 n2 n3 n4 : nat) :
  PedestrianAsSpawned gridSize
    (spawnPedestrianHorizontal gridSize gridDivisions i
       (random n1) (random n2) (random n3) (random n4)).
Proof.
  pose proof (random_range n2) as H2. pose proof (random_range n3) as H3.
  unfold PedestrianAsSpawned, PedestrianInBounds, inBounds. cbn.
  repeat split; try lra; try nra.
  destruct (Rgtb (random n4) (1 / 2)); [left | right]; lra.
Qed.

Lemma spawned_pedestrian_vertical (i : Z) (n1 n2 n3 n4 : nat) :
  PedestrianAsSpawned gridSize
    (spawnPedestrianVertical gridSize gridDivisions i
       (random n1) (random n2) (random n3) (random n4)).
Proof.
  pose proof (random_range n2) as H2. pose proof (random_range n3) as H3.
  unfold PedestrianAsSpawned, PedestrianInBounds, inBounds. cbn.
  repeat split; try lra; try nra.
  destruct (Rgtb (random n4) (1 / 2)); [left | right]; lra.
Qed.

Lemma spawned_light (i j : Z) (n1 n2 : nat) :
  LightAsSpawned
    (spawnTrafficLight gridSize gridDivisions i j (random n1) (random n2)).
Proof.
  split; [apply spawned_signal_phase, random_range|].
  pose proof (random_range n2) as H2. cbn. lra.
Qed.

Lemma pushCarHorizontal_spawned (i c : Z) (s : Registries R) :
  RegistriesAsSpawned gridSize s ->
  RegistriesAsSpawned gridSize
    (pushCarHorizontal random gridSize gridDivisions i s c) /\
  List.length (reg_cars (pushCarHorizontal random gridSize gridDivisions i s c))
  = S (List.length (reg_cars s)) /\
  reg_lights (pushCarHorizontal random gridSize gridDivisions i s c)
  = reg_lights s.
Proof.
  intros [Hc Hl]. unfold pushCarHorizontal.
  destruct (createCar random (calls s)) as [color n].
  cbn [reg_cars reg_lights]. split; [split; [|exact Hl]|split].
  - apply Forall_app. split; [exact Hc|].
    constructor; [apply spawned_car_horizontal | constructor].
  - rewrite length_app. cbn [List.length]. lia.
  - reflexivity.
Qed.

Lemma pushCarVertical_spawned (i c : Z) (s : Registries R) :
  RegistriesAsSpawned gridSize s ->
  RegistriesAsSpawned gridSize
    (pushCarVertical random gridSize gridDivisions i s c) /\
  List.length (reg_cars (pushCarVertical random gridSize gridDivisions i s c))
  = S (List.length (reg_cars s)) /\
  reg_lights (pushCarVertical random gridSize gridDivisions i s c)
  = reg_lights s.
Proof.
  intros [Hc Hl]. unfold pushCarVertical.
  destruct (createCar random (calls s)) as [color n].
  cbn [reg_cars reg_lights]. split; [split; [|exact Hl]|split].
  - apply Forall_app. split; [exact Hc|].
    constructor; [apply spawned_car_vertical | constructor].
  - rewrite length_app. cbn [List.length]. lia.
  - reflexivity.
Qed.

Lemma pushTrafficLight_spawned (i j : Z) (s : Registries R) :
  RegistriesAsSpawned gridSize s ->
  RegistriesAsSpawned gridSize
    (pushTrafficLight random gridSize gridDivisions i s j) /\
  reg_cars (pushTrafficLight random gridSize gridDivisions i s j)
  = reg_cars s /\
  List.length
    (reg_lights (pushTrafficLight random gridSize gridDivisions i s j))
  = (List.length (reg_lights s) + (if roadIndex j then 1 else 0))%nat.
Proof.
  intros [Hc Hl]. unfold pushTrafficLight, roadIndex.
  destruct (Z.rem j 3 =? 1)%Z; cbn [negb reg_cars reg_lights].
  - split; [split; [exact Hc|]|split].
    + apply Forall_app. split; [exact Hl|].
      constructor; [apply spawned_light | constructor].
    + reflexivity.
    + rewrite length_app. reflexivity.
  - split; [split; assumption|]. split; [reflexivity|lia].
Qed.

(** What one road index adds to the registries. *)
Lemma road_step_spawned (i : Z) (s : Registries R) :
  RegistriesAsSpawned gridSize s ->
  let s' :=
    fold_left (pushTrafficLight random gridSize gridDivisions i)
      (loop gridDivisions)
      (fold_left (pushCarVertical random gridSize gridDivisions i) (loop 3)
         (fold_left (pushCarHorizontal random gridSize gridDivisions i)
            (loop 3) s)) in
  RegistriesAsSpawned gridSize s' /\
  List.length (reg_cars s') = (List.length (reg_cars s) + 6)%nat /\
  List.length (reg_lights s')
  = (List.length (reg_lights s)
     + List.length (filter roadIndex (loop gridDivisions)))%nat.
Proof.
  intros Hs. cbn zeta.
  set (sH := fold_left (pushCarHorizontal random gridSize gridDivisions i)
               (loop 3) s).
  set (sV := fold_left (pushCarVertical random gridSize gridDivisions i)
               (loop 3) sH).
  assert (HH : RegistriesAsSpawned gridSize sH
               /\ List.length (reg_cars sH) = (List.length (reg_cars s) + 3)%nat
               /\ reg_lights sH = reg_lights s).
  { subst sH. change (loop 3) with [0%Z; 1%Z; 2%Z]. cbn [fold_left].
    destruct (@pushCarHorizontal_spawned i 0 s Hs) as (O1 & L1 & R1).
    destruct (@pushCarHorizontal_spawned i 1 _ O1) as (O2 & L2 & R2).
    destruct (@pushCarHorizontal_spawned i 2 _ O2) as (O3 & L3 & R3).
    split; [exact O3|]. split; [lia | congruence]. }
  destruct HH as (OH & LH & RH).
  assert (HV : RegistriesAsSpawned gridSize sV
               /\ List.length (reg_cars sV) = (List.length (reg_cars sH) + 3)%nat
               /\ reg_lights sV = reg_lights sH).
  { subst sV. change (loop 3) with [0%Z; 1%Z; 2%Z]. cbn [fold_left].
    destruct (@pushCarVertical_spawned i 0 sH OH) as (O1 & L1 & R1).
    destruct (@pushCarVertical_spawned i 1 _ O1) as (O2 & L2 & R2).
    destruct (@pushCarVertical_spawned i 2 _ O2) as (O3 & L3 & R3).
    split; [exact O3|]. split; [lia | congruence]. }
  destruct HV as (OV & LV & RV).
  split; [|split].
  - apply fold_left_inv; [|exact OV].
    intros s' j Hs'. apply pushTrafficLight_spawned, Hs'.
  - assert (Hcars : forall l s0,
              reg_cars (fold_left
                          (pushTrafficLight random gridSize gridDivisions i)
                          l s0) = reg_cars s0).
    { induction l as [|j l IH]; intros s0; cbn [fold_left]; [reflexivity|].
      rewrite IH. unfold pushTrafficLight.
      destruct (negb (Z.rem j 3 =? 1)%Z); reflexivity. }
    rewrite Hcars. lia.
  - assert (Hlights : forall l s0,
              List.length
                (reg_lights (fold_left
                               (pushTrafficLight random gridSize
                                  gridDivisions i) l s0))
              = (List.length (reg_lights s0)
                 + List.length (filter roadIndex l))%nat).
    { induction l as [|j l IH]; intros s0; cbn [fold_left filter];
        [cbn; lia|].
      rewrite IH. unfold pushTrafficLight, roadIndex.
      destruct (Z.rem j 3 =? 1)%Z; cbn [negb reg_lights List.length];
        [rewrite length_app; cbn [List.length]|]; lia. }
    rewrite Hlights, RV, RH. reflexivity.
Qed.

Lemma createRoadRegistries_spawned (n : nat) :
  let regs := createRoadRegistries random gridSize gridDivisions n in
  RegistriesAsSpawned gridSize regs /\
  List.length (reg_cars regs)
  = (6 * List.length (filter roadIndex (loop gridDivisions)))%nat /\
  List.length (reg_lights regs)
  = (List.length (filter roadIndex (loop gridDivisions))
     * List.length (filter roadIndex (loop gridDivisions)))%nat.
Proof.
  cbn zeta. unfold createRoadRegistries.
  set (k := List.length (filter roadIndex (loop gridDivisions))).
  set (step := fun (s : Registries R) (i : Z) =>
                 if negb (Z.rem i 3 =? 1)%Z then s
                 else
                   fold_left (pushTrafficLight random gridSize gridDivisions i)
                     (loop gridDivisions)
                     (fold_left
                        (pushCarVertical random gridSize gridDivisions i)
                        (loop 3)
                        (fold_left
                           (pushCarHorizontal random gridSize gridDivisions i)
                           (loop 3) s))).
  change (fold_left _ (loop gridDivisions) ?s0)
    with (fold_left step (loop gridDivisions) s0).
  assert (Hgen : forall l s0,
            RegistriesAsSpawned gridSize s0 ->
            RegistriesAsSpawned gridSize (fold_left step l s0) /\
            List.length (reg_cars (fold_left step l s0))
            = (List.length (reg_cars s0)
               + 6 * List.length (filter roadIndex l))%nat /\
            List.length (reg_lights (fold_left step l s0))
            = (List.length (reg_lights s0)
               + k * List.length (filter roadIndex l))%nat).
  { induction l as [|i l IH]; intros s0 Hs0; cbn [fold_left filter].
    - cbn [List.length]. split; [exact Hs0|]. split; lia.
    - assert (Hstep : step s0 i
                      = if roadIndex i
                        then
                          fold_left
                            (pushTrafficLight random gridSize gridDivisions i)
                            (loop gridDivisions)
                            (fold_left
                               (pushCarVertical random gridSize
                                  gridDivisions i) (loop 3)
                               (fold_left
                                  (pushCarHorizontal random gridSize
                                     gridDivisions i) (loop 3) s0))
                        else s0).
      { unfold step, roadIndex. destruct (Z.rem i 3 =? 1)%Z; reflexivity. }
      rewrite Hstep. destruct (roadIndex i).
      + destruct (@road_step_spawned i s0 Hs0) as (O1 & L1 & R1).
        cbn zeta in O1, L1, R1.
        destruct (IH _ O1) as (O2 & L2 & R2).
        split; [exact O2|]. cbn [List.length]. fold k in R1.
        rewrite L2, R2, L1, R1, Nat.mul_succ_r. split; lia.
      + apply IH, Hs0. }
  destruct (Hgen (loop gridDivisions)
              {| calls := n; reg_cars := []; reg_lights := [] |})
    as (O & L & Rr).
  { split; constructor. }
  fold k in L, Rr. cbn [reg_cars reg_lights List.length] in L, Rr.
  split; [exact O|]. split; lia.
Qed.

End Spawned.

Section SpawnedPedestrians.
Variable random : nat -> R.
Hypothesis random_range : forall k : nat, 0 <= random k < 1.
Variable gridSize : R.
Hypothesis gridSize_nonneg : 0 <= gridSize.
Variable gridDivisions : Z.

Lemma pushPedestrian_spawned (i p : Z) (s : list (Pedestrian R) * nat) :
  Forall (PedestrianAsSpawned gridSize) (fst s) ->
  (Forall (PedestrianAsSpawned gridSize)
     (fst (pushPedestrianHorizontal random gridSize gridDivisions i s p)) /\
   List.length
     (fst (pushPedestrianHorizontal random gridSize gridDivisions i s p))
   = S (List.length (fst s))) /\
  (Forall (PedestrianAsSpawned gridSize)
     (fst (pushPedestrianVertical random gridSize gridDivisions i s p)) /\
   List.length
     (fst (pushPedestrianVertical random gridSize gridDivisions i s p))
   = S (List.length (fst s))).
Proof.
  intros Hs. unfold pushPedestrianHorizontal, pushPedestrianVertical.
  destruct (createPedestrian random (snd s)) as [color n]. cbn [fst].
  rewrite !length_app. cbn [List.length].
  repeat split; try lia; apply Forall_app; (split; [exact Hs|]);
    (constructor; [|constructor]).
  - apply spawned_pedestrian_horizontal; assumption.
  - apply spawned_pedestrian_vertical; assumption.
Qed.

Lemma pushPedestrians_six (i : Z) (s : list (Pedestrian R) * nat) :
  Forall (PedestrianAsSpawned gridSize) (fst s) ->
  let s' :=
    fold_left (pushPedestrianVertical random gridSize gridDivisions i)
      (loop 6)
      (fold_left (pushPedestrianHorizontal random gridSize gridDivisions i)
         (loop 6) s) in
  Forall (PedestrianAsSpawned gridSize) (fst s') /\
  List.length (fst s') = (List.length (fst s) + 12)%nat.
Proof.
  intros Hs. cbn zeta.
  assert (HH : forall l s0,
            Forall (PedestrianAsSpawned gridSize) (fst s0) ->
            Forall (PedestrianAsSpawned gridSize)
              (fst (fold_left
                      (pushPedestrianHorizontal random gridSize
                         gridDivisions i) l s0)) /\
            List.length
              (fst (fold_left
                      (pushPedestrianHorizontal random gridSize
                         gridDivisions i) l s0))
            = (List.length (fst s0) + List.length l)%nat).
  { induction l as [|p l IH]; intros s0 Hs0; cbn [fold_left List.length].
    - split; [exact Hs0 | lia].
    - destruct (@pushPedestrian_spawned i p s0 Hs0) as [[O L] _].
      destruct (IH _ O) as [O' L']. split; [exact O'|]. rewrite L', L. lia. }
  assert (HV : forall l s0,
            Forall (PedestrianAsSpawned gridSize) (fst s0) ->
            Forall (PedestrianAsSpawned gridSize)
              (fst (fold_left
                      (pushPedestrianVertical random gridSize
                         gridDivisions i) l s0)) /\
            List.length
              (fst (fold_left
                      (pushPedestrianVertical random gridSize
                         gridDivisions i) l s0))
            = (List.length (fst s0) + List.length l)%nat).
  { induction l as [|p l IH]; intros s0 Hs0; cbn [fold_left List.length].
    - split; [exact Hs0 | lia].
    - destruct (@pushPedestrian_spawned i p s0 Hs0) as [_ [O L]].
      destruct (IH _ O) as [O' L']. split; [exact O'|]. rewrite L', L. lia. }
  destruct (HH (loop 6) s Hs) as [O1 L1].
  destruct (HV (loop 6) _ O1) as [O2 L2].
  split; [exact O2|]. rewrite L2, L1, !length_loop. lia.
Qed.

Lemma createPedestrians_spawned (n : nat) :
  let peds := fst (createPedestrians random gridSize gridDivisions n) in
  Forall (PedestrianAsSpawned gridSize) peds /\
  List.length peds
  = (12 * List.length (filter roadIndex (loop gridDivisions)))%nat.
Proof.
  cbn zeta. unfold createPedestrians.
  set (step := fun (s : list (Pedestrian R) * nat) (i : Z) =>
                 if negb (Z.rem i 3 =? 1)%Z then s
                 else
                   fold_left
                     (pushPedestrianVertical random gridSize gridDivisions i)
                     (loop 6)
                     (fold_left
                        (pushPedestrianHorizontal random gridSize
                           gridDivisions i) (loop 6) s)).
  change (fold_left _ (loop gridDivisions) ?s0)
    with (fold_left step (loop gridDivisions) s0).
  assert (Hgen : forall l s0,
            Forall (PedestrianAsSpawned gridSize) (fst s0) ->
            Forall (PedestrianAsSpawned gridSize) (fst (fold_left step l s0)) /\
            List.length (fst (fold_left step l s0))
            = (List.length (fst s0)
               + 12 * List.length (filter roadIndex l))%nat).
  { induction l as [|i l IH]; intros s0 Hs0; cbn [fold_left filter].
    - cbn [List.length]. split; [exact Hs0 | lia].
    - assert (Hstep : step s0 i
                      = if roadIndex i
                        then
                          fold_left
                            (pushPedestrianVertical random gridSize
                               gridDivisions i) (loop 6)
                            (fold_left
                               (pushPedestrianHorizontal random gridSize
                                  gridDivisions i) (loop 6) s0)
                        else s0).
      { unfold step, roadIndex. destruct (Z.rem i 3 =? 1)%Z; reflexivity. }
      rewrite Hstep. destruct (roadIndex i).
      + destruct (@pushPedestrians_six i s0 Hs0) as [O1 L1].
        cbn zeta in O1, L1. destruct (IH _ O1) as [O2 L2].
        split; [exact O2|]. cbn [List.length]. rewrite L2, L1. lia.
      + apply IH, Hs0. }
  destruct (Hgen (loop gridDivisions) ([], n)) as [O L]; [constructor|].
  split; [exact O|]. rewrite L. cbn [fst List.length]. lia.
Qed.

End SpawnedPedestrians.

Lemma CarAsSpawned_in_bounds (gridSize : R) (l : list (Car R)) :
  Forall (CarAsSpawned gridSize) l -> Forall (CarInBounds gridSize) l.
Proof. apply Forall_impl. intros car [H _]. exact H. Qed.

Lemma PedestrianAsSpawned_in_bounds (gridSize : R) (l : list (Pedestrian R)) :
  Forall (PedestrianAsSpawned gridSize) l ->
  Forall (PedestrianInBounds gridSize) l.
Proof. apply Forall_impl. intros p [H _]. exact H. Qed.

Lemma cityWorld_registries (random : nat -> R) (gridSize : R)
  (gridDivisions : Z) :
  exists n1 n2 : nat,
    cars (cityWorld random gridSize gridDivisions)
    = reg_cars (createRoadRegistries random gridSize gridDivisions n1) /\
    trafficLights (cityWorld random gridSize gridDivisions)
    = reg_lights (createRoadRegistries random gridSize gridDivisions n1) /\
    pedestrians (cityWorld random gridSize gridDivisions)
    = fst (createPedestrians random gridSize gridDivisions n2) /\
    List.length (buildings (cityWorld random gridSize gridDivisions))
    = List.length
        (fst (createBuildingMeshes random gridSize gridDivisions 0)).
Proof.
  unfold cityWorld.
  destruct (createBuildingMeshes random gridSize gridDivisions 0)
    as [meshes n1].
  exists n1,
    (calls (createRoadRegistries random gridSize gridDivisions n1)).
  destruct (createPedestrians random gridSize gridDivisions
              (calls (createRoadRegistries random gridSize gridDivisions n1)))
    as [peds n2].
  cbn [cars trafficLights pedestrians buildings fst].
  rewrite length_map. repeat split; reflexivity.
Qed.

Lemma createBuildingMeshes_length (random : nat -> R) (gridSize : R)
  (gridDivisions : Z) (n : nat) :
  List.length (fst (createBuildingMeshes random gridSize gridDivisions n))
  = List.length (createBuildings gridSize gridDivisions).
Proof.
  unfold createBuildingMeshes.
  generalize (createBuildings gridSize gridDivisions). intros l.
  assert (Hgen : forall (s : list (BuildingMesh R) * nat),
            List.length
              (fst (fold_left
                 (fun (s : list (BuildingMesh R) * nat) (bd : Building R) =>
                    let (m, n') :=
                      createBuildingByType random (buildingType bd)
                        (building_x bd) (building_z bd) (snd s) in
                    (fst s ++ [m], n')) l s))
            = (List.length (fst s) + List.length l)%nat).
  { induction l as [|bd l IH]; intros s; cbn [fold_left List.length]; [lia|].
    rewrite IH.
    destruct (createBuildingByType random (buildingType bd) (building_x bd)
                (building_z bd) (snd s)) as [m n'].
    cbn [fst]. rewrite length_app. cbn [List.length]. lia. }
  rewrite Hgen. reflexivity.
Qed.

(** X12.  Whatever values in [0, 1) [Math.random] returns, on a world of size
    [gridSize] >= 0 with [gridDivisions] >= 0 cells a side and
    k = (gridDivisions + 1) / 3 road indices, the scene [initCity] builds has
    6k cars, 12k pedestrians, k^2 traffic lights and (gridDivisions - k)^2
    buildings; every car and pedestrian is within the bounds on its moving
    axis, has direction 1 or -1 and a speed in [0.1, 0.3) (cars) or
    [0.02, 0.07) (pedestrians), and every traffic light is in one of the
    phases 0, 1, 2 with its timer in [0, 10). *)
Theorem city_is_populated_within_bounds (random : nat -> R) (gridSize : R)
  (gridDivisions : Z) :
  (forall k : nat, 0 <= random k < 1) -> 0 <= gridSize ->
  (0 <= gridDivisions)%Z ->
  let w := cityWorld random gridSize gridDivisions in
  let k := ((gridDivisions + 1) / 3)%Z in
  Forall (CarAsSpawned gridSize) (cars w) /\
  Forall (PedestrianAsSpawned gridSize) (pedestrians w) /\
  Forall LightAsSpawned (trafficLights w) /\
  Z.of_nat (List.length (cars w)) = (6 * k)%Z /\
  Z.of_nat (List.length (pedestrians w)) = (12 * k)%Z /\
  Z.of_nat (List.length (trafficLights w)) = (k * k)%Z /\
  Z.of_nat (List.length (buildings w))
  = ((gridDivisions - k) * (gridDivisions - k))%Z.
Proof.
  intros Hrnd Hg HN. cbn zeta.
  destruct (cityWorld_registries random gridSize gridDivisions)
    as (n1 & n2 & -> & -> & -> & ->).
  destruct (@createRoadRegistries_spawned random Hrnd gridSize Hg
              gridDivisions n1) as ([Oc Ol] & Lc & Ll).
  destruct (@createPedestrians_spawned random Hrnd gridSize Hg
              gridDivisions n2) as (Op & Lp).
  cbn zeta in *.
  destruct (road_index_count HN) as [Hk Hk0].
  rewrite Hk in Lc, Ll, Lp.
  rewrite createBuildingMeshes_length.
  split; [exact Oc|]. split; [exact Op|]. split; [exact Ol|].
  split; [rewrite Lc; lia|]. split; [rewrite Lp; lia|]. split.
  - rewrite Ll, Nat2Z.inj_mul, !Z2Nat.id by lia. reflexivity.
  - apply createBuildings_count, HN.
Qed.

Lemma city_is_populated_within_bounds_witness :
  List.length (cars (cityWorld (fun _ => 1 / 2) (100 : R) 10)) = 18%nat /\
  List.length (pedestrians (cityWorld (fun _ => 1 / 2) (100 : R) 10)) = 36%nat /\
  List.length (trafficLights (cityWorld (fun _ => 1 / 2) (100 : R) 10))
  = 9%nat /\
  List.length (buildings (cityWorld (fun _ => 1 / 2) (100 : R) 10)) = 49%nat.
Proof.
  assert (Hrnd : forall k : nat, 0 <= (fun _ : nat => 1 / 2) k < 1)
    by (intros k; lra).
  assert (Hg : 0 <= 100) by lra.
  assert (HN : (0 <= 10)%Z) by lia.
  destruct (@city_is_populated_within_bounds (fun _ => 1 / 2) 100 10
              Hrnd Hg HN) as (_ & _ & _ & Lc & Lp & Ll & Lb).
  cbn zeta in *. change ((10 + 1) / 3)%Z with 3%Z in *.
  repeat split; lia.
Defined.

(** ** The frame: [animate] *)

Lemma cityWorld_in_bounds (random : nat -> R) (gridSize : R)
  (gridDivisions : Z) :
  (forall k : nat, 0 <= random k < 1) -> 0 <= gridSize ->
  WorldInBounds gridSize (cityWorld random gridSize gridDivisions).
Proof.
  intros Hrnd Hg.
  destruct (cityWorld_registries random gridSize gridDivisions)
    as (n1 & n2 & Ec & El & Ep & _).
  destruct (@createRoadRegistries_spawned random Hrnd gridSize Hg
              gridDivisions n1) as ([Oc Ol] & _).
  destruct (@createPedestrians_spawned random Hrnd gridSize Hg
              gridDivisions n2) as (Op & _).
  unfold WorldInBounds. rewrite Ec, El, Ep. split; [|split].
  - apply CarAsSpawned_in_bounds, Oc.
  - apply PedestrianAsSpawned_in_bounds, Op.
  - revert Ol. apply Forall_impl. intros tl [H _]. exact H.
Qed.

Lemma day_night_frame (dayProgress : R) (w : World R) :
  pedestrians (updateDayNightCycle dayProgress w) = pedestrians w /\
  trafficLights (updateDayNightCycle dayProgress w) = trafficLights w.
Proof.
  split; [reflexivity|].
  unfold updateDayNightCycle. cbn [trafficLights].
  rewrite <- (map_id (trafficLights w)) at 2. apply map_ext.
  intros t. apply headlightsTrafficLight_id.
Qed.

Lemma updateDayNightCycle_in_bounds (gridSize dayProgress : R) (w : World R) :
  WorldInBounds gridSize w ->
  WorldInBounds gridSize (updateDayNightCycle dayProgress w).
Proof.
  intros (Hc & Hp & Hl). unfold WorldInBounds.
  destruct (day_night_frame dayProgress w) as (Hped & Htl).
  rewrite Hped, Htl, updateDayNightCycle_cars.
  split; [|split; assumption].
  rewrite Forall_map. revert Hc. apply Forall_impl.
  intros car Hcar. exact Hcar.
Qed.

Lemma moveActors_in_bounds (gridSize time : R) (w : World R) :
  WorldInBounds gridSize w ->
  WorldInBounds gridSize (moveActors gridSize time w) /\
  Forall LitMatchesPhase (trafficLights (moveActors gridSize time w)).
Proof.
  intros (Hc & Hp & Hl). unfold WorldInBounds, moveActors.
  cbn [cars pedestrians trafficLights].
  unfold updateCars, updatePedestrians, updateTrafficLights.
  rewrite !Forall_map. repeat split.
  - revert Hc. apply Forall_impl. apply updateCar_keeps_bounds.
  - revert Hp. apply Forall_impl. apply updatePedestrian_keeps_bounds.
  - revert Hl. apply Forall_impl. apply updateTrafficLight_phase.
  - revert Hl. apply Forall_impl. apply updateTrafficLight_lit.
Qed.

Lemma animate_in_bounds (gridSize dayDuration : R) (s : R * World R) :
  WorldInBounds gridSize (snd s) ->
  WorldInBounds gridSize (snd (animate gridSize dayDuration s)) /\
  Forall LitMatchesPhase
    (trafficLights (snd (animate gridSize dayDuration s))).
Proof.
  intros Hs. unfold animate. cbn [snd].
  apply moveActors_in_bounds, updateDayNightCycle_in_bounds, Hs.
Qed.

(** X13.  Whatever values in [0, 1) [Math.random] returns, in the scene of
    [initCity] (of any size [gridSize] >= 0), after any number of frames of
    [animate] and for any clock start and day length, every car and every
    pedestrian is within [-gridSize/2, gridSize/2] on its moving axis and
    every traffic light is in one of the phases 0, 1, 2; after at least one
    frame every traffic light has exactly one light lit, that of its
    phase. *)
Theorem city_stays_within_bounds (random : nat -> R)
  (gridSize dayDuration time0 : R) (gridDivisions : Z) (n : nat) :
  (forall k : nat, 0 <= random k < 1) -> 0 <= gridSize ->
  let s := Nat.iter n (animate gridSize dayDuration)
             (time0, cityWorld random gridSize gridDivisions) in
  WorldInBounds gridSize (snd s) /\
  ((1 <= n)%nat -> Forall LitMatchesPhase (trafficLights (snd s))).
Proof.
  intros Hrnd Hg. cbn zeta.
  assert (Hinv : forall m : nat,
            WorldInBounds gridSize
              (snd (Nat.iter m (animate gridSize dayDuration)
                      (time0, cityWorld random gridSize gridDivisions)))).
  { induction m as [|m IH].
    - apply cityWorld_in_bounds; assumption.
    - rewrite Nat.iter_succ. apply animate_in_bounds, IH. }
  split; [apply Hinv|].
  intros Hn. destruct n as [|n]; [lia|].
  rewrite Nat.iter_succ. apply animate_in_bounds, Hinv.
Qed.

Lemma city_stays_within_bounds_witness :
  let s := Nat.iter 3 (animate 100 120)
             (0, cityWorld (fun _ => 1 / 2) (100 : R) 10) in
  WorldInBounds 100 (snd s) /\ Forall LitMatchesPhase (trafficLights (snd s)).
Proof.
  assert (Hrnd : forall k : nat, 0 <= (fun _ : nat => 1 / 2) k < 1)
    by (intros k; lra).
  assert (Hg : 0 <= 100) by lra.
  destruct (@city_stays_within_bounds (fun _ => 1 / 2) 100 120 0 10 3 Hrnd Hg)
    as [Hb Hl].
  split; [exact Hb | apply Hl; lia].
Defined.











Lemma headlightsTrafficLight_same {A : Type} {N : Number A} (h : A)
  (t : TrafficLight A) :
  headlightsTrafficLight h t = t.
Proof. destruct t as [m [lr ly lg] st tm]. reflexivity. Qed.

Lemma headlightsCar_updateCar {A : Type} {N : Number A} (h gridSize : A)
  (car : Car A) :
  updateCar gridSize (headlightsCar h car)
  = headlightsCar h (updateCar gridSize car).
Proof.
  unfold updateCar, headlightsCar. cbn [car_road car_mesh car_speed
    car_direction headlights car_roadIndex].
  destruct (String.eqb (car_road car) "horizontal");
    repeat match goal with |- context [if (?a && ?c)%bool then _ else _] =>
      destruct (a && c)%bool
    end; reflexivity.
Qed.

(** X15.  Within a frame the order of the day/night update and of the three
    registry updates does not matter, for every number type: moving the cars
    and pedestrians and stepping the signals after [updateDayNightCycle], as
    [animate] does, gives the scene that doing so before it gives. *)
Theorem frame_updates_commute {A : Type} {N : Number A} {T : Trig A}
  (gridSize time dayProgress : A) (w : World A) :
  moveActors gridSize time (updateDayNightCycle dayProgress w)
  = updateDayNightCycle dayProgress (moveActors gridSize time w).
Proof.
  unfold moveActors, updateDayNightCycle.
  cbn [background sunLight ambientLight buildings cars trafficLights
       pedestrians streetElements].
  f_equal.
  - unfold updateCars. rewrite !map_map. apply map_ext. intros car.
    apply headlightsCar_updateCar.
  - unfold updateTrafficLights. rewrite !map_map. apply map_ext. intros t.
    rewrite !headlightsTrafficLight_same. reflexivity.
Qed.

(** ** The building factory: [createBuildingByType], [addWindows] *)

Lemma Int_part_bounds (v : R) (lo hi : Z) :
  IZR lo <= v < IZR hi + 1 -> (lo <= Int_part v <= hi)%Z.
Proof.
  intros [Hlo Hhi]. destruct (base_Int_part v) as [Hq Hq'].
  split.
  - assert (H : (lo - 1 < Int_part v)%Z)
      by (apply lt_IZR; rewrite minus_IZR; lra).
    lia.
  - assert (H : (Int_part v < hi + 1)%Z)
      by (apply lt_IZR; rewrite plus_IZR; lra).
    lia.
Qed.

Lemma Int_part_is (v : R) (k : Z) : IZR k <= v < IZR k + 1 -> Int_part v = k.
Proof. intros H. apply (@Int_part_bounds v k k) in H. lia. Qed.

Lemma windowParams_cases (type : string) (size spacing : R) (color : Z) :
  windowParams type = Some (size, spacing, color) ->
  (type = "skyscraper"%string /\ size = 8 / 10 /\ spacing = 3) \/
  (type = "apartment"%string /\ size = 12 / 10 /\ spacing = 25 / 10) \/
  (type = "shop"%string /\ size = 2 /\ spacing = 3).
Proof.
  unfold windowParams.
  destruct (String.eqb_spec type "skyscraper") as [->|_].
  { intros E. inversion E. left. repeat split; reflexivity. }
  destruct (String.eqb_spec type "apartment") as [->|_].
  { intros E. inversion E. right. left. repeat split; reflexivity. }
  destruct (String.eqb_spec type "shop") as [->|_]; [|discriminate].
  intros E. inversion E. right. right. repeat split; reflexivity.
Qed.


Lemma placeWindows_In (width height depth size spacing : R) (color : Z)
  (win : Window R) :
  In win (placeWindows width height depth size spacing color) ->
  exists floor column : Z,
    (0 <= floor < Int_part (height / spacing))%Z /\
    (0 <= column < Int_part (width / spacing))%Z /\
    win_size win = size /\
    y (win_position win)
    = (IZR floor - IZR (Int_part (height / spacing)) / 2 + 5 / 10) * spacing
      + height / 2 /\
    (((x (win_position win) = width / 2 + 1 / 100 \/
       x (win_position win) = - width / 2 + 1 / 100) /\
      z (win_position win)
      = (IZR column - IZR (Int_part (width / spacing)) / 2 + 5 / 10) * spacing)
     \/
     ((z (win_position win) = depth / 2 + 1 / 100 \/
       z (win_position win) = - depth / 2 + 1 / 100) /\
      x (win_position win)
      = (IZR column - IZR (Int_part (width / spacing)) / 2 + 5 / 10)
        * spacing)).
Proof.
  unfold placeWindows. cbn [Math_floor Number_R num_div].
  intros Hin. apply in_flat_map in Hin. destruct Hin as (side & Hside & Hin).
  apply in_flat_map in Hin. destruct Hin as (floor & Hfloor & Hin).
  apply in_map_iff in Hin. destruct Hin as (column & <- & Hcolumn).
  apply In_loop in Hfloor. apply In_loop in Hcolumn.
  exists floor, column. split; [exact Hfloor|]. split; [exact Hcolumn|].
  cbn [win_size win_position].
  destruct Hside as [<-|[<-|[<-|[<-|[]]]]]; cbn [fst snd x y z];
    unfold dec; cbn [ofZ num_add num_sub num_mul num_div num_neg Number_R];
    (split; [reflexivity|]); (split; [reflexivity|]).
  - left. split; [left|]; reflexivity.
  - left. split; [right|]; reflexivity.
  - right. split; [left|]; reflexivity.
  - right. split; [right|]; reflexivity.
Qed.

Lemma placeWindows_first (width height depth size spacing : R) (color : Z) :
  (1 <= Int_part (height / spacing))%Z ->
  (1 <= Int_part (width / spacing))%Z ->
  In (firstWindow width height size spacing color)
    (placeWindows width height depth size spacing color).
Proof.
  intros HF HC. unfold placeWindows. apply in_flat_map.
  exists (true, width / 2, PI / 2). split; [left; reflexivity|].
  apply in_flat_map. exists 0%Z.
  split; [apply In_loop; cbn [Math_floor Number_R num_div]; lia|].
  apply in_map_iff. exists 0%Z.
  split; [reflexivity|].
  apply In_loop; cbn [Math_floor Number_R num_div]; lia.
Qed.

(** X16.  Every window [addWindows] puts on a box of one of the three building
    types lies on one of the four side faces, 0.01 further along the axis
    than the face (so 0.01 outside the positive faces and 0.01 inside the
    negative ones), fits between the edges of the face horizontally, and lies
    entirely above the centre of the box: its centre is at least half a
    window spacing above it, so no window is on the lower half. *)
Theorem windows_lie_on_the_upper_half (width height depth size spacing : R)
  (type : string) (color : Z) (win : Window R) :
  0 < width -> 0 < height ->
  windowParams type = Some (size, spacing, color) ->
  In win (addWindows (Some (width, height, depth)) type) ->
  win_size win = size /\
  spacing / 2 <= y (win_position win) /\
  0 < y (win_position win) - win_size win / 2 /\
  (((x (win_position win) = width / 2 + 1 / 100 \/
     x (win_position win) = - width / 2 + 1 / 100) /\
    Rabs (z (win_position win)) + win_size win / 2 <= width / 2)
   \/
   ((z (win_position win) = depth / 2 + 1 / 100 \/
     z (win_position win) = - depth / 2 + 1 / 100) /\
    Rabs (x (win_position win)) + win_size win / 2 <= width / 2)).
Proof.
  intros Hw Hh Hparams Hin. unfold addWindows in Hin. rewrite Hparams in Hin.
  apply placeWindows_In in Hin.
  destruct Hin as (floor & column & Hf & Hc & Hsize & Hy & Hface).
  assert (Hs : 0 < size < spacing /\ 0 < spacing).
  { destruct (windowParams_cases _ Hparams)
      as [(_ & -> & ->)|[(_ & -> & ->)|(_ & -> & ->)]]; lra. }
  destruct Hs as [[Hsize0 Hsize1] Hsp].
  destruct (base_Int_part (height / spacing)) as [HF _].
  destruct (base_Int_part (width / spacing)) as [HC _].
  assert (Eh : height = height / spacing * spacing) by (field; lra).
  assert (Ew : width = width / spacing * spacing) by (field; lra).
  set (F := IZR (Int_part (height / spacing))) in *.
  set (C := IZR (Int_part (width / spacing))) in *.
  assert (HFs : F * spacing <= height) by (rewrite Eh; nra).
  assert (HCs : C * spacing <= width) by (rewrite Ew; nra).
  assert (Hf0 : 0 <= IZR floor) by (apply IZR_le; lia).
  assert (Hc0 : 0 <= IZR column) by (apply IZR_le; lia).
  assert (Hc1 : IZR column <= C - 1).
  { unfold C. rewrite <- minus_IZR. apply IZR_le. lia. }
  assert (Hylow : spacing / 2 <= y (win_position win)) by (rewrite Hy; nra).
  assert (Hoff : forall o : R,
            o = (IZR column - C / 2 + 5 / 10) * spacing ->
            Rabs o + size / 2 <= width / 2).
  { intros o ->.
    assert (Habs : Rabs ((IZR column - C / 2 + 5 / 10) * spacing)
                   <= (C - 1) / 2 * spacing).
    { apply Rabs_le. split; nra. }
    nra. }
  rewrite Hsize. split; [reflexivity|]. split; [exact Hylow|].
  split; [lra|].
  destruct Hface as [[Hx Hz]|[Hz Hx]]; [left | right];
    (split; [assumption | apply Hoff; assumption]).
Qed.

Lemma windows_lie_on_the_upper_half_witness :
  exists win : Window R,
    In win (addWindows (Some (8, 4, 8)) "shop") /\
    0 < y (win_position win) - win_size win / 2.
Proof.
  assert (Hin : In (firstWindow 8 4 2 3 0xffff88)
                  (addWindows (Some (8, 4, 8)) "shop")).
  { change (addWindows (Some (8, 4, 8)) "shop")
      with (placeWindows 8 4 8 2 3 0xffff88).
    apply placeWindows_first.
    - rewrite (@Int_part_is (4 / 3) 1) by lra. lia.
    - rewrite (@Int_part_is (8 / 3) 2) by lra. lia. }
  exists (firstWindow 8 4 2 3 0xffff88). split; [exact Hin|].
  assert (Hw : 0 < 8) by lra. assert (Hh : 0 < 4) by lra.
  destruct (@windows_lie_on_the_upper_half 8 4 8 2 3 "shop" 0xffff88 _
              Hw Hh eq_refl Hin) as (_ & _ & Hy & _).
  exact Hy.
Defined.





Lemma Int_part_at_least_1 (v : R) : 1 <= v -> (1 <= Int_part v)%Z.
Proof.
  intros Hv. destruct (base_Int_part v) as [_ Hq].
  assert (H : (0 < Int_part v)%Z) by (apply lt_IZR; lra).
  lia.
Qed.

(** X18.  The rows of windows are stacked from the middle of the box upwards,
    so the top row does not stay below the roof.  On a box at least one
    window spacing high and wide, [addWindows] puts a window whose centre is
    at or above the top face (the top face is at half the height, relative
    to the building); and on a box of a single floor, as every shop is, all
    the windows are centred exactly at the height of the top face. *)
Theorem top_row_is_at_the_roof (width height depth size spacing : R)
  (type : string) (color : Z) :
  windowParams type = Some (size, spacing, color) ->
  spacing <= height -> spacing <= width ->
  (exists win : Window R,
     In win (addWindows (Some (width, height, depth)) type) /\
     height / 2 <= y (win_position win)) /\
  (height < 2 * spacing ->
   forall win : Window R,
     In win (addWindows (Some (width, height, depth)) type) ->
     y (win_position win) = height / 2).
Proof.
  intros Hparams Hh Hw.
  assert (Hsp : 0 < spacing).
  { destruct (windowParams_cases _ Hparams)
      as [(_ & _ & ->)|[(_ & _ & ->)|(_ & _ & ->)]]; lra. }
  assert (Hq : forall v : R, spacing <= v -> 1 <= v / spacing).
  { intros v Hv. apply Rmult_le_reg_r with spacing; [exact Hsp|].
    replace (v / spacing * spacing) with v by (field; lra). lra. }
  pose proof (Int_part_at_least_1 (Hq _ Hh)) as HF.
  pose proof (Int_part_at_least_1 (Hq _ Hw)) as HC.
  unfold addWindows. rewrite Hparams. split.
  - set (F := Int_part (height / spacing)) in *.
    set (C := Int_part (width / spacing)) in *.
    exists {| win_position :=
                {| x := width / 2 + 1 / 100;
                   y := (IZR (F - 1) - IZR F / 2 + 5 / 10) * spacing
                        + height / 2;
                   z := (IZR 0 - IZR C / 2 + 5 / 10) * spacing |};
              win_rotation_y := PI / 2;
              win_size := size;
              win_color := color |}.
    split.
    + unfold placeWindows. apply in_flat_map.
      exists (true, width / 2, PI / 2). split; [left; reflexivity|].
      apply in_flat_map. exists (F - 1)%Z.
      split; [apply In_loop; cbn [Math_floor Number_R num_div]; fold F; lia|].
      apply in_map_iff. exists 0%Z.
      split; [reflexivity|].
      apply In_loop; cbn [Math_floor Number_R num_div]; fold C; lia.
    + cbn [win_position y]. rewrite minus_IZR.
      assert (H1 : 1 <= IZR F) by (apply IZR_le; exact HF).
      nra.
  - intros Hone win Hin. apply placeWindows_In in Hin.
    destruct Hin as (floor & column & Hf & _ & _ & Hy & _).
    assert (EF : Int_part (height / spacing) = 1%Z).
    { apply Int_part_is. split; [apply Hq; exact Hh|].
      apply Rmult_lt_reg_r with spacing; [exact Hsp|].
      replace (height / spacing * spacing) with height by (field; lra). lra. }
    rewrite EF in Hf, Hy.
    assert (E0 : floor = 0%Z) by lia. subst floor.
    rewrite Hy. lra.
Qed.

Lemma top_row_is_at_the_roof_witness :
  exists win : Window R,
    In win (addWindows (Some (8, 4, 8)) "shop") /\
    4 / 2 <= y (win_position win).
Proof.
  assert (Hh : 3 <= 4) by lra. assert (Hw : 3 <= 8) by lra.
  destruct (@top_row_is_at_the_roof 8 4 8 2 3 "shop" 0xffff88
              eq_refl Hh Hw) as [Hex _].
  exact Hex.
Defined.

(** ** Lanes and sidewalks against the road strips *)

Lemma roads_of_index (gridSize : R) (gridDivisions i : Z) :
  roadIndex i = true -> In i (loop gridDivisions) ->
  exists rh rv : Road R,
    IsRoadOf gridSize gridDivisions "horizontal" i rh /\
    IsRoadOf gridSize gridDivisions "vertical" i rv /\
    roadCentre rh
    = IZR i * (gridSize / IZR gridDivisions) - gridSize / 2
      + gridSize / IZR gridDivisions / 2 /\
    roadCentre rv
    = IZR i * (gridSize / IZR gridDivisions) - gridSize / 2
      + gridSize / IZR gridDivisions / 2.
Proof.
  intros Hi Hin. unfold roadIndex in Hi.
  assert (Hboth : forall r : Road R,
            In r [ {| road_i := i; horizontal := true;
                      road_position :=
                        {| x := 0; y := 1 / 100;
                           z := IZR i * (gridSize / IZR gridDivisions)
                                - gridSize / 2
                                + gridSize / IZR gridDivisions / 2 |} |};
                   {| road_i := i; horizontal := false;
                      road_position :=
                        {| x := IZR i * (gridSize / IZR gridDivisions)
                                - gridSize / 2
                                + gridSize / IZR gridDivisions / 2;
                           y := 1 / 100; z := 0 |} |} ] ->
            In r (createRoads gridSize gridDivisions)).
  { intros r Hr. unfold createRoads. apply in_flat_map. exists i.
    split; [exact Hin|]. rewrite Hi. exact Hr. }
  eexists. eexists.
  split; [split; [apply Hboth; left; reflexivity|split; reflexivity]|].
  split; [split; [apply Hboth; right; left; reflexivity|split; reflexivity]|].
  split; reflexivity.
Qed.

Section RegistryInvariant.
Variable random : nat -> R.
Variable gridSize : R.
Variable gridDivisions : Z.
Variable P : Car R -> Prop.
Variable Q : Pedestrian R -> Prop.
Hypothesis P_horizontal : forall (i c : Z) (r1 r2 : R),
  roadIndex i = true -> In i (loop gridDivisions) ->
  P (spawnCarHorizontal gridSize gridDivisions i c r1 r2).
Hypothesis P_vertical : forall (i c : Z) (r1 r2 : R),
  roadIndex i = true -> In i (loop gridDivisions) ->
  P (spawnCarVertical gridSize gridDivisions i c r1 r2).
Hypothesis Q_horizontal : forall (i : Z) (r1 r2 r3 r4 : R),
  roadIndex i = true -> In i (loop gridDivisions) ->
  Q (spawnPedestrianHorizontal gridSize gridDivisions i r1 r2 r3 r4).
Hypothesis Q_vertical : forall (i : Z) (r1 r2 r3 r4 : R),
  roadIndex i = true -> In i (loop gridDivisions) ->
  Q (spawnPedestrianVertical gridSize gridDivisions i r1 r2 r3 r4).

Lemma fold_left_inv_In {S X : Type} (I : S -> Prop) (f : S -> X -> S)
  (l : list X) (s : S) :
  (forall s' a, In a l -> I s' -> I (f s' a)) -> I s -> I (fold_left f l s).
Proof.
  revert s. induction l as [|a l IH]; intros s Hf Hs; cbn [fold_left];
    [exact Hs|].
  apply IH.
  - intros s' b Hb. apply Hf. right. exact Hb.
  - apply Hf; [left; reflexivity | exact Hs].
Qed.

Lemma createRoadRegistries_cars (n : nat) :
  Forall P (reg_cars (createRoadRegistries random gridSize gridDivisions n)).
Proof.
  unfold createRoadRegistries.
  apply (fold_left_inv_In (fun s : Registries R => Forall P (reg_cars s)));
    [|constructor].
  intros s i Hin Hs.
  destruct (Z.rem i 3 =? 1)%Z eqn:Hi; cbn [negb]; [|exact Hs].
  apply (fold_left_inv (fun s : Registries R => Forall P (reg_cars s))).
  { intros s' j Hs'. unfold pushTrafficLight.
    destruct (negb (Z.rem j 3 =? 1)%Z); exact Hs'. }
  apply (fold_left_inv (fun s : Registries R => Forall P (reg_cars s))).
  { intros s' c Hs'. unfold pushCarVertical.
    destruct (createCar random (calls s')) as [color k]. cbn [reg_cars].
    apply Forall_app. split; [exact Hs'|].
    constructor; [apply P_vertical; assumption | constructor]. }
  apply (fold_left_inv (fun s : Registries R => Forall P (reg_cars s)));
    [|exact Hs].
  intros s' c Hs'. unfold pushCarHorizontal.
  destruct (createCar random (calls s')) as [color k]. cbn [reg_cars].
  apply Forall_app. split; [exact Hs'|].
  constructor; [apply P_horizontal; assumption | constructor].
Qed.

Lemma createPedestrians_all (n : nat) :
  Forall Q (fst (createPedestrians random gridSize gridDivisions n)).
Proof.
  unfold createPedestrians.
  apply (fold_left_inv_In
           (fun s : list (Pedestrian R) * nat => Forall Q (fst s)));
    [|constructor].
  intros s i Hin Hs.
  destruct (Z.rem i 3 =? 1)%Z eqn:Hi; cbn [negb]; [|exact Hs].
  apply (fold_left_inv
           (fun s : list (Pedestrian R) * nat => Forall Q (fst s))).
  { intros s' p Hs'. unfold pushPedestrianVertical.
    destruct (createPedestrian random (snd s')) as [color k]. cbn [fst].
    apply Forall_app. split; [exact Hs'|].
    constructor; [apply Q_vertical; assumption | constructor]. }
  apply (fold_left_inv
           (fun s : list (Pedestrian R) * nat => Forall Q (fst s)));
    [|exact Hs].
  intros s' p Hs'. unfold pushPedestrianHorizontal.
  destruct (createPedestrian random (snd s')) as [color k]. cbn [fst].
  apply Forall_app. split; [exact Hs'|].
  constructor; [apply Q_horizontal; assumption | constructor].
Qed.

End RegistryInvariant.

Lemma spawned_car_lane (gridSize : R) (gridDivisions i c : Z) (r1 r2 : R) :
  roadIndex i = true -> In i (loop gridDivisions) ->
  CarLane gridSize gridDivisions
    (spawnCarHorizontal gridSize gridDivisions i c r1 r2) /\
  CarLane gridSize gridDivisions
    (spawnCarVertical gridSize gridDivisions i c r1 r2).
Proof.
  intros Hi Hin.
  destruct (@roads_of_index gridSize gridDivisions i Hi Hin) as (rh & rv & Hh & Hv & Eh & Ev).
  unfold CarLane, CarOffset, spawnCarHorizontal, spawnCarVertical.
  cbn [car_direction car_road car_roadIndex car_mesh].
  unfold lateralCoord. cbn [String.eqb Ascii.eqb Bool.eqb position x z].
  split.
  - destruct (Z.rem c 2 =? 0)%Z; cbn [Z.gtb Z.compare];
      [left | right]; (split; [cbn; lra|]); exists rh;
      (split; [exact Hh|]); rewrite Eh; cbn; lra.
  - destruct (Z.rem c 2 =? 0)%Z; cbn [Z.gtb Z.compare];
      [left | right]; (split; [cbn; lra|]); exists rv;
      (split; [exact Hv|]); rewrite Ev; cbn; lra.
Qed.

Lemma spawned_pedestrian_sidewalk (gridSize : R) (gridDivisions i : Z)
  (r1 r2 r3 r4 : R) :
  roadIndex i = true -> In i (loop gridDivisions) ->
  PedestrianSidewalk gridSize gridDivisions
    (spawnPedestrianHorizontal gridSize gridDivisions i r1 r2 r3 r4) /\
  PedestrianSidewalk gridSize gridDivisions
    (spawnPedestrianVertical gridSize gridDivisions i r1 r2 r3 r4).
Proof.
  intros Hi Hin.
  destruct (@roads_of_index gridSize gridDivisions i Hi Hin) as (rh & rv & Hh & Hv & Eh & Ev).
  unfold PedestrianSidewalk, PedestrianOffset, spawnPedestrianHorizontal,
    spawnPedestrianVertical.
  cbn [ped_side ped_road ped_roadIndex ped_mesh].
  unfold lateralCoord. cbn [String.eqb Ascii.eqb Bool.eqb position x z].
  js_unfold.
  split.
  - destruct (Rgtb r1 (1 / 2)); [left | right]; (split; [lra|]);
      exists rh; (split; [exact Hh|]); rewrite Eh; lra.
  - destruct (Rgtb r1 (1 / 2)); [left | right]; (split; [lra|]);
      exists rv; (split; [exact Hv|]); rewrite Ev; lra.
Qed.

Lemma updateCar_lane (gridSize gridSize' : R) (gridDivisions : Z)
  (car : Car R) :
  CarLane gridSize gridDivisions car ->
  CarLane gridSize gridDivisions (updateCar gridSize' car).
Proof.
  destruct (updateCar_mesh gridSize' car) as (_ & _ & Hcross & _ & Hi).
  destruct (updateCar_frame gridSize' car) as (Hroad & _ & Hdir).
  cbn zeta in Hcross, Hi.
  assert (Hlat : lateralCoord (car_road (updateCar gridSize' car))
                   (car_mesh (updateCar gridSize' car))
                 = lateralCoord (car_road car) (car_mesh car)).
  { rewrite Hroad. unfold lateralCoord.
    destruct (String.eqb (car_road car) "horizontal"); exact Hcross. }
  unfold CarLane, CarOffset. rewrite Hlat, Hroad, Hdir, Hi. auto.
Qed.

Lemma updatePedestrian_sidewalk (gridSize gridSize' : R) (gridDivisions : Z)
  (p : Pedestrian R) :
  PedestrianSidewalk gridSize gridDivisions p ->
  PedestrianSidewalk gridSize gridDivisions (updatePedestrian gridSize' p).
Proof.
  destruct (updatePedestrian_mesh gridSize' p) as (_ & _ & Hcross & Hs & Hi).
  destruct (updatePedestrian_frame gridSize' p) as (Hroad & _ & _).
  cbn zeta in Hcross, Hs, Hi.
  assert (Hlat : lateralCoord (ped_road (updatePedestrian gridSize' p))
                   (ped_mesh (updatePedestrian gridSize' p))
                 = lateralCoord (ped_road p) (ped_mesh p)).
  { rewrite Hroad. unfold lateralCoord.
    destruct (String.eqb (ped_road p) "horizontal"); exact Hcross. }
  unfold PedestrianSidewalk, PedestrianOffset. rewrite Hlat, Hroad, Hs, Hi.
  auto.
Qed.

Lemma animate_lanes (gridSize dayDuration : R) (gridDivisions : Z)
  (s : R * World R) :
  Forall (CarLane gridSize gridDivisions) (cars (snd s)) /\
  Forall (PedestrianSidewalk gridSize gridDivisions) (pedestrians (snd s)) ->
  Forall (CarLane gridSize gridDivisions)
    (cars (snd (animate gridSize dayDuration s))) /\
  Forall (PedestrianSidewalk gridSize gridDivisions)
    (pedestrians (snd (animate gridSize dayDuration s))).
Proof.
  intros [Hc Hp]. unfold animate, moveActors. cbn [snd cars pedestrians].
  unfold updateCars, updatePedestrians.
  rewrite updateDayNightCycle_cars, !Forall_map. split.
  - revert Hc. apply Forall_impl. intros car Hcar.
    apply updateCar_lane. exact Hcar.
  - revert Hp. apply Forall_impl. intros p. apply updatePedestrian_sidewalk.
Qed.

(** X19.  Where the traffic runs, measured across the road from the centre
    line of the strip [createRoads] lays (the strip is [blockSize] wide and
    centred at [i * blockSize - centerOffset + blockSize / 2], while lanes
    and sidewalks are measured from [i * blockSize - centerOffset]).  In the
    scene of [initCity], for any random values and after any number of
    frames of [animate]: a car driving in the positive direction is at
    -2 - blockSize/2 from the centre line of its road, so 2 units beyond the
    edge of the strip; a car driving in the negative direction is at
    2 - blockSize/2; a pedestrian of side 1 walks 1 unit from the centre
    line, and a pedestrian of side -1 walks blockSize + 1 from it. *)
Theorem lanes_are_measured_from_the_road_edge (random : nat -> R)
  (gridSize dayDuration time0 : R) (gridDivisions : Z) (n : nat) :
  let s := Nat.iter n (animate gridSize dayDuration)
             (time0, cityWorld random gridSize gridDivisions) in
  Forall (CarLane gridSize gridDivisions) (cars (snd s)) /\
  Forall (PedestrianSidewalk gridSize gridDivisions) (pedestrians (snd s)).
Proof.
  cbn zeta. induction n as [|n IH].
  - cbn [Nat.iter nat_rect snd].
    destruct (cityWorld_registries random gridSize gridDivisions)
      as (n1 & n2 & -> & _ & -> & _).
    split.
    + apply createRoadRegistries_cars; intros i c r1 r2 Hi Hin;
        destruct (@spawned_car_lane gridSize gridDivisions i c r1 r2 Hi Hin)
          as [Hh Hv]; assumption.
    + apply createPedestrians_all; intros i r1 r2 r3 r4 Hi Hin;
        destruct (@spawned_pedestrian_sidewalk gridSize gridDivisions i
                    r1 r2 r3 r4 Hi Hin) as [Hh Hv]; assumption.
  - rewrite Nat.iter_succ. apply animate_lanes, IH.
Qed.

(** ** Street furniture: [createStreetElements] *)

Lemma createStreetElements_cells (gridSize : R) (gridDivisions : Z) :
  createStreetElements gridSize gridDivisions
  = flat_map (fun i =>
      if negb (Z.rem i 3 =? 1)%Z then []
      else
        flat_map (fun j =>
          if (Z.rem j 3 =? 1)%Z then []
          else furnitureHorizontal gridSize gridDivisions i j)
          (loop gridDivisions)
        ++ flat_map (fun j =>
          if (Z.rem j 3 =? 1)%Z then []
          else furnitureVertical gridSize gridDivisions i j)
          (loop gridDivisions))
      (loop gridDivisions).
Proof. reflexivity. Qed.

Lemma In_createStreetElements (gridSize : R) (gridDivisions : Z)
  (e : StreetElement R) :
  In e (createStreetElements gridSize gridDivisions) <->
  exists i j : Z,
    In i (loop gridDivisions) /\ roadIndex i = true /\
    In j (loop gridDivisions) /\ roadIndex j = false /\
    (In e (furnitureHorizontal gridSize gridDivisions i j) \/
     In e (furnitureVertical gridSize gridDivisions i j)).
Proof.
  rewrite createStreetElements_cells. unfold roadIndex. split.
  - intros Hin. apply in_flat_map in Hin. destruct Hin as (i & Hi & Hin).
    destruct (Z.rem i 3 =? 1)%Z eqn:Ei; cbn [negb] in Hin; [|destruct Hin].
    apply in_app_or in Hin.
    destruct Hin as [Hin|Hin]; apply in_flat_map in Hin;
      destruct Hin as (j & Hj & Hin);
      destruct (Z.rem j 3 =? 1)%Z eqn:Ej; try destruct Hin;
      exists i, j; auto 10.
  - intros (i & j & Hi & Ei & Hj & Ej & Hin).
    apply in_flat_map. exists i. split; [exact Hi|]. rewrite Ei. cbn [negb].
    apply in_or_app.
    destruct Hin as [Hin|Hin]; [left | right]; apply in_flat_map; exists j;
      (split; [exact Hj|]); rewrite Ej; exact Hin.
Qed.

Lemma rem_4_even (j : Z) :
  (0 <= j)%Z ->
  ((Z.rem j 4 =? 0) = true \/ (Z.rem j 4 =? 2) = true)%Z ->
  (Z.rem j 2 =? 0)%Z = true.
Proof.
  intros Hj H. rewrite !Z.rem_mod_nonneg in * by lia.
  rewrite !Z.eqb_eq in *. Z.to_euclidean_division_equations. lia.
Qed.

(** X20.  Every lamppost, bench and tree of [createStreetElements] stands on
    the ground along a strip of [createRoads], level with the centre of a
    cell [j] that is not a crossing, on the positive side of the centre line
    of the strip: a bench 4 units from it, a lamppost 5 and a tree 6 (the
    strip itself reaches [blockSize / 2] from it).  Every lamppost has a tree
    1 unit behind it and every bench a tree 2 units behind it, at the same
    place along the road. *)
Theorem street_furniture_lines_the_roads (gridSize : R) (gridDivisions : Z)
  (e : StreetElement R) :
  In e (createStreetElements gridSize gridDivisions) ->
  exists (r : Road R) (j : Z),
    In r (createRoads gridSize gridDivisions) /\
    (0 <= j < gridDivisions)%Z /\ roadIndex j = false /\
    let blockSize := gridSize / IZR gridDivisions in
    let p := position (streetElement_mesh e) in
    y p = 0 /\
    alongRoad r p = IZR j * blockSize - gridSize / 2 + blockSize / 2 /\
    match e with
    | SE_lamppost _ =>
        acrossRoad r p - roadCentre r = 5 /\
        TreeBehind gridSize gridDivisions r p 1
    | SE_bench _ =>
        acrossRoad r p - roadCentre r = 4 /\
        TreeBehind gridSize gridDivisions r p 2
    | SE_tree _ => acrossRoad r p - roadCentre r = 6
    end.
Proof.
  intros Hin. apply In_createStreetElements in Hin.
  destruct Hin as (i & j & Hi & Ei & Hj & Ej & Hin).
  destruct (@roads_of_index gridSize gridDivisions i Ei Hi)
    as (rh & rv & (Hrh & _ & Hh) & (Hrv & _ & Hv) & Ch & Cv).
  cbn [String.eqb Ascii.eqb Bool.eqb] in Hh, Hv.
  pose proof (proj1 (In_loop _ _) Hj) as Hjr.
  assert (Htree : forall (r : Road R) (v : Vector3 R) (d : R)
                    (t : Object3D R),
            (Z.rem j 2 =? 0)%Z = true ->
            (In (SE_tree t) (furnitureHorizontal gridSize gridDivisions i j) \/
             In (SE_tree t) (furnitureVertical gridSize gridDivisions i j)) ->
            alongRoad r (position t) = alongRoad r v ->
            acrossRoad r (position t) = acrossRoad r v + d ->
            TreeBehind gridSize gridDivisions r v d).
  { intros r v d t _ Ht Ha Hc. exists t. split; [|split; assumption].
    apply In_createStreetElements. exists i, j. auto 10. }
  destruct Hin as [Hin|Hin].
  - exists rh, j. split; [exact Hrh|]. split; [exact Hjr|].
    split; [exact Ej|]. cbn zeta.
    unfold alongRoad, acrossRoad, roadCentre in *. rewrite Hh in *.
    unfold furnitureHorizontal in Hin. js_unfold. cbn zeta in Hin.
    apply in_app_or in Hin. destruct Hin as [Hin|Hin];
      [|apply in_app_or in Hin; destruct Hin as [Hin|Hin]].
    + destruct (Z.rem j 4 =? 0)%Z eqn:E4; [|destruct Hin].
      destruct Hin as [<-|[]]. cbn [streetElement_mesh lamppostAt].
      cbn. rewrite Ch. split; [reflexivity|]. split; [lra|]. split; [lra|].
      assert (E2 : (Z.rem j 2 =? 0)%Z = true)
        by (apply rem_4_even; [lia | left; exact E4]).
      eapply Htree; [exact E2| | |].
      * left. unfold furnitureHorizontal. rewrite E2.
        apply in_or_app. right. apply in_or_app. right. left. reflexivity.
      * rewrite Hh. cbn. reflexivity.
      * rewrite Hh. cbn. lra.
    + destruct (Z.rem j 4 =? 2)%Z eqn:E4; [|destruct Hin].
      destruct Hin as [<-|[]]. cbn [streetElement_mesh].
      cbn. rewrite Ch. split; [reflexivity|]. split; [lra|]. split; [lra|].
      assert (E2 : (Z.rem j 2 =? 0)%Z = true)
        by (apply rem_4_even; [lia | right; exact E4]).
      eapply Htree; [exact E2| | |].
      * left. unfold furnitureHorizontal. rewrite E2.
        apply in_or_app. right. apply in_or_app. right. left. reflexivity.
      * rewrite Hh. cbn. reflexivity.
      * rewrite Hh. cbn. lra.
    + destruct (Z.rem j 2 =? 0)%Z eqn:E2; [|destruct Hin].
      destruct Hin as [<-|[]]. cbn [streetElement_mesh].
      cbn. rewrite Ch. split; [reflexivity|]. split; lra.
  - exists rv, j. split; [exact Hrv|]. split; [exact Hjr|].
    split; [exact Ej|]. cbn zeta.
    unfold alongRoad, acrossRoad, roadCentre in *. rewrite Hv in *.
    unfold furnitureVertical in Hin. js_unfold. cbn zeta in Hin.
    apply in_app_or in Hin. destruct Hin as [Hin|Hin];
      [|apply in_app_or in Hin; destruct Hin as [Hin|Hin]].
    + destruct (Z.rem j 4 =? 0)%Z eqn:E4; [|destruct Hin].
      destruct Hin as [<-|[]]. cbn [streetElement_mesh lamppostAt].
      cbn. rewrite Cv. split; [reflexivity|]. split; [lra|]. split; [lra|].
      assert (E2 : (Z.rem j 2 =? 0)%Z = true)
        by (apply rem_4_even; [lia | left; exact E4]).
      eapply Htree; [exact E2| | |].
      * right. unfold furnitureVertical. rewrite E2.
        apply in_or_app. right. apply in_or_app. right. left. reflexivity.
      * rewrite Hv. cbn. reflexivity.
      * rewrite Hv. cbn. lra.
    + destruct (Z.rem j 4 =? 2)%Z eqn:E4; [|destruct Hin].
      destruct Hin as [<-|[]]. cbn [streetElement_mesh].
      cbn. rewrite Cv. split; [reflexivity|]. split; [lra|]. split; [lra|].
      assert (E2 : (Z.rem j 2 =? 0)%Z = true)
        by (apply rem_4_even; [lia | right; exact E4]).
      eapply Htree; [exact E2| | |].
      * right. unfold furnitureVertical. rewrite E2.
        apply in_or_app. right. apply in_or_app. right. left. reflexivity.
      * rewrite Hv. cbn. reflexivity.
      * rewrite Hv. cbn. lra.
    + destruct (Z.rem j 2 =? 0)%Z eqn:E2; [|destruct Hin].
      destruct Hin as [<-|[]]. cbn [streetElement_mesh].
      cbn. rewrite Cv. split; [reflexivity|]. split; lra.
Qed.

Lemma street_furniture_lines_the_roads_witness :
  exists (e : StreetElement R) (r : Road R),
    In e (createStreetElements 100 2) /\
    In r (createRoads 100 2) /\
    TreeBehind 100 2 r (position (streetElement_mesh e)) 1.
Proof.
  assert (Hin : In (lamppostAt (0 * (100 / 2) - 100 / 2 + 100 / 2 / 2)
                      (1 * (100 / 2) - 100 / 2 + 100 / 2 / 2 + 5))
                  (createStreetElements 100 2)).
  { apply In_createStreetElements. exists 1%Z, 0%Z.
    split; [apply In_loop; lia|]. split; [reflexivity|].
    split; [apply In_loop; lia|]. split; [reflexivity|].
    left. left. reflexivity. }
  destruct (@street_furniture_lines_the_roads _ _ _ Hin)
    as (r & j & Hr & _ & _ & _ & _ & _ & Htree).
  eexists. exists r. split; [exact Hin|]. split; [exact Hr | exact Htree].
Defined.

(** ** Buildings against the road strips *)







(** ** Signals against the road strips *)

Lemma createRoadRegistries_lights (random : nat -> R) (gridSize : R)
  (gridDivisions : Z) (n : nat) (P : TrafficLight R -> Prop) :
  (forall (i j : Z) (r1 r2 : R),
     roadIndex i = true -> In i (loop gridDivisions) ->
     roadIndex j = true -> In j (loop gridDivisions) ->
     P (spawnTrafficLight gridSize gridDivisions i j r1 r2)) ->
  Forall P (reg_lights (createRoadRegistries random gridSize gridDivisions n)).
Proof.
  intros HP. unfold createRoadRegistries.
  apply (fold_left_inv_In (fun s : Registries R => Forall P (reg_lights s)));
    [|constructor].
  intros s i Hin Hs.
  destruct (Z.rem i 3 =? 1)%Z eqn:Hi; cbn [negb]; [|exact Hs].
  apply (fold_left_inv_In (fun s : Registries R => Forall P (reg_lights s))).
  { intros s' j Hj Hs'. unfold pushTrafficLight.
    destruct (Z.rem j 3 =? 1)%Z eqn:Ej; cbn [negb]; [|exact Hs'].
    cbn [reg_lights]. apply Forall_app. split; [exact Hs'|].
    constructor; [apply HP; assumption | constructor]. }
  apply (fold_left_inv (fun s : Registries R => Forall P (reg_lights s))).
  { intros s' c Hs'. unfold pushCarVertical.
    destruct (createCar random (calls s')) as [color k]. exact Hs'. }
  apply (fold_left_inv (fun s : Registries R => Forall P (reg_lights s)));
    [|exact Hs].
  intros s' c Hs'. unfold pushCarHorizontal.
  destruct (createCar random (calls s')) as [color k]. exact Hs'.
Qed.

Lemma spawned_signal_at_crossing (gridSize : R) (gridDivisions i j : Z)
  (r1 r2 : R) :
  roadIndex i = true -> In i (loop gridDivisions) ->
  roadIndex j = true -> In j (loop gridDivisions) ->
  SignalAtCrossing gridSize gridDivisions
    (spawnTrafficLight gridSize gridDivisions i j r1 r2).
Proof.
  intros Ei Hi Ej Hj.
  destruct (@roads_of_index gridSize gridDivisions i Ei Hi)
    as (_ & rv & _ & (Hrv & _ & Hv) & _ & Cv).
  destruct (@roads_of_index gridSize gridDivisions j Ej Hj)
    as (rh & _ & (Hrh & _ & Hh) & _ & Ch & _).
  cbn [String.eqb Ascii.eqb Bool.eqb] in Hh, Hv.
  exists rh, rv. split; [exact Hrh|]. split; [exact Hrv|].
  split; [exact Hh|]. split; [exact Hv|].
  unfold acrossRoad. rewrite Hh, Hv, Ch, Cv. cbn.
  split; [reflexivity|]. split; lra.
Qed.

Lemma animate_signals (gridSize dayDuration : R) (gridDivisions : Z)
  (s : R * World R) :
  Forall (SignalAtCrossing gridSize gridDivisions) (trafficLights (snd s)) ->
  Forall (SignalAtCrossing gridSize gridDivisions)
    (trafficLights (snd (animate gridSize dayDuration s))).
Proof.
  intros Hs. unfold animate, moveActors. cbn [snd trafficLights].
  destruct (day_night_frame
              (num_rem (fst s + dec 1 100) dayDuration / dayDuration)%js
              (snd s)) as [_ ->].
  unfold updateTrafficLights. rewrite Forall_map.
  revert Hs. apply Forall_impl. intros tl Htl.
  unfold SignalAtCrossing.
  destruct (updateTrafficLight_fields tl) as (_ & _ & _ & ->). exact Htl.
Qed.

(** X22.  In the scene of [initCity], for any random values and after any
    number of frames of [animate], every traffic light stands on the ground
    3 units from the centre line of a horizontal strip and 3 units from the
    centre line of a vertical strip of [createRoads], on their positive
    sides: it stands inside the crossing of the two roads whenever the
    strips are more than 6 wide (they are 10 wide in [initCity]). *)
Theorem signals_stand_on_the_crossings (random : nat -> R)
  (gridSize dayDuration time0 : R) (gridDivisions : Z) (n : nat) :
  let s := Nat.iter n (animate gridSize dayDuration)
             (time0, cityWorld random gridSize gridDivisions) in
  Forall (SignalAtCrossing gridSize gridDivisions) (trafficLights (snd s)).
Proof.
  cbn zeta. induction n as [|n IH].
  - cbn [Nat.iter nat_rect snd].
    destruct (cityWorld_registries random gridSize gridDivisions)
      as (n1 & n2 & _ & -> & _ & _).
    apply createRoadRegistries_lights.
    intros i j r1 r2 Ei Hi Ej Hj. apply spawned_signal_at_crossing; assumption.
  - rewrite Nat.iter_succ. apply animate_signals, IH.
Qed.
